(** * MOS_Phase_3: a shallow embedding of the multiprogramming OS simulator

    The development follows [MOS_Phase_3.cpp]: the data model (memory,
    page tables, PCBs, the CPU), the address mapper, the service and error
    handlers, the interrupt dispatcher, the loader and the executor.  C++
    [int] values are integers of [Z]; the program never leaves the 32-bit
    range on them (job-card fields have four digits, operands two, and the
    counters are bounded by [MAX_TIMER]).  Arrays are lists read and
    updated by index; strings are [String.string]. *)

From Stdlib Require Import ZArith Ascii String Lia Bool DecimalString.
From stdpp Require Import base tactics option list.

Local Open Scope Z_scope.

(** ** Constants *)

Definition MEM_SIZE : Z := 100.
Definition PAGE_SIZE : Z := 10.
Definition FRAME_COUNT : Z := 10.
Definition WORD_SIZE : Z := 4.
Definition MAX_TIMER : Z := 1000000.

(** ** Error and interrupt codes *)

Inductive EM_Code :=
| EM_NO_ERR | EM_OUT_OF_DATA | EM_LINE_LIMIT | EM_TIME_LIMIT
| EM_OP_CODE_ERR | EM_OPERAND_ERR | EM_INVALID_PAGE.

(* enum SI_Type { READ=1, WRITE=2, TERM=3 } *)
Definition READ : Z := 1.
Definition WRITE : Z := 2.
Definition TERM : Z := 3.

(* enum PI_Type { PI_OP_ERR=1, PI_OPERAND_ERR=2, PI_PAGE_FAULT=3 } *)
Definition PI_OP_ERR : Z := 1.
Definition PI_OPERAND_ERR : Z := 2.
Definition PI_PAGE_FAULT : Z := 3.

(* enum InterruptPriority: a higher number is a higher priority *)
Definition PRIORITY_TIMER : Z := 3.
Definition PRIORITY_PAGE_FAULT : Z := 2.
Definition PRIORITY_PROGRAM : Z := 1.
Definition PRIORITY_SYSCALL : Z := 0.

(** ** Characters, words and strings *)

Definition NUL : ascii := Ascii.zero.
Definition SPACE : ascii := " "%char.
Definition NEWLINE : ascii := ascii_of_nat 10.

(* ::isspace in the "C" locale: space, \t, \n, \v, \f, \r *)
Definition isspace (c : ascii) : bool :=
  let n := nat_of_ascii c in
  (Nat.eqb n 32 || (Nat.leb 9 n && Nat.leb n 13))%bool.

Definition isdigit (c : ascii) : bool :=
  let n := nat_of_ascii c in (Nat.leb 48 n && Nat.leb n 57)%bool.

Definition digit_value (c : ascii) : Z := Z.of_nat (nat_of_ascii c) - 48.

(** [char [WORD_SIZE]]: one memory word, one register. *)
Definition Word : Type := ascii * ascii * ascii * ascii.

Definition word0 : Word := (NUL, NUL, NUL, NUL).

Global Instance Word_inhabited : Inhabited Word := populate word0.

Global Instance string_inhabited : Inhabited string := populate EmptyString.

Definition word_eqb (a b : Word) : bool :=
  match a, b with
  | (a0, a1, a2, a3), (b0, b1, b2, b3) =>
      (Ascii.eqb a0 b0 && Ascii.eqb a1 b1 && Ascii.eqb a2 b2 && Ascii.eqb a3 b3)%bool
  end.

Definition string_at (s : string) (n : nat) (d : ascii) : ascii :=
  match String.get n s with Some c => c | None => d end.

(** [s.resize(WORD_SIZE, ' ')] followed by the copy of [s[0..3]] into a
    word: the first four characters, with spaces where [s] is shorter. *)
Definition word_of_string (s : string) : Word :=
  (string_at s 0 SPACE, string_at s 1 SPACE, string_at s 2 SPACE, string_at s 3 SPACE).

(** [string(w, WORD_SIZE)]: the four characters of a word, as a string. *)
Definition string_of_word (w : Word) : string :=
  match w with
  | (a, b, c, d) => String a (String b (String c (String d EmptyString)))
  end.

Fixpoint string_filter (f : ascii -> bool) (s : string) : string :=
  match s with
  | EmptyString => EmptyString
  | String c r => if f c then String c (string_filter f r) else string_filter f r
  end.

(** The characters of a word that are not NUL, in order: the loops
    [if (c != '\0') s += c] of the fetch and of the write handler. *)
Definition nonnul_string (w : Word) : string :=
  string_filter (fun c => negb (Ascii.eqb c NUL)) (string_of_word w).

(** [s.erase(remove_if(s.begin(), s.end(), ::isspace), s.end())] *)
Definition remove_spaces (s : string) : string :=
  string_filter (fun c => negb (isspace c)) s.

(** Erase the trailing run of spaces and NULs (the [find_if] over the
    reverse range in [executeInstruction]). *)
Fixpoint rtrim (s : string) : string :=
  match s with
  | EmptyString => EmptyString
  | String c r =>
      match rtrim r with
      | EmptyString =>
          if (Ascii.eqb c SPACE || Ascii.eqb c NUL)%bool then EmptyString
          else String c EmptyString
      | r' => String c r'
      end
  end.

(** [s.substr(pos, n)]: throws [out_of_range] ([None]) when [pos] is past
    the end, otherwise at most [n] characters from [pos]. *)
Definition substr (s : string) (pos n : nat) : option string :=
  if Nat.ltb (String.length s) pos then None else Some (String.substring pos n s).

(** [s.substr(pos)]: to the end of the string. *)
Definition substr_from (s : string) (pos : nat) : option string :=
  substr s pos (String.length s).

(** [s.find(p) == 0] *)
Definition starts_with (p s : string) : bool := String.prefix p s.

Definition INT_MIN : Z := - 2147483648.
Definition INT_MAX : Z := 2147483647.

Fixpoint skip_spaces (s : string) : string :=
  match s with
  | String c r => if isspace c then skip_spaces r else s
  | EmptyString => EmptyString
  end.

(** The run of decimal digits at the front of [s], read in base ten;
    [None] when [s] does not start with a digit. *)
Fixpoint read_digits (acc : option Z) (s : string) : option Z :=
  match s with
  | String c r =>
      if isdigit c
      then read_digits (Some (10 * default 0 acc + digit_value c)) r
      else acc
  | EmptyString => acc
  end.

(** [std::stoi]: leading white space, an optional sign, decimal digits;
    the rest of the string is ignored.  [None] stands for the exception
    ([invalid_argument] when there is no digit, [out_of_range] when the
    value does not fit an [int]). *)
Definition stoi (s : string) : option Z :=
  let s := skip_spaces s in
  let '(neg, body) :=
    match s with
    | String c r =>
        if Ascii.eqb c "-"%char then (true, r)
        else if Ascii.eqb c "+"%char then (false, r)
        else (false, s)
    | EmptyString => (false, s)
    end in
  match read_digits None body with
  | None => None
  | Some v =>
      let v := if neg then - v else v in
      if (v <? INT_MIN) || (INT_MAX <? v) then None else Some v
  end.

(** [std::to_string] and [operator<<] on an [int]. *)
Definition to_string (z : Z) : string := NilZero.string_of_int (Z.to_int z).

(** The lines [getline] extracts from a string stream: split at every
    newline; a last line without a newline counts when it is not empty. *)
Fixpoint getlines_from (cur : string -> string) (s : string) : list string :=
  match s with
  | EmptyString =>
      match cur EmptyString with
      | EmptyString => []
      | l => [l]
      end
  | String c r =>
      if Ascii.eqb c NEWLINE
      then cur EmptyString :: getlines_from (fun x => x) r
      else getlines_from (fun x => cur (String c x)) r
  end.

Definition getlines (s : string) : list string := getlines_from (fun x => x) s.

(** The consecutive [WORD_SIZE]-character pieces of a data card:
    [data.substr(i, min(WORD_SIZE, data.length() - i))] for
    [i = 0, 4, 8, ...]; the last piece may be shorter. *)
Fixpoint chunks (s : string) : list string :=
  match s with
  | EmptyString => []
  | String a EmptyString => [String a EmptyString]
  | String a (String b EmptyString) => [String a (String b EmptyString)]
  | String a (String b (String c EmptyString)) =>
      [String a (String b (String c EmptyString))]
  | String a (String b (String c (String d r))) =>
      String a (String b (String c (String d EmptyString))) :: chunks r
  end.

(** ** Data model *)

(* struct CPUState *)
Record CPUState := mkCPU {
  IR : Word;   (* the instruction being executed *)
  IC : Z;      (* virtual address of the next instruction *)
  R : Word;    (* general purpose register *)
  C : bool;    (* result of the last comparison *)
  SI : Z;      (* service interrupt *)
  PI : Z;      (* program interrupt *)
  TI : Z;      (* timer interrupt *)
  RA : Z       (* address register of the I/O handlers *)
}.

(* struct PageTableEntry *)
Record PageTableEntry := mkPTE { frame : Z; valid : bool }.

Global Instance PageTableEntry_inhabited : Inhabited PageTableEntry :=
  populate (mkPTE (-1) false).

(* enum ProcessState; READY is 0 *)
Inductive ProcessState := READY | RUNNING | BLOCKED | TERMINATED.

Definition ProcessState_eqb (a b : ProcessState) : bool :=
  match a, b with
  | READY, READY | RUNNING, RUNNING | BLOCKED, BLOCKED | TERMINATED, TERMINATED => true
  | _, _ => false
  end.

(* struct Memory *)
Record Memory := mkMemory {
  data : list Word;            (* char data[MEM_SIZE][WORD_SIZE] *)
  allocated : list bool;       (* bool allocated[FRAME_COUNT] *)
  locked_frames : list bool    (* bitset<FRAME_COUNT> *)
}.

(* struct ProcessContext *)
Record ProcessContext := mkContext {
  registers : list Z;
  programCounter : Z;
  stackPointer : Z;
  statusRegister : Z;
  state : ProcessState
}.

(* struct PCB; [priority] and [interruptMask] are never read or written
   and are left out. *)
Record PCB := mkPCB {
  pid : Z;
  TTL : Z;
  TLL : Z;
  TTC : Z;
  LLC : Z;
  pageTable : list PageTableEntry;   (* PageTableEntry pageTable[FRAME_COUNT] *)
  PTR : Z;
  dataCards : list string;
  terminated : bool;
  context : ProcessContext
}.

(** What the program writes to [outFile]: the line of a write, and the
    block [terminate] writes for a job, with its reason code. *)
Inductive OutItem :=
| OutLine (s : string)
| OutTerminated (p : Z) (code : EM_Code) (ttc llc : Z).

(** The two [debugPrint] messages the scheduling properties are stated
    on; the rest of the console trace is not modelled. *)
Inductive Event :=
| EvExecuting   (* "Executing instruction: [...]" *)
| EvSwitch.     (* "Time slice expired, switching process" *)

(** class MOS.  A PCB is owned by exactly one of [currentPCB], a slot of
    [readyQueue] and the loader's local pointer, so the pointers
    [PCB*] are modelled by the PCBs themselves, [nullptr] by [None]. *)
Record MOS := mkMOS {
  mem : Memory;
  readyQueue : list PCB;       (* front of the queue first *)
  currentPCB : option PCB;
  cpu : CPUState;
  outFile : list OutItem;      (* in the order written *)
  globalTimer : Z;
  systemRunning : bool;
  console : list Event         (* most recent first *)
}.

(* bool interruptsEnabled = true; it is never assigned. *)
Definition interruptsEnabled : bool := true.

(** *** Field updates *)

Definition set_IR (v : Word) (c : CPUState) : CPUState :=
  mkCPU v (IC c) (R c) (C c) (SI c) (PI c) (TI c) (RA c).
Definition set_IC (v : Z) (c : CPUState) : CPUState :=
  mkCPU (IR c) v (R c) (C c) (SI c) (PI c) (TI c) (RA c).
Definition set_R (v : Word) (c : CPUState) : CPUState :=
  mkCPU (IR c) (IC c) v (C c) (SI c) (PI c) (TI c) (RA c).
Definition set_C (v : bool) (c : CPUState) : CPUState :=
  mkCPU (IR c) (IC c) (R c) v (SI c) (PI c) (TI c) (RA c).
Definition set_SI (v : Z) (c : CPUState) : CPUState :=
  mkCPU (IR c) (IC c) (R c) (C c) v (PI c) (TI c) (RA c).
Definition set_PI (v : Z) (c : CPUState) : CPUState :=
  mkCPU (IR c) (IC c) (R c) (C c) (SI c) v (TI c) (RA c).
Definition set_TI (v : Z) (c : CPUState) : CPUState :=
  mkCPU (IR c) (IC c) (R c) (C c) (SI c) (PI c) v (RA c).
Definition set_RA (v : Z) (c : CPUState) : CPUState :=
  mkCPU (IR c) (IC c) (R c) (C c) (SI c) (PI c) (TI c) v.

(* memset(&cpu, 0, sizeof(CPUState)) *)
Definition cpu_zero : CPUState := mkCPU word0 0 word0 false 0 0 0 0.

Definition set_data (v : list Word) (m : Memory) : Memory :=
  mkMemory v (allocated m) (locked_frames m).
Definition set_allocated (v : list bool) (m : Memory) : Memory :=
  mkMemory (data m) v (locked_frames m).
Definition set_locked_frames (v : list bool) (m : Memory) : Memory :=
  mkMemory (data m) (allocated m) v.

Definition set_state (v : ProcessState) (c : ProcessContext) : ProcessContext :=
  mkContext (registers c) (programCounter c) (stackPointer c) (statusRegister c) v.

(* memset(&context, 0, sizeof(ProcessContext)) *)
Definition context_zero : ProcessContext :=
  mkContext (replicate 8 0) 0 0 0 READY.

Definition set_TTC (v : Z) (p : PCB) : PCB :=
  mkPCB (pid p) (TTL p) (TLL p) v (LLC p) (pageTable p) (PTR p) (dataCards p)
        (terminated p) (context p).
Definition set_LLC (v : Z) (p : PCB) : PCB :=
  mkPCB (pid p) (TTL p) (TLL p) (TTC p) v (pageTable p) (PTR p) (dataCards p)
        (terminated p) (context p).
Definition set_pageTable (v : list PageTableEntry) (p : PCB) : PCB :=
  mkPCB (pid p) (TTL p) (TLL p) (TTC p) (LLC p) v (PTR p) (dataCards p)
        (terminated p) (context p).
Definition set_PTR (v : Z) (p : PCB) : PCB :=
  mkPCB (pid p) (TTL p) (TLL p) (TTC p) (LLC p) (pageTable p) v (dataCards p)
        (terminated p) (context p).
Definition set_dataCards (v : list string) (p : PCB) : PCB :=
  mkPCB (pid p) (TTL p) (TLL p) (TTC p) (LLC p) (pageTable p) (PTR p) v
        (terminated p) (context p).
Definition set_terminated (v : bool) (p : PCB) : PCB :=
  mkPCB (pid p) (TTL p) (TLL p) (TTC p) (LLC p) (pageTable p) (PTR p) (dataCards p)
        v (context p).
Definition set_context (v : ProcessContext) (p : PCB) : PCB :=
  mkPCB (pid p) (TTL p) (TLL p) (TTC p) (LLC p) (pageTable p) (PTR p) (dataCards p)
        (terminated p) v.
Definition set_pcb_state (v : ProcessState) (p : PCB) : PCB :=
  set_context (set_state v (context p)) p.

Definition set_mem (v : Memory) (s : MOS) : MOS :=
  mkMOS v (readyQueue s) (currentPCB s) (cpu s) (outFile s) (globalTimer s)
        (systemRunning s) (console s).
Definition set_readyQueue (v : list PCB) (s : MOS) : MOS :=
  mkMOS (mem s) v (currentPCB s) (cpu s) (outFile s) (globalTimer s)
        (systemRunning s) (console s).
Definition set_currentPCB (v : option PCB) (s : MOS) : MOS :=
  mkMOS (mem s) (readyQueue s) v (cpu s) (outFile s) (globalTimer s)
        (systemRunning s) (console s).
Definition set_cpu (v : CPUState) (s : MOS) : MOS :=
  mkMOS (mem s) (readyQueue s) (currentPCB s) v (outFile s) (globalTimer s)
        (systemRunning s) (console s).
Definition set_outFile (v : list OutItem) (s : MOS) : MOS :=
  mkMOS (mem s) (readyQueue s) (currentPCB s) (cpu s) v (globalTimer s)
        (systemRunning s) (console s).
Definition set_globalTimer (v : Z) (s : MOS) : MOS :=
  mkMOS (mem s) (readyQueue s) (currentPCB s) (cpu s) (outFile s) v
        (systemRunning s) (console s).
Definition set_systemRunning (v : bool) (s : MOS) : MOS :=
  mkMOS (mem s) (readyQueue s) (currentPCB s) (cpu s) (outFile s) (globalTimer s)
        v (console s).
Definition set_console (v : list Event) (s : MOS) : MOS :=
  mkMOS (mem s) (readyQueue s) (currentPCB s) (cpu s) (outFile s) (globalTimer s)
        (systemRunning s) v.

(** ** The monad of the member functions

    A member function of [MOS] is a state transformer that may end in
    undefined behaviour ([Fault]: a null [currentPCB] dereferenced, an
    array indexed out of bounds) or, for the two loops, exhaust the fuel
    given to the model ([OutOfFuel]).  Both keep the state they were
    reached in. *)

Inductive Res (A : Type) :=
| Ret (a : A) (s : MOS)
| Fault (s : MOS)
| OutOfFuel (s : MOS).
Arguments Ret {A} a s.
Arguments Fault {A} s.
Arguments OutOfFuel {A} s.

Definition M (A : Type) : Type := MOS -> Res A.

Definition ret {A} (a : A) : M A := fun s => Ret a s.

Definition bind {A B} (m : M A) (k : A -> M B) : M B :=
  fun s =>
    match m s with
    | Ret a s' => k a s'
    | Fault s' => Fault s'
    | OutOfFuel s' => OutOfFuel s'
    end.

Notation "'let*' x ':=' m 'in' k" := (bind m (fun x => k))
  (at level 10, x pattern, m at level 100, k at level 200).
Notation "m ';;' k" := (bind m (fun _ => k))
  (at level 100, k at level 200, right associativity).

Definition get : M MOS := fun s => Ret s s.
Definition modify (f : MOS -> MOS) : M unit := fun s => Ret tt (f s).
Definition fault {A} : M A := fun s => Fault s.
Definition out_of_fuel {A} : M A := fun s => OutOfFuel s.

(** The state a computation ended in, whatever the outcome. *)
Definition final {A} (r : Res A) : MOS :=
  match r with Ret _ s | Fault s | OutOfFuel s => s end.

Definition modify_cpu (f : CPUState -> CPUState) : M unit :=
  modify (fun s => set_cpu (f (cpu s)) s).
Definition modify_mem (f : Memory -> Memory) : M unit :=
  modify (fun s => set_mem (f (mem s)) s).

(** [*currentPCB]: undefined when the pointer is null. *)
Definition deref : M PCB :=
  fun s => match currentPCB s with Some p => Ret p s | None => Fault s end.

(** An assignment through [currentPCB->]. *)
Definition modify_current (f : PCB -> PCB) : M unit :=
  fun s =>
    match currentPCB s with
    | Some p => Ret tt (set_currentPCB (Some (f p)) s)
    | None => Fault s
    end.

Definition debugPrint (e : Event) : M unit :=
  modify (fun s => set_console (e :: console s) s).

Definition emit (o : OutItem) : M unit :=
  modify (fun s => set_outFile (outFile s ++ [o]) s).

(** ** Memory *)

Fixpoint clear_words (base n : nat) (d : list Word) : list Word :=
  match n with
  | O => d
  | S k => clear_words (S base) k (<[base := word0]> d)
  end.

(* Memory::clearFrame: fill_n(data[frame*PAGE_SIZE], PAGE_SIZE*WORD_SIZE, '\0') *)
Definition clearFrame (f : Z) (m : Memory) : Memory :=
  set_data (clear_words (Z.to_nat (f * PAGE_SIZE)) (Z.to_nat PAGE_SIZE) (data m)) m.

Definition lockFrame (f : Z) (m : Memory) : Memory :=
  set_locked_frames (<[Z.to_nat f := true]> (locked_frames m)) m.

Definition unlockFrame (f : Z) (m : Memory) : Memory :=
  set_locked_frames (<[Z.to_nat f := false]> (locked_frames m)) m.

Definition read_word (m : Memory) (a : Z) : Word := data m !!! Z.to_nat a.

Definition write_word (a : Z) (w : Word) (m : Memory) : Memory :=
  set_data (<[Z.to_nat a := w]> (data m)) m.

(** ** Address translation *)

(** [bool addressMap(int VA, int& RA)]: the result and the value the
    reference argument holds afterwards ([RA0] before the call). *)
Definition addressMap (VA RA0 : Z) : M (bool * Z) :=
  (* Step 1: validate the virtual address range *)
  if (VA <? 0) || (VA >=? MEM_SIZE) then
    modify_cpu (set_PI PI_OPERAND_ERR) ;; ret (false, RA0)
  else
    (* Step 2: page and offset *)
    let page := Z.quot VA PAGE_SIZE in
    let offset := Z.rem VA PAGE_SIZE in
    (* Step 3: validate the page number *)
    if page >=? FRAME_COUNT then
      modify_cpu (set_PI PI_PAGE_FAULT) ;; ret (false, RA0)
    else
      (* Step 4: the page table entry *)
      let* p := deref in
      let e := pageTable p !!! Z.to_nat page in
      if negb (valid e) then
        modify_cpu (set_PI PI_PAGE_FAULT) ;; ret (false, RA0)
      else
        let fr := frame e in
        (* Step 5: validate the frame number *)
        if (fr <? 0) || (fr >=? FRAME_COUNT) then
          modify_cpu (set_PI PI_PAGE_FAULT) ;; ret (false, RA0)
        else
          (* Step 6: the real address *)
          let ra := fr * PAGE_SIZE + offset in
          if (ra <? 0) || (ra >=? MEM_SIZE) then
            modify_cpu (set_PI PI_OPERAND_ERR) ;; ret (false, ra)
          else ret (true, ra).

(** ** I/O handlers *)

(** The loop of [handleRead] from chunk [k] on. *)
Fixpoint handleRead_chunks (k : Z) (cs : list string) : M unit :=
  match cs with
  | [] => ret tt
  | word :: rest =>
      let* s := get in
      let targetVA := RA (cpu s) + k in
      let* r := addressMap targetVA 0 in
      if negb (fst r) then ret tt
      else
        modify_mem (write_word (snd r) (word_of_string word)) ;;
        handleRead_chunks (k + 1) rest
  end.

Definition handleRead : M unit :=
  let* p := deref in
  match dataCards p with
  | [] => modify_cpu (set_SI TERM)
  | card :: rest =>
      modify_current (set_dataCards rest) ;;
      handleRead_chunks 0 (chunks card)
  end.

Definition handleWrite : M unit :=
  let* p := deref in
  modify_current (set_LLC (LLC p + 1)) ;;
  if LLC p + 1 >? TLL p then modify_cpu (set_SI TERM)
  else
    let* s := get in
    let* r := addressMap (RA (cpu s)) 0 in
    if negb (fst r) then ret tt
    else
      let* s := get in
      emit (OutLine (nonnul_string (read_word (mem s) (snd r)))).

(** ** Termination *)

Definition reason_text (code : EM_Code) : string :=
  match code with
  | EM_NO_ERR => "Normal termination"
  | EM_OUT_OF_DATA => "Out of data"
  | EM_LINE_LIMIT => "Line limit exceeded"
  | EM_TIME_LIMIT => "Time limit exceeded"
  | EM_OP_CODE_ERR => "Invalid operation code"
  | EM_OPERAND_ERR => "Invalid operand"
  | EM_INVALID_PAGE => "Invalid page access"
  end.

(** The text of an output item, as the stream operators write it. *)
Definition render (o : OutItem) : string :=
  let nl := String NEWLINE EmptyString in
  match o with
  | OutLine s => append s nl
  | OutTerminated p code ttc llc =>
      append nl (append nl (append "Process " (append (to_string p)
        (append " terminated: " (append (reason_text code)
        (append nl (append "TTC: " (append (to_string ttc)
        (append ", LLC: " (append (to_string llc) nl))))))))))
  end.

(* allocated[f] = false; clearFrame(f); unlockFrame(f) *)
Definition releaseFrame (f : Z) (m : Memory) : Memory :=
  unlockFrame f (clearFrame f (set_allocated (<[Z.to_nat f := false]> (allocated m)) m)).

Definition frame_in_range (f : Z) : bool := (0 <=? f) && (f <? FRAME_COUNT).

(** Step 2a of [terminate], first half: the page-table frame.  The
    source indexes [allocated] with [PTR / PAGE_SIZE] unchecked; an index
    outside the array is undefined behaviour ([None]). *)
Definition release_table_frame (p : PCB) (m : Memory) : option Memory :=
  if PTR p =? -1 then Some m
  else
    let pageTableFrame := Z.quot (PTR p) PAGE_SIZE in
    if frame_in_range pageTableFrame then Some (releaseFrame pageTableFrame m)
    else None.

(** Step 2a, second half: the loop over the page table. *)
Fixpoint release_pages (pt : list PageTableEntry) (m : Memory)
  : list PageTableEntry * Memory :=
  match pt with
  | [] => ([], m)
  | e :: rest =>
      if valid e then
        let m1 := if frame_in_range (frame e) then releaseFrame (frame e) m else m in
        let '(rest', m2) := release_pages rest m1 in
        (mkPTE (frame e) false :: rest', m2)
      else
        let '(rest', m2) := release_pages rest m in
        (e :: rest', m2)
  end.

(** Steps 2a, 2c and 3 on the PCB and the memory: the PCB as it is when
    it has entered TERMINATED, just before it is unlinked and deleted. *)
Definition retire (p : PCB) (m : Memory) : option (PCB * Memory) :=
  match release_table_frame p m with
  | None => None
  | Some m1 =>
      let '(pt, m2) := release_pages (pageTable p) m1 in
      Some (set_pcb_state TERMINATED
              (set_terminated true (set_dataCards [] (set_pageTable pt p))), m2)
  end.

Definition clear_flags (c : CPUState) : CPUState :=
  set_PI 0 (set_SI 0 (set_TI 0 c)).

Definition terminate (code : EM_Code) : M unit :=
  fun s =>
    match currentPCB s with
    | None => Ret tt s
    | Some p =>
        (* 1. the termination block *)
        let s := set_outFile (outFile s ++ [OutTerminated (pid p) code (TTC p) (LLC p)]) s in
        (* 2a. release the frames *)
        match retire p (mem s) with
        | None => Fault s
        | Some (_, m) =>
            let s := set_mem m s in
            (* 2b. clear the CPU if the process was running *)
            let s := if ProcessState_eqb (state (context p)) RUNNING
                     then set_cpu cpu_zero s else s in
            (* 4, 5. unlink the PCB; schedule the next process or shut down *)
            let s :=
              match readyQueue s with
              | next :: rest =>
                  set_cpu (set_IC 0 (cpu s))
                    (set_readyQueue rest
                       (set_currentPCB (Some (set_pcb_state RUNNING next)) s))
              | [] => set_systemRunning false (set_currentPCB None s)
              end in
            (* 7. reset the interrupt flags *)
            Ret tt (set_cpu (clear_flags (cpu s)) s)
        end
    end.

(** ** Interrupt handlers and the vector table *)

Definition handleTimerInterrupt : M unit := terminate EM_TIME_LIMIT.
Definition handleOpCodeError : M unit := terminate EM_OP_CODE_ERR.
Definition handleOperandError : M unit := terminate EM_OPERAND_ERR.
Definition handlePageFault : M unit := terminate EM_INVALID_PAGE.
Definition handleTerminate : M unit := terminate EM_NO_ERR.

(** The member function bound in a vector entry. *)
Inductive Handler :=
| H_TimerInterrupt | H_OpCodeError | H_OperandError | H_PageFault
| H_Read | H_Write | H_Terminate.

Definition call (h : Handler) : M unit :=
  match h with
  | H_TimerInterrupt => handleTimerInterrupt
  | H_OpCodeError => handleOpCodeError
  | H_OperandError => handleOperandError
  | H_PageFault => handlePageFault
  | H_Read => handleRead
  | H_Write => handleWrite
  | H_Terminate => handleTerminate
  end.

(* struct InterruptVectorEntry *)
Record InterruptVectorEntry := mkEntry {
  type : Z;
  priority : Z;
  handler : Handler
}.

(* initInterruptVectorTable *)
Definition interruptVectorTable : list InterruptVectorEntry :=
  [ mkEntry 0 PRIORITY_TIMER H_TimerInterrupt;
    mkEntry PI_OP_ERR PRIORITY_PROGRAM H_OpCodeError;
    mkEntry PI_OPERAND_ERR PRIORITY_PROGRAM H_OperandError;
    mkEntry PI_PAGE_FAULT PRIORITY_PAGE_FAULT H_PageFault;
    mkEntry READ PRIORITY_SYSCALL H_Read;
    mkEntry WRITE PRIORITY_SYSCALL H_Write;
    mkEntry TERM PRIORITY_SYSCALL H_Terminate ].

Definition saveContext : M unit :=
  fun s =>
    match currentPCB s with
    | Some p =>
        Ret tt (set_currentPCB
                  (Some (set_context (mkContext (replicate 8 0) (IC (cpu s)) 0 0 BLOCKED) p)) s)
    | None => Ret tt s
    end.

Definition restoreContext : M unit :=
  fun s =>
    match currentPCB s with
    | Some p =>
        let s := set_currentPCB (Some (set_pcb_state RUNNING p)) s in
        (* first execution: the program counter was never set *)
        if programCounter (context p) =? -1
        then Ret tt (set_cpu (set_IC 0 (cpu s)) s)
        else Ret tt (set_cpu (set_IC (programCounter (context p)) (cpu s)) s)
    | None => Ret tt s
    end.

(** One [for (auto& entry : interruptVectorTable)] loop of
    [handleInterrupt], for the cause value [cause]. *)
Definition scan_table (cause : Z) (best : Z * option InterruptVectorEntry)
  : Z * option InterruptVectorEntry :=
  fold_left
    (fun b entry =>
       if (type entry =? cause) && (priority entry >? fst b)
       then (priority entry, Some entry) else b)
    interruptVectorTable best.

(** The entry [handleInterrupt] selects ([highestPriorityEntry]). *)
Definition select_entry (c : CPUState) : option InterruptVectorEntry :=
  let b := (-1, None) in
  let b := if TI c =? 0 then b
           else match interruptVectorTable with
                | e :: _ => (priority e, Some e)
                | [] => b
                end in
  let b := if PI c =? 0 then b else scan_table (PI c) b in
  let b := if SI c =? 0 then b else scan_table (SI c) b in
  snd b.

(** The clearing step after the handler has returned. *)
Definition clear_serviced (e : InterruptVectorEntry) (c : CPUState) : CPUState :=
  if type e =? 0 then set_TI 0 c
  else if type e =? PI c then set_PI 0 c
  else if type e =? SI c then set_SI 0 c
  else c.

Definition handleInterrupt : M unit :=
  if negb interruptsEnabled then ret tt
  else
    let* s := get in
    match select_entry (cpu s) with
    | None => ret tt
    | Some e =>
        saveContext ;;
        call (handler e) ;;
        modify_cpu (clear_serviced e) ;;
        restoreContext
    end.

(** ** The executor *)

Definition executeArithmeticLogic (op : string) (target : Z) : M unit :=
  let* r := addressMap target 0 in
  if negb (fst r) then ret tt
  else
    let realAddr := snd r in
    if String.eqb op "LR" then
      modify (fun s => set_cpu (set_R (read_word (mem s) realAddr) (cpu s)) s)
    else if String.eqb op "SR" then
      modify (fun s => set_mem (write_word realAddr (R (cpu s)) (mem s)) s)
    else if String.eqb op "CR" then
      modify (fun s => set_cpu (set_C (word_eqb (R (cpu s)) (read_word (mem s) realAddr)) (cpu s)) s)
    else if String.eqb op "BT" then
      let* s := get in
      if C (cpu s) then modify_cpu (set_IC target) else ret tt
    else ret tt.

Definition executeInstruction : M unit :=
  let* s := get in
  debugPrint EvExecuting ;;
  (* the instruction without its trailing spaces and NULs *)
  let instruction := rtrim (string_of_word (IR (cpu s))) in
  if (String.length instruction <? 3)%nat then
    modify_cpu (set_PI PI_OP_ERR) ;;
    terminate EM_OP_CODE_ERR
  else
    let op := remove_spaces (String.substring 0 2 instruction) in
    let operandStr :=
      remove_spaces (String.substring 2 (String.length instruction) instruction) in
    if String.eqb op "GD" then
      match stoi operandStr with
      | None => modify_cpu (set_PI PI_OPERAND_ERR)
      | Some target =>
          (* the mapping of [target] into cpu.RA is commented out *)
          modify_cpu (set_SI READ) ;;
          handleRead ;;
          handleTerminate
      end
    else if String.eqb op "PD" then
      match stoi operandStr with
      | None => modify_cpu (set_PI PI_OPERAND_ERR)
      | Some target =>
          let* s := get in
          let* r := addressMap target (RA (cpu s)) in
          modify_cpu (set_RA (snd r)) ;;   (* the reference argument is cpu.RA *)
          if negb (fst r) then ret tt
          else
            modify_cpu (set_SI WRITE) ;;
            handleWrite
      end
    else if String.eqb op "H" then
      modify_cpu (set_SI TERM) ;;
      handleInterrupt
    else if String.eqb op "LR" || String.eqb op "SR" || String.eqb op "CR"
            || String.eqb op "BT" then
      match stoi operandStr with
      | None => modify_cpu (set_PI PI_OPERAND_ERR)
      | Some target => executeArithmeticLogic op target
      end
    else
      modify_cpu (set_PI PI_OP_ERR) ;;
      terminate EM_OP_CODE_ERR.

(** How an iteration of the loop of [executeJob] ends: at the end of the
    body, or in a [return]. *)
Inductive Flow := Next | Return.

(** The context switch at the end of a time slice. *)
Definition contextSwitch : M unit :=
  debugPrint EvSwitch ;;
  saveContext ;;
  let* p := deref in
  modify (fun s => set_readyQueue (readyQueue s ++ [p]) s) ;;
  (fun s =>
     match readyQueue s with
     | next :: rest => Ret tt (set_readyQueue rest (set_currentPCB (Some next) s))
     | [] => Fault s
     end) ;;
  restoreContext.

(** The check that ends an iteration: [globalTimer % 10 == 0 &&
    !readyQueue.empty()]. *)
Definition timeSliceExpired (s : MOS) : bool :=
  (Z.rem (globalTimer s) 10 =? 0) && negb (bool_decide (readyQueue s = [])).

Definition checkTimeSlice : M unit :=
  let* s := get in
  if timeSliceExpired s then contextSwitch else ret tt.

Definition pending (c : CPUState) : bool :=
  negb (SI c =? 0) || negb (PI c =? 0) || negb (TI c =? 0).

(** !currentPCB || currentPCB->terminated *)
Definition gone (s : MOS) : bool :=
  match currentPCB s with
  | None => true
  | Some p => terminated p
  end.

(** The body of the [while] loop of [executeJob]. *)
Definition executeJob_body : M Flow :=
  let* p := deref in
  if TTC p >=? TTL p then
    terminate EM_TIME_LIMIT ;;
    ret Return
  else
    (* map the instruction counter *)
    let* s := get in
    let* r := addressMap (IC (cpu s)) 0 in
    if negb (fst r) then ret Return
    else
      (* fetch *)
      let* s := get in
      let instruction := nonnul_string (read_word (mem s) (snd r)) in
      if String.eqb instruction EmptyString then ret Return
      else
        modify_cpu (set_IR (word_of_string instruction)) ;;
        modify_cpu (fun c => set_IC (IC c + 1) c) ;;
        executeInstruction ;;
        (* update the timers *)
        let* p := deref in
        modify_current (set_TTC (TTC p + 1)) ;;
        modify (fun s => set_globalTimer (globalTimer s + 1) s) ;;
        (* handle interrupts *)
        let* s := get in
        let* fl :=
          (if pending (cpu s) then
             handleInterrupt ;;
             let* s := get in
             if gone s then ret Return else ret Next
           else ret Next) in
        match fl with
        | Return => ret Return
        | Next =>
            (* context switch if the time slice expired *)
            checkTimeSlice ;;
            ret Next
        end.

Fixpoint executeJob_loop (fuel : nat) : M unit :=
  match fuel with
  | O => out_of_fuel
  | S fuel' =>
      let* p := deref in
      if negb (terminated p) && (TTC p <? TTL p) then
        let* fl := executeJob_body in
        match fl with
        | Next => executeJob_loop fuel'
        | Return => ret tt
        end
      else ret tt
  end.

Definition executeJob (fuel : nat) : M unit :=
  let* s := get in
  if gone s then ret tt
  else
    modify_current (set_pcb_state RUNNING) ;;
    executeJob_loop fuel.

(** The first [if] of the loop of [run]: with no current job, take the
    front of the ready queue and restore its context, or stop the system
    when the queue is empty.  [false] stands for the [break]. *)
Definition selectJob : M bool :=
  fun s =>
    match currentPCB s with
    | Some _ => Ret true s
    | None =>
        match readyQueue s with
        | next :: rest =>
            (restoreContext ;; ret true)
              (set_readyQueue rest (set_currentPCB (Some next) s))
        | [] => Ret false (set_systemRunning false s)
        end
    end.

(** The loop of [run], after the jobs are loaded. *)
Fixpoint run_loop (fuel : nat) : M unit :=
  match fuel with
  | O => out_of_fuel
  | S fuel' =>
      let* s := get in
      if systemRunning s && (globalTimer s <? MAX_TIMER) then
        let* go := selectJob in
        if (go : bool) then
          let* s := get in
          match currentPCB s with
          | Some _ => executeJob fuel' ;; run_loop fuel'
          | None => run_loop fuel'
          end
        else ret tt
      else ret tt
  end.

(** ** The loader *)

(** The values [dist(gen)] returns during one call of [allocateFrame],
    by attempt; the distribution draws from [0, FRAME_COUNT-1]. *)
Definition Draws : Type := nat -> Z.

Definition draws_in_range (dist : Draws) : Prop :=
  forall a, 0 <= dist a < FRAME_COUNT.

Fixpoint allocate_attempts (dist : Draws) (attempt left : nat) (m : Memory)
  : Z * Memory :=
  match left with
  | O => (-1, m)
  | S left' =>
      let fr := dist attempt in
      if negb (allocated m !!! Z.to_nat fr)
      then (fr, set_allocated (<[Z.to_nat fr := true]> (allocated m)) m)
      else allocate_attempts dist (S attempt) left' m
  end.

Definition allocateFrame (dist : Draws) (m : Memory) : Z * Memory :=
  allocate_attempts dist 0 (Z.to_nat (FRAME_COUNT * 2)) m.

(** The randomness of a run: the draws of the [k]-th call of
    [allocateFrame] (each call seeds a generator of its own). *)
Definition Entropy : Type := nat -> Draws.

Definition entropy_in_range (e : Entropy) : Prop :=
  forall k, draws_in_range (e k).

Definition empty_pageTable : list PageTableEntry :=
  replicate (Z.to_nat FRAME_COUNT) (mkPTE (-1) false).

(** The instructions of the program text: its lines without white
    space, the empty ones dropped. *)
Definition instructions_of (code : string) : list string :=
  List.filter (fun i => negb (String.eqb i EmptyString))
              (map remove_spaces (getlines code)).

Definition instructionsPerPage : Z := Z.quot PAGE_SIZE WORD_SIZE.

Definition pagesNeeded (n : Z) : Z :=
  Z.quot (n + instructionsPerPage - 1) instructionsPerPage.

(** The copy of the instructions [j, j+1, ..] ([todo] of them) of page
    [startInstr / instructionsPerPage] into the frame [fr]. *)
Fixpoint copy_instructions (instructions : list string) (fr startInstr j : Z)
    (todo : nat) (d : list Word) : list Word :=
  match todo with
  | O => d
  | S todo' =>
      let instr := instructions !!! Z.to_nat j in
      let offset := j - startInstr in
      let addr := fr * PAGE_SIZE + offset in
      copy_instructions instructions fr startInstr (j + 1) todo'
        (<[Z.to_nat addr := word_of_string instr]> d)
  end.

(** The exceptions that end a load, and with it the run. *)
Inductive LoadError :=
| PageTableAllocationFailed   (* "Memory allocation failed for page table" *)
| ProgramAllocationFailed     (* "Memory allocation failed for program" *)
| BadJobCard.                 (* out_of_range or invalid_argument on a $AMJ card *)

(** The loop over the pages of [loadProgramIntoMemory], from page [i],
    [todo] pages to go; [k] counts the calls of [allocateFrame]. *)
Fixpoint load_pages (e : Entropy) (instructions : list string) (i : Z) (todo : nat)
    (k : nat) (p : PCB) (m : Memory) : option (PCB * Memory * nat) :=
  match todo with
  | O => Some (p, m, k)
  | S todo' =>
      let '(fr, m) := allocateFrame (e k) m in
      if fr =? -1 then None
      else
        let p := set_pageTable (<[Z.to_nat i := mkPTE fr true]> (pageTable p)) p in
        (* clear the frame before use *)
        let m := clearFrame fr m in
        (* copy the instructions of the page *)
        let startInstr := i * instructionsPerPage in
        let endInstr :=
          Z.min (startInstr + instructionsPerPage) (Z.of_nat (length instructions)) in
        let m :=
          set_data (copy_instructions instructions fr startInstr startInstr
                      (Z.to_nat (endInstr - startInstr)) (data m)) m in
        load_pages e instructions (i + 1) todo' (S k) p m
  end.

Definition loadProgramIntoMemory (e : Entropy) (k : nat) (p : PCB) (code : string)
    (m : Memory) : option (PCB * Memory * nat) :=
  let instructions := instructions_of code in
  let n := pagesNeeded (Z.of_nat (length instructions)) in
  let p := set_pageTable empty_pageTable p in
  load_pages e instructions 0 (Z.to_nat (Z.min n FRAME_COUNT)) k p m.

(** The local variables of [loadJobs], with the count of the calls of
    [allocateFrame] so far. *)
Record Loader := mkLoader {
  pcb : option PCB;
  readingData : bool;
  programCode : string;
  rdCalls : nat
}.

(** [stoi(line.substr(pos, 4))] *)
Definition card_field (line : string) (pos : nat) : option Z :=
  match substr line pos 4 with
  | Some f => stoi f
  | None => None
  end.

(** new PCB(), with the fields the $AMJ branch assigns. *)
Definition new_PCB (pid_ ttl tll ptr : Z) : PCB :=
  mkPCB pid_ ttl tll 0 0 empty_pageTable ptr [] false
        (mkContext (replicate 8 0) (-1) 0 0 READY).

(** One iteration of the [while (getline(inFile, line))] loop. *)
Definition load_line (e : Entropy) (line : string) (st : Loader * MOS)
  : LoadError + Loader * MOS :=
  let '(l, s) := st in
  if starts_with "$AMJ" line then
    match card_field line 4, card_field line 8, card_field line 12 with
    | Some pid_, Some ttl, Some tll =>
        (* allocate the frame of the page table *)
        let '(fr, m) := allocateFrame (e (rdCalls l)) (mem s) in
        if fr =? -1 then inl PageTableAllocationFailed
        else
          inr (mkLoader (Some (new_PCB pid_ ttl tll (fr * PAGE_SIZE)))
                        (readingData l) EmptyString (S (rdCalls l)),
               set_mem m s)
    | _, _, _ => inl BadJobCard
    end
  else if starts_with "$DTA" line then
    match pcb l with
    | Some p =>
        if String.eqb (programCode l) EmptyString
        then inr (mkLoader (pcb l) true (programCode l) (rdCalls l), s)
        else
          match loadProgramIntoMemory e (rdCalls l) p (programCode l) (mem s) with
          | None => inl ProgramAllocationFailed
          | Some (p', m, k) =>
              inr (mkLoader (Some p') true (programCode l) k, set_mem m s)
          end
    | None => inr (mkLoader (pcb l) true (programCode l) (rdCalls l), s)
    end
  else if starts_with "$END" line then
    match pcb l with
    | Some p =>
        inr (mkLoader None false (programCode l) (rdCalls l),
             set_readyQueue (readyQueue s ++ [p]) s)
    | None => inr (mkLoader None false (programCode l) (rdCalls l), s)
    end
  else
    match pcb l with
    | Some p =>
        if readingData l then
          inr (mkLoader (Some (set_dataCards (dataCards p ++ [line]) p))
                        (readingData l) (programCode l) (rdCalls l), s)
        else
          inr (mkLoader (pcb l) (readingData l)
                        (append (programCode l) (append line (String NEWLINE EmptyString)))
                        (rdCalls l), s)
    | None => inr st
    end.

Fixpoint load_lines (e : Entropy) (lines : list string) (st : Loader * MOS)
  : LoadError + Loader * MOS :=
  match lines with
  | [] => inr st
  | line :: rest =>
      match load_line e line st with
      | inl err => inl err
      | inr st' => load_lines e rest st'
      end
  end.

(** The state of a [MOS] object after its constructor.  The words of
    [data] and [IR] have no initialiser: their contents are whatever the
    storage held ([junk], [junkIR]). *)
Definition initial_MOS (junk : list Word) (junkIR : Word) : MOS :=
  mkMOS (mkMemory junk (replicate (Z.to_nat FRAME_COUNT) false)
                  (replicate (Z.to_nat FRAME_COUNT) false))
        [] None (mkCPU junkIR 0 word0 false 0 0 0 0) [] 0 true [].

(** [loadJobs] on the lines of the input file. *)
Definition loadJobs (e : Entropy) (lines : list string) (s : MOS) : LoadError + MOS :=
  match load_lines e lines (mkLoader None false EmptyString O, s) with
  | inl err => inl err
  | inr (_, s') => inr s'
  end.

(** [run]: load the jobs, then execute them. *)
Definition run (e : Entropy) (lines : list string) (fuel : nat) (s : MOS)
  : LoadError + Res unit :=
  match loadJobs e lines s with
  | inl err => inl err
  | inr s' => inr (run_loop fuel s')
  end.

(** ** Vocabulary of the properties *)

(** The array bounds the C++ types give. *)
Definition mem_wf (m : Memory) : Prop :=
  length (data m) = Z.to_nat MEM_SIZE /\
  length (allocated m) = Z.to_nat FRAME_COUNT /\
  length (locked_frames m) = Z.to_nat FRAME_COUNT.

(** A PCB as the loader builds it: [PTR] is the first word of a frame,
    and the frames of the valid pages are frames of the memory. *)
Definition pcb_wf (p : PCB) : Prop :=
  length (pageTable p) = Z.to_nat FRAME_COUNT /\
  (exists f, 0 <= f < FRAME_COUNT /\ PTR p = f * PAGE_SIZE) /\
  (forall i e, pageTable p !! i = Some e -> valid e = true -> 0 <= frame e < FRAME_COUNT).

Definition state_wf (s : MOS) : Prop :=
  mem_wf (mem s) /\
  (forall p, currentPCB s = Some p -> pcb_wf p) /\
  Forall pcb_wf (readyQueue s).

(** A relation between the state before and the state a computation
    ends in, whatever the outcome. *)
Definition stays {A} (Rel : MOS -> MOS -> Prop) (m : M A) : Prop :=
  forall s, Rel s (final (m s)).

(** [P] is kept by the computation. *)
Definition keeps (P : MOS -> Prop) : MOS -> MOS -> Prop :=
  fun s s' => P s -> P s'.

(** ** Sample states and inputs *)

(** A memory whose words were never written: every character is ['x']. *)
Definition junk_data : list Word :=
  replicate (Z.to_nat MEM_SIZE) ("x"%char, "x"%char, "x"%char, "x"%char).

Definition fresh_MOS : MOS := initial_MOS junk_data word0.

(** A job whose page table maps page 0 to frame 4 and page 9 to frame 2;
    its page table is in frame 3. *)
Definition sample_pageTable : list PageTableEntry :=
  <[9%nat := mkPTE 2 true]> (<[0%nat := mkPTE 4 true]> empty_pageTable).

Definition sample_PCB : PCB :=
  set_pcb_state RUNNING (set_pageTable sample_pageTable (new_PCB 7 50 10 30)).

Definition sample_memory : Memory :=
  mkMemory junk_data
    [false; false; true; true; true; false; false; false; false; false]
    (replicate (Z.to_nat FRAME_COUNT) false).

Definition sample_MOS : MOS :=
  set_currentPCB (Some sample_PCB) (set_mem sample_memory fresh_MOS).


(** Two random sources: the first lets every call of [allocateFrame]
    draw a frame of its own, the second draws frame 3 every time. *)
Definition entropy_spread : Entropy := fun k _ => Z.of_nat ((3 + k) mod 10).
Definition entropy_stuck : Entropy := fun _ _ => 3.

(** A job of one instruction. *)
Definition job_one_instruction : list string :=
  ["$AMJ000100100010"; "CR02"; "$DTA"; "$END"]%string.


(** The number of allocated frames. *)
Fixpoint count_true (l : list bool) : nat :=
  match l with
  | [] => O
  | b :: r => if b then S (count_true r) else count_true r
  end.

(** Page [i] as [loadProgramIntoMemory] leaves it: a valid entry with an
    allocated frame that holds the instructions [2i] and [2i+1] (those
    the program has) in its words 0 and 1, and NULs elsewhere. *)
Definition page_loaded (instructions : list string) (p : PCB) (m : Memory) (i : Z)
  : Prop :=
  let e := pageTable p !!! Z.to_nat i in
  valid e = true /\
  0 <= frame e < FRAME_COUNT /\
  allocated m !!! Z.to_nat (frame e) = true /\
  forall o, 0 <= o < PAGE_SIZE ->
    read_word m (frame e * PAGE_SIZE + o) =
    if (o <? 2) && (2 * i + o <? Z.of_nat (length instructions))
    then word_of_string (instructions !!! Z.to_nat (2 * i + o))
    else word0.


(** The loop invariant of [loadProgramIntoMemory] before page [i]: the
    pages below [i] are loaded into pairwise distinct frames, the entries
    from [i] on are still invalid. *)
Definition pages_inv (instructions : list string) (p : PCB) (m : Memory) (i : Z)
  : Prop :=
  mem_wf m /\
  length (pageTable p) = Z.to_nat FRAME_COUNT /\
  (forall i', 0 <= i' < i -> page_loaded instructions p m i') /\
  (forall i', i <= i' < FRAME_COUNT ->
     pageTable p !!! Z.to_nat i' = mkPTE (-1) false) /\
  (forall i1 i2, 0 <= i1 < i -> 0 <= i2 < i ->
     frame (pageTable p !!! Z.to_nat i1) = frame (pageTable p !!! Z.to_nat i2) ->
     i1 = i2).


(** The text [loadJobs] accumulates for a list of program lines. *)
Definition program_text (lines : list string) : string :=
  fold_right (fun l acc => append l (String NEWLINE acc)) EmptyString lines.

Definition sample_code : string := program_text ["CR02"; "BT00"; "LR00"]%string.


(** Frame [f] is released: not allocated, not locked, its words zero. *)
Definition frame_free (m : Memory) (f : Z) : Prop :=
  allocated m !!! Z.to_nat f = false /\
  locked_frames m !!! Z.to_nat f = false /\
  forall o, 0 <= o < PAGE_SIZE -> read_word m (f * PAGE_SIZE + o) = word0.


(** Every PCB of the system is alive, and inside [executeJob] a null
    [currentPCB] means that the ready queue is empty as well. *)
Definition live (s : MOS) : Prop :=
  (forall p, currentPCB s = Some p -> terminated p = false) /\
  Forall (fun p => terminated p = false) (readyQueue s).

Definition inJob (s : MOS) : Prop :=
  live s /\ (currentPCB s = None -> readyQueue s = []).

(** The console, the clock and the emptiness of the ready queue are as
    they were. *)
Definition quiet (s s' : MOS) : Prop :=
  console s' = console s /\
  globalTimer s' = globalTimer s /\
  (readyQueue s = [] -> readyQueue s' = []).

Definition calm (s s' : MOS) : Prop :=
  quiet s s' /\ (inJob s -> inJob s').


(** What [saveContext] stores in the current PCB. *)
Definition saved_context (s : MOS) (p : PCB) : PCB :=
  set_context (mkContext (replicate 8 0) (IC (cpu s)) 0 0 BLOCKED) p.

(** The instruction counter [restoreContext] sets for [p]. *)
Definition restored_IC (p : PCB) : Z :=
  if programCounter (context p) =? -1 then 0 else programCounter (context p).


(** The invariant of the loop of [loadJobs]: nothing has run yet, the
    queued PCBs and the PCB under construction are well formed and
    alive, and the page-table frame of the latter is allocated. *)
Definition loader_inv (l : Loader) (s : MOS) : Prop :=
  state_wf s /\ live s /\
  currentPCB s = None /\ console s = [] /\ globalTimer s = 0 /\
  systemRunning s = true /\ outFile s = [] /\
  forall p, pcb l = Some p ->
    pcb_wf p /\ terminated p = false /\
    allocated (mem s) !!! Z.to_nat (PTR p / PAGE_SIZE) = true.


(** ** Traces *)

(** Between two successive [EvSwitch] events of a trace there are
    exactly ten [EvExecuting] events (the definition reads the same on
    a trace and on its reverse). *)
Definition quantum_regular (trace : list Event) : Prop :=
  forall pre mid post,
    trace = pre ++ EvSwitch :: mid ++ EvSwitch :: post ->
    Forall (fun ev => ev = EvExecuting) mid ->
    length mid = 10%nat.

(** On a console (most recent event first): the number of instructions
    since the last switch, and whether there was a switch at all. *)
Fixpoint since_switch (l : list Event) : nat :=
  match l with
  | EvExecuting :: r => S (since_switch r)
  | _ => O
  end.

Fixpoint switched (l : list Event) : bool :=
  match l with
  | [] => false
  | EvSwitch :: _ => true
  | EvExecuting :: r => switched r
  end.

(** The clock against the trace: once a switch has happened and while
    the ready queue is not empty, the clock less [d] is a multiple of the
    quantum away from the count in [c]. *)
Definition in_phase (d : Z) (c : list Event) (s : MOS) : Prop :=
  readyQueue s <> [] -> switched c = true ->
  (since_switch c < 10)%nat /\
  (globalTimer s - d - Z.of_nat (since_switch c)) mod 10 = 0.

(** The invariant at the head of the loop of [executeJob]. *)
Definition sched_inv (s : MOS) : Prop :=
  quantum_regular (console s) /\ inJob s /\ in_phase 0 (console s) s.

(** The invariant inside an iteration, after the trace message of
    [executeInstruction]: before ([d = 0]) and after ([d = 1]) the clock
    has ticked. *)
Definition mid_inv (d : Z) (s : MOS) : Prop :=
  quantum_regular (console s) /\ inJob s /\
  exists c, console s = EvExecuting :: c /\ in_phase d c s.

(** The invariant of the loop of [run]. *)
Definition run_inv (s : MOS) : Prop :=
  quantum_regular (console s) /\ live s /\ in_phase 0 (console s) s.

(** A postcondition [Q] on a normal return, and [E] on the state the
    computation stops in at a fault or out of fuel. *)
Definition post {A} (Q : A -> MOS -> Prop) (E : MOS -> Prop) (r : Res A) : Prop :=
  match r with
  | Ret a s => Q a s
  | Fault s | OutOfFuel s => E s
  end.

(** The same, where the trace so far must be regular when the
    computation stops. *)
Definition outcome {A} (Q : A -> MOS -> Prop) (r : Res A) : Prop :=
  post Q (fun s => quantum_regular (console s)) r.

(** The console and the clock relative to the state [s0] an iteration
    of [executeJob] started in: [ev] are the events since, [d] the
    ticks. *)
Definition since_start (s0 : MOS) (ev : list Event) (d : Z) (s : MOS) : Prop :=
  console s = ev ++ console s0 /\ globalTimer s = globalTimer s0 + d.


(** Two jobs that loop over their first two instructions ([CR02] sets
    C, since R and word 2 of page 0 are both NUL; [BT00] jumps back). *)
Definition two_looping_jobs : list string :=
  ["$AMJ000100250010"; "CR02"; "BT00"; "$DTA"; "$END";
   "$AMJ000200500010"; "CR02"; "BT00"; "$DTA"; "$END"]%string.

Definition count_switches (l : list Event) : nat :=
  length (List.filter (fun ev => match ev with EvSwitch => true | _ => false end) l).


(** The vector entries whose handlers terminate the job with an error
    code: the timer entry and the three program-interrupt entries. *)
Definition error_entries : list InterruptVectorEntry :=
  [ mkEntry 0 PRIORITY_TIMER H_TimerInterrupt;
    mkEntry PI_OP_ERR PRIORITY_PROGRAM H_OpCodeError;
    mkEntry PI_OPERAND_ERR PRIORITY_PROGRAM H_OperandError;
    mkEntry PI_PAGE_FAULT PRIORITY_PAGE_FAULT H_PageFault ].


(** A job whose only instruction is [PD00], a line limit of 10. *)
Definition job_PD : list string :=
  ["$AMJ000100100010"; "PD00"; "$DTA"; "$END"]%string.

(** The state [loadJobs] leaves for a batch under [entropy_spread]. *)
Definition loaded (lines : list string) : MOS :=
  match loadJobs entropy_spread lines fresh_MOS with
  | inr s => s
  | inl _ => fresh_MOS
  end.

(** The state of the first iteration of [executeJob] on a loaded batch,
    after the fetch of the first instruction [instr] and [IC++]. *)
Definition first_fetched (lines : list string) (instr : string) : MOS :=
  let s := final ((selectJob ;; modify_current (set_pcb_state RUNNING)) (loaded lines)) in
  set_cpu (set_IC 1 (set_IR (word_of_string instr) (cpu s))) s.

(** [job_PD] after [executeInstruction]: the second translation in
    [handleWrite] has failed, so PI = PAGE_FAULT and SI = WRITE are both
    pending when the dispatcher is called. *)
Definition job_PD_executed : MOS := final (executeInstruction (first_fetched job_PD "PD00")).

(** C5 as stated, for the dispatch of entry [e] from [s] to [s']: the
    cause field of the handler invoked is 0, the other two fields are as
    they were. *)
Definition only_serviced_cleared (e : InterruptVectorEntry) (s s' : MOS) : Prop :=
  match handler e with
  | H_TimerInterrupt =>
      TI (cpu s') = 0 /\ PI (cpu s') = PI (cpu s) /\ SI (cpu s') = SI (cpu s)
  | H_OpCodeError | H_OperandError | H_PageFault =>
      PI (cpu s') = 0 /\ TI (cpu s') = TI (cpu s) /\ SI (cpu s') = SI (cpu s)
  | H_Read | H_Write | H_Terminate =>
      SI (cpu s') = 0 /\ TI (cpu s') = TI (cpu s) /\ PI (cpu s') = PI (cpu s)
  end.


(** A job with no instruction between its $AMJ and $DTA cards. *)
Definition job_no_instructions : list string :=
  ["$AMJ000400500010"; "$DTA"; "$END"]%string.

(** C8 as stated, for the loaded batch [s]: the first fetch reads a word
    and the word is empty; the run loop comes to an end and nothing was
    written to the output. *)
Definition first_fetch_empty (s : MOS) : Prop :=
  exists ra s1, addressMap (IC (cpu s)) 0 s = Ret (true, ra) s1 /\
                nonnul_string (read_word (mem s1) ra) = EmptyString.

Definition halts_cleanly (s : MOS) : Prop :=
  exists fuel s', run_loop fuel s = Ret tt s' /\ outFile s' = [].

(** A job with a time limit of one instruction. *)
Definition job_TTL_one : list string :=
  ["$AMJ000300010010"; "LR00"; "LR00"; "$DTA"; "$END"]%string.

(** Scenario 1 of the specification: read a card, print it, halt. *)
Definition job_echo : list string :=
  ["$AMJ000100100010"; "GD10"; "PD10"; "H"; "$DTA"; "HELLO"; "$END"]%string.

(** A job with a line limit of zero that prints first. *)
Definition job_TLL_zero : list string :=
  ["$AMJ000200500000"; "PD00"; "H"; "$DTA"; "ABCD"; "$END"]%string.


(** ** Further properties: the dispatcher *)

(** The handler the dispatcher invokes, in closed form. *)
Definition dispatch_table (c : CPUState) : option Handler :=
  if negb (TI c =? 0) then Some H_TimerInterrupt
  else if (PI c =? 3) || (SI c =? 3) then Some H_PageFault
  else if PI c =? 1 then Some H_OpCodeError
  else if PI c =? 2 then Some H_OperandError
  else if SI c =? 1 then Some H_OpCodeError
  else if SI c =? 2 then Some H_OperandError
  else None.


(** ** Further vocabulary: the decoding of an instruction *)

(** The operation code [executeInstruction] reads from an instruction
    word: the first two characters of the word without its trailing
    spaces and NULs, white space removed; [None] when fewer than three
    characters are left. *)
Definition decoded_op (w : Word) : option string :=
  let instruction := rtrim (string_of_word w) in
  if (String.length instruction <? 3)%nat then None
  else Some (remove_spaces (String.substring 0 2 instruction)).

(** The operand text of an instruction word of three characters or more. *)
Definition decoded_operand (w : Word) : string :=
  let instruction := rtrim (string_of_word w) in
  remove_spaces (String.substring 2 (String.length instruction) instruction).

(** The operation codes [executeInstruction] has a branch for. *)
Definition known_op (op : string) : bool :=
  String.eqb op "GD" || String.eqb op "PD" || String.eqb op "H" ||
  String.eqb op "LR" || String.eqb op "SR" || String.eqb op "CR" ||
  String.eqb op "BT".

(** The state after the trace message of [executeInstruction]. *)
Definition traced (s : MOS) : MOS := set_console (EvExecuting :: console s) s.


(** ** Further vocabulary: the scheduler *)

(** A PCB with the context [saveContext] stores when the instruction
    counter is [ic]. *)
Definition parked (ic : Z) (p : PCB) : PCB :=
  set_context (mkContext (replicate 8 0) ic 0 0 BLOCKED) p.

(** A PCB that went through the ready queue without executing: parked
    with the instruction counter it was given when it was current. *)
Definition passed (p : PCB) : PCB := parked (restored_IC p) p.

(** [n] context switches in a row. *)
Fixpoint switches (n : nat) : M unit :=
  match n with
  | O => ret tt
  | S k => contextSwitch ;; switches k
  end.


(** ** Further vocabulary: the deck *)

(** The job cards of a deck. *)
Definition job_cards (lines : list string) : list string :=
  List.filter (starts_with "$AMJ") lines.

(** The jobs the loader holds: those queued and the one under
    construction. *)
Definition jobs_held (l : Loader) (s : MOS) : nat :=
  (length (readyQueue s) + match pcb l with Some _ => 1 | None => 0 end)%nat.


(** A line that is none of the three control cards. *)
Definition plain (line : string) : bool :=
  negb (starts_with "$AMJ" line) && negb (starts_with "$DTA" line) &&
  negb (starts_with "$END" line).


(** ** Further vocabulary: a whole run *)

(** What the executor may change in the current PCB outside
    [handleWrite] and [terminate]: the data cards, the context, and the
    time counter, which only grows. *)
Definition pcb_step (p p' : PCB) : Prop :=
  pid p' = pid p /\ TTL p' = TTL p /\ TLL p' = TLL p /\ LLC p' = LLC p /\
  TTC p <= TTC p' /\
  pageTable p' = pageTable p /\ PTR p' = PTR p /\ terminated p' = terminated p.

(** The termination blocks of an output. *)
Definition blocks (out : list OutItem) : nat :=
  length (List.filter (fun o => match o with OutTerminated _ _ _ _ => true | _ => false end)
                      out).

(** The data lines of an output. *)
Definition lines_written (out : list OutItem) : Z :=
  Z.of_nat (length (List.filter (fun o => match o with OutLine _ => true | _ => false end)
                                out)).

(** The jobs in the system: the current one and those in the ready queue. *)
Definition jobs_in_system (s : MOS) : list PCB :=
  match currentPCB s with Some p => [p] | None => [] end ++ readyQueue s.

(** The reasons the handlers that can be reached pass to [terminate]. *)
Definition reachable_reason (code : EM_Code) : bool :=
  match code with
  | EM_NO_ERR | EM_OP_CODE_ERR | EM_OPERAND_ERR | EM_INVALID_PAGE => true
  | EM_OUT_OF_DATA | EM_LINE_LIMIT | EM_TIME_LIMIT => false
  end.

Definition reasons_reachable (out : list OutItem) : Prop :=
  Forall (fun o => match o with
                   | OutTerminated _ code _ _ => reachable_reason code = true
                   | OutLine _ => True
                   end) out.

(** No timer cause is pending and every reason written so far is one of
    the four. *)
Definition untimed (s : MOS) : Prop :=
  TI (cpu s) = 0 /\ reasons_reachable (outFile s).

(** The lines the limit of a job still allows, and their sum over the
    jobs in the system. *)
Definition lines_left (p : PCB) : Z := Z.max 0 (TLL p - LLC p).

Definition line_budget (s : MOS) : Z :=
  fold_right (fun p acc => lines_left p + acc) 0 (jobs_in_system s).

(** Jobs are neither lost nor made: every termination block stands for
    one job that left the system. *)
Definition jobs_conserved (s s' : MOS) : Prop :=
  state_wf s ->
  state_wf s' /\
  (blocks (outFile s') + length (jobs_in_system s') =
   blocks (outFile s) + length (jobs_in_system s))%nat.

(** The lines written and the lines still allowed never add up to more
    than before. *)
Definition within_budget (s s' : MOS) : Prop :=
  lines_written (outFile s') + line_budget s' <=
  lines_written (outFile s) + line_budget s.




(** Two jobs whose only instruction is the halt instruction. *)
Definition two_halting_jobs : list string :=
  ["$AMJ000100100010"; "H"; "$DTA"; "$END";
   "$AMJ000200100010"; "H"; "$DTA"; "$END"]%string.

(** The state in which [run] calls [executeJob] for the first time. *)
Definition first_turn (lines : list string) : MOS := final (selectJob (loaded lines)).


(** ** Further vocabulary: the frames of a job *)

(** Frame [f] belongs to the job: it holds its page table, or a valid
    entry of the page table names it. *)
Definition owns (p : PCB) (f : Z) : Prop :=
  f = Z.quot (PTR p) PAGE_SIZE \/
  exists i e, pageTable p !! i = Some e /\ valid e = true /\ frame e = f.




(** ** Further vocabulary: the frames a run has allocated *)


(** No frame is allocated for a job that is gone: every allocated frame
    of the memory belongs to a job of the system, the current one or a
    queued one. *)
Definition accounted (s : MOS) : Prop :=
  forall f, 0 <= f < FRAME_COUNT -> allocated (mem s) !!! Z.to_nat f = true ->
    exists p, In p (jobs_in_system s) /\ owns p f.

Definition frames_accounted (s s' : MOS) : Prop :=
  state_wf s -> accounted s -> state_wf s' /\ accounted s'.



(** Two jobs and one register: the first loops over [CR02; BT00] with
    R as it found it; the second loads R with its first instruction,
    in a loop of its own on page 1. *)
Definition two_jobs_one_register : list string :=
  ["$AMJ000100500010"; "CR02"; "BT00"; "$DTA"; "$END";
   "$AMJ000200500010"; "CR02"; "BT10"; "LR00"; "BT10"; "$DTA"; "$END"]%string.

(** * Properties of the model *)

(** ** Arithmetic of the constants *)

Lemma quot_rem_nonneg (a : Z) :
  0 <= a -> Z.quot a PAGE_SIZE = a / 10 /\ Z.rem a PAGE_SIZE = a mod 10.
Proof.
  intros Ha. unfold PAGE_SIZE.
  rewrite Z.quot_div_nonneg, Z.rem_mod_nonneg by lia. auto.
Qed.

(** ** Lists as arrays *)

Lemma clear_words_length (n b : nat) (d : list Word) :
  length (clear_words b n d) = length d.
Proof.
  revert b d. induction n as [|n IH]; intros b d; simpl; [done|].
  by rewrite IH, length_insert.
Qed.

Lemma clear_words_lookup (n b i : nat) (d : list Word) :
  clear_words b n d !!! i =
  if bool_decide (b <= i < b + n)%nat then word0 else d !!! i.
Proof.
  revert b d. induction n as [|n IH]; intros b d; simpl.
  - rewrite bool_decide_eq_false_2 by lia. done.
  - rewrite IH. destruct (decide (b = i)) as [->|Hne].
    + rewrite (bool_decide_eq_false_2 (S i <= i < _)%nat) by lia.
      rewrite bool_decide_eq_true_2 by lia.
      destruct (decide (i < length d)%nat) as [Hlt|Hge].
      * by rewrite list_lookup_total_insert_eq.
      * rewrite list_insert_ge by lia.
        rewrite list_lookup_total_alt, lookup_ge_None_2 by lia. done.
    + rewrite list_lookup_total_insert_ne by done.
      destruct (decide (S b <= i < S b + n)%nat).
      * rewrite !bool_decide_eq_true_2 by lia. done.
      * rewrite !bool_decide_eq_false_2 by lia. done.
Qed.

Lemma read_clearFrame (f a : Z) (m : Memory) :
  0 <= f -> 0 <= a ->
  read_word (clearFrame f m) a =
  if bool_decide (f * 10 <= a < f * 10 + 10) then word0 else read_word m a.
Proof.
  intros Hf Ha. unfold read_word, clearFrame. cbn [data set_data].
  rewrite clear_words_lookup. unfold PAGE_SIZE.
  destruct (decide (f * 10 <= a < f * 10 + 10)).
  - rewrite !bool_decide_eq_true_2 by lia. done.
  - rewrite !bool_decide_eq_false_2 by lia. done.
Qed.

Lemma read_write_word (a b : Z) (w : Word) (m : Memory) :
  0 <= a -> 0 <= b -> (Z.to_nat a < length (data m))%nat ->
  read_word (write_word a w m) b = if bool_decide (a = b) then w else read_word m b.
Proof.
  intros Ha Hb Hlen. unfold read_word, write_word. simpl.
  destruct (decide (a = b)) as [->|Hne].
  - rewrite bool_decide_eq_true_2 by done. by rewrite list_lookup_total_insert_eq.
  - rewrite bool_decide_eq_false_2 by done.
    rewrite list_lookup_total_insert_ne by lia. done.
Qed.

(** ** The monad *)

Lemma stays_ret {A} (Rel : MOS -> MOS -> Prop) (a : A) :
  Reflexive Rel -> stays Rel (ret a).
Proof. intros HR s. apply HR. Qed.

Lemma stays_bind {A B} (Rel : MOS -> MOS -> Prop) (m : M A) (k : A -> M B) :
  Transitive Rel ->
  stays Rel m -> (forall a, stays Rel (k a)) -> stays Rel (bind m k).
Proof.
  intros HT Hm Hk s. unfold bind. specialize (Hm s).
  destruct (m s) as [a s1|s1|s1]; simpl in *; [|done|done].
  specialize (Hk a s1). by etrans.
Qed.

Lemma stays_get (Rel : MOS -> MOS -> Prop) : Reflexive Rel -> stays Rel get.
Proof. intros HR s. apply HR. Qed.

Lemma stays_modify (Rel : MOS -> MOS -> Prop) (f : MOS -> MOS) :
  (forall s, Rel s (f s)) -> stays Rel (modify f).
Proof. intros H s. apply H. Qed.

Lemma stays_deref (Rel : MOS -> MOS -> Prop) : Reflexive Rel -> stays Rel deref.
Proof. intros HR s. unfold deref. destruct (currentPCB s); apply HR. Qed.

Lemma stays_fault {A} (Rel : MOS -> MOS -> Prop) :
  Reflexive Rel -> stays Rel (@fault A).
Proof. intros HR s. apply HR. Qed.

Lemma stays_out_of_fuel {A} (Rel : MOS -> MOS -> Prop) :
  Reflexive Rel -> stays Rel (@out_of_fuel A).
Proof. intros HR s. apply HR. Qed.

Global Instance keeps_refl (P : MOS -> Prop) : Reflexive (keeps P).
Proof. intros s. unfold keeps. auto. Qed.

Global Instance keeps_trans (P : MOS -> Prop) : Transitive (keeps P).
Proof. intros s1 s2 s3. unfold keeps. auto. Qed.

Lemma addressMap_in_range (VA RA0 : Z) (s : MOS) (p : PCB) :
  currentPCB s = Some p ->
  0 <= VA < MEM_SIZE ->
  let e := pageTable p !!! Z.to_nat (VA / 10) in
  addressMap VA RA0 s =
  if valid e && frame_in_range (frame e)
  then Ret (true, frame e * 10 + VA mod 10) s
  else Ret (false, RA0) (set_cpu (set_PI PI_PAGE_FAULT (cpu s)) s).
Proof.
  intros Hcur HVA e. unfold addressMap, MEM_SIZE in *.
  destruct (quot_rem_nonneg VA) as [Hq Hr]; [lia|]. rewrite Hq, Hr.
  assert (0 <= VA / 10 < 10) by (split; [apply Z.div_pos|apply Z.div_lt_upper_bound]; lia).
  assert (0 <= VA mod 10 < 10) by (apply Z.mod_pos_bound; lia).
  replace ((VA <? 0) || (VA >=? 100)) with false by lia.
  unfold FRAME_COUNT, PAGE_SIZE.
  replace (VA / 10 >=? 10) with false by lia.
  unfold bind, deref. rewrite Hcur. fold e.
  destruct (valid e); simpl; [|done].
  unfold frame_in_range, FRAME_COUNT.
  destruct (Z.ltb_spec (frame e) 0); simpl.
  { replace (0 <=? frame e) with false by lia. done. }
  replace (0 <=? frame e) with true by lia. simpl.
  destruct (Z.ltb_spec (frame e) 10); simpl.
  - replace (frame e >=? 10) with false by lia.
    replace ((frame e * 10 + VA mod 10 <? 0) || (frame e * 10 + VA mod 10 >=? 100))
      with false by lia.
    done.
  - replace (frame e >=? 10) with true by lia. done.
Qed.


(** ** The address mapper *)

(** C3: for every virtual address and page table the mapper decides in
    the order of the source: an address outside [0, MEM_SIZE) is an
    operand error; then a page outside the table, an invalid entry or a
    stored frame outside [0, FRAME_COUNT) is a page fault; then a real
    address outside [0, MEM_SIZE) is an operand error; otherwise the
    mapper succeeds with [frame * PAGE_SIZE + offset] and leaves the state
    (so PI) as it was.  VA = 99 on a valid page succeeds, VA = 100 is an
    operand error. *)
Theorem addressMap_decisions (VA RA0 : Z) (s : MOS) (p : PCB) :
  currentPCB s = Some p ->
  let page := VA / PAGE_SIZE in
  let offset := VA mod PAGE_SIZE in
  let e := pageTable p !!! Z.to_nat page in
  let ra := frame e * PAGE_SIZE + offset in
  let raised (pi : Z) := set_cpu (set_PI pi (cpu s)) s in
  (VA < 0 \/ VA >= MEM_SIZE ->
   addressMap VA RA0 s = Ret (false, RA0) (raised PI_OPERAND_ERR)) /\
  (0 <= VA < MEM_SIZE ->
   page >= FRAME_COUNT \/ valid e = false \/ ~ 0 <= frame e < FRAME_COUNT ->
   addressMap VA RA0 s = Ret (false, RA0) (raised PI_PAGE_FAULT)) /\
  (0 <= VA < MEM_SIZE -> page < FRAME_COUNT -> valid e = true ->
   0 <= frame e < FRAME_COUNT -> ~ 0 <= ra < MEM_SIZE ->
   addressMap VA RA0 s = Ret (false, ra) (raised PI_OPERAND_ERR)) /\
  (0 <= VA < MEM_SIZE -> page < FRAME_COUNT -> valid e = true ->
   0 <= frame e < FRAME_COUNT -> 0 <= ra < MEM_SIZE ->
   addressMap VA RA0 s = Ret (true, ra) s) /\
  (VA = MEM_SIZE - 1 -> valid e = true -> 0 <= frame e < FRAME_COUNT ->
   addressMap VA RA0 s = Ret (true, frame e * PAGE_SIZE + 9) s) /\
  (VA = MEM_SIZE ->
   addressMap VA RA0 s = Ret (false, RA0) (raised PI_OPERAND_ERR)).
Proof.
  intros Hcur page offset e ra raised.
  assert (Hout : VA < 0 \/ VA >= MEM_SIZE ->
                 addressMap VA RA0 s = Ret (false, RA0) (raised PI_OPERAND_ERR)).
  { intros Hva. unfold addressMap, MEM_SIZE in *.
    replace ((VA <? 0) || (VA >=? 100)) with true by lia. done. }
  assert (Hin : 0 <= VA < MEM_SIZE ->
                addressMap VA RA0 s =
                if valid e && frame_in_range (frame e)
                then Ret (true, ra) s else Ret (false, RA0) (raised PI_PAGE_FAULT)).
  { intros Hva. by rewrite (addressMap_in_range VA RA0 s p Hcur Hva). }
  assert (Hpage : 0 <= VA < MEM_SIZE -> 0 <= page < FRAME_COUNT /\ 0 <= offset < PAGE_SIZE).
  { clear Hin Hout. subst ra e page offset.
    unfold MEM_SIZE, FRAME_COUNT, PAGE_SIZE. intros Hva. split.
    - split; [apply Z.div_pos|apply Z.div_lt_upper_bound]; lia.
    - apply Z.mod_pos_bound; lia. }
  unfold frame_in_range in Hin.
  repeat split.
  - exact Hout.
  - intros Hva Hbad. rewrite Hin by done.
    destruct (Hpage Hva) as [Hp _].
    destruct Hbad as [Hb|[Hb|Hb]]; [lia| by rewrite Hb |].
    destruct (valid e); [|done].
    replace ((0 <=? frame e) && (frame e <? FRAME_COUNT)) with false by lia. done.
  - intros Hva _ _ Hfr Hra. destruct (Hpage Hva) as [_ Ho].
    exfalso. apply Hra. clearbody e offset. subst ra.
    unfold MEM_SIZE, FRAME_COUNT, PAGE_SIZE in *. lia.
  - intros Hva _ Hvalid Hfr _. rewrite Hin by done. rewrite Hvalid.
    replace ((0 <=? frame e) && (frame e <? FRAME_COUNT)) with true by lia. done.
  - intros -> Hvalid Hfr. rewrite Hin by (unfold MEM_SIZE; lia). rewrite Hvalid.
    replace ((0 <=? frame e) && (frame e <? FRAME_COUNT)) with true by lia. done.
  - intros ->. apply Hout. lia.
Qed.

Lemma addressMap_decisions_witness :
  addressMap 99 0 sample_MOS = Ret (true, 29) sample_MOS /\
  addressMap 100 0 sample_MOS =
    Ret (false, 0) (set_cpu (set_PI PI_OPERAND_ERR (cpu sample_MOS)) sample_MOS) /\
  addressMap 10 0 sample_MOS =
    Ret (false, 0) (set_cpu (set_PI PI_PAGE_FAULT (cpu sample_MOS)) sample_MOS).
Proof.
  split; [|split].
  - apply (addressMap_decisions 99 0 sample_MOS sample_PCB eq_refl);
      [reflexivity | reflexivity | unfold FRAME_COUNT; simpl; lia].
  - apply (addressMap_decisions 100 0 sample_MOS sample_PCB eq_refl). reflexivity.
  - apply (addressMap_decisions 10 0 sample_MOS sample_PCB eq_refl);
      [unfold MEM_SIZE; lia | right; left; reflexivity].
Defined.


(** ** The frame allocator *)

Lemma allocate_attempts_spec (dist : Draws) (n a : nat) (m : Memory) :
  (exists j, (a <= j < a + n)%nat /\
     allocated m !!! Z.to_nat (dist j) = false /\
     (forall j', (a <= j' < j)%nat -> allocated m !!! Z.to_nat (dist j') = true) /\
     allocate_attempts dist a n m =
       (dist j, set_allocated (<[Z.to_nat (dist j) := true]> (allocated m)) m)) \/
  ((forall j, (a <= j < a + n)%nat -> allocated m !!! Z.to_nat (dist j) = true) /\
   allocate_attempts dist a n m = (-1, m)).
Proof.
  revert a. induction n as [|n IH]; intros a; simpl.
  - right. split; [intros; lia | done].
  - destruct (allocated m !!! Z.to_nat (dist a)) eqn:Hbit; simpl.
    + destruct (IH (S a)) as [(j & Hj & Hfree & Hbefore & Heq)|[Hall Heq]].
      * left. exists j. split_and!; [lia | lia | done | | done].
        intros j' Hj'. destruct (decide (j' = a)) as [->|]; [done|].
        apply Hbefore. lia.
      * right. split; [|done]. intros j Hj.
        destruct (decide (j = a)) as [->|]; [done|]. apply Hall. lia.
    + left. exists a. split_and!; [lia | lia | done | | done].
      intros; lia.
Qed.

Lemma allocateFrame_cases (dist : Draws) (m : Memory) :
  draws_in_range dist -> mem_wf m ->
  (exists j, (j < 20)%nat /\
     allocated m !!! Z.to_nat (dist j) = false /\
     (forall j', (j' < j)%nat -> allocated m !!! Z.to_nat (dist j') = true) /\
     allocateFrame dist m =
       (dist j, set_allocated (<[Z.to_nat (dist j) := true]> (allocated m)) m)) \/
  ((forall j, (j < 20)%nat -> allocated m !!! Z.to_nat (dist j) = true) /\
   allocateFrame dist m = (-1, m)).
Proof.
  intros _ _. unfold allocateFrame.
  destruct (allocate_attempts_spec dist (Z.to_nat (FRAME_COUNT * 2)) 0 m)
    as [(j & Hj & Hfree & Hbefore & Heq)|[Hall Heq]].
  - left. exists j. change (Z.to_nat (FRAME_COUNT * 2)) with 20%nat in Hj.
    split_and!; [lia | done | | done]. intros j' Hj'. apply Hbefore. lia.
  - right. split; [|done]. intros j Hj. apply Hall.
    change (Z.to_nat (FRAME_COUNT * 2)) with 20%nat. lia.
Qed.

Lemma entropy_spread_in_range : entropy_in_range entropy_spread.
Proof.
  intros k a. unfold entropy_spread, FRAME_COUNT.
  pose proof (Nat.mod_upper_bound (3 + k) 10). lia.
Qed.

Lemma entropy_stuck_in_range : entropy_in_range entropy_stuck.
Proof. intros k a. unfold entropy_stuck, FRAME_COUNT. lia. Qed.

(** C10: [allocateFrame] makes at most 20 draws and returns the first
    drawn frame whose allocation bit is false, setting that bit and
    changing no other allocation bit, no lock bit and no memory word; it
    returns -1, and changes nothing, when every draw was allocated.  So
    some sequence of draws yields -1 although a frame is free, and one
    input file loads under one random source and aborts under another.
    (The draws are any sequence over [0, FRAME_COUNT-1]; probabilities are
    not modelled.) *)
Theorem allocateFrame_first_free_draw :
  (forall (dist : Draws) (m : Memory),
     draws_in_range dist -> mem_wf m ->
     exists fr m', allocateFrame dist m = (fr, m') /\
       ((exists j, (j < 20)%nat /\ fr = dist j /\
           allocated m !!! Z.to_nat fr = false /\
           (forall j', (j' < j)%nat -> allocated m !!! Z.to_nat (dist j') = true) /\
           allocated m' !!! Z.to_nat fr = true /\
           (forall f, f <> Z.to_nat fr -> allocated m' !! f = allocated m !! f) /\
           locked_frames m' = locked_frames m /\
           data m' = data m) \/
        (fr = -1 /\ m' = m /\
         forall j, (j < 20)%nat -> allocated m !!! Z.to_nat (dist j) = true))) /\
  (exists (dist : Draws) (m : Memory),
     draws_in_range dist /\ mem_wf m /\
     (exists f, (f < 10)%nat /\ allocated m !!! f = false) /\
     fst (allocateFrame dist m) = -1) /\
  (exists (lines : list string) (e1 e2 : Entropy),
     entropy_in_range e1 /\ entropy_in_range e2 /\
     (exists s, loadJobs e1 lines fresh_MOS = inr s) /\
     loadJobs e2 lines fresh_MOS = inl ProgramAllocationFailed).
Proof.
  split; [|split].
  - intros dist m Hd Hm.
    destruct (allocateFrame_cases dist m Hd Hm)
      as [(j & Hj & Hfree & Hbefore & Heq)|[Hall Heq]].
    + eexists _, _. split; [exact Heq|]. left. exists j.
      destruct Hm as (_ & Hlen & _). specialize (Hd j). unfold FRAME_COUNT in *.
      split_and!; try done.
      * simpl. apply list_lookup_total_insert_eq. lia.
      * intros f Hf. simpl. by apply list_lookup_insert_ne.
    + eexists _, _. split; [exact Heq|]. right. done.
  - exists (entropy_stuck O), sample_memory. split_and!.
    + apply entropy_stuck_in_range.
    + repeat split.
    + exists 0%nat. split; [lia|reflexivity].
    + reflexivity.
  - exists job_one_instruction, entropy_spread, entropy_stuck.
    split; [apply entropy_spread_in_range|]. split; [apply entropy_stuck_in_range|].
    split; [eexists; vm_compute; reflexivity | vm_compute; reflexivity].
Qed.

Lemma allocateFrame_first_free_draw_witness :
  exists fr m', allocateFrame (entropy_spread 2%nat) sample_memory = (fr, m') /\
    allocated m' !!! 5%nat = true.
Proof.
  destruct allocateFrame_first_free_draw as [H _].
  destruct (H (entropy_spread 2%nat) sample_memory (entropy_spread_in_range 2%nat))
    as (fr & m' & Heq & Hcases).
  { repeat split. }
  exists fr, m'. split; [exact Heq|].
  vm_compute in Heq. injection Heq as <- <-. reflexivity.
Defined.


(** ** The loader *)

Lemma count_true_le_length (l : list bool) : (count_true l <= length l)%nat.
Proof. induction l as [|[] l IH]; simpl; lia. Qed.

Lemma count_true_insert (l : list bool) (i : nat) :
  l !! i = Some false -> count_true (<[i := true]> l) = S (count_true l).
Proof.
  revert i. induction l as [|b l IH]; intros [|i] H; simpl in *; try done.
  - by injection H as ->.
  - rewrite (IH i H). by destruct b.
Qed.

Lemma count_true_pos (l : list bool) (i : nat) :
  l !! i = Some true -> (1 <= count_true l)%nat.
Proof.
  revert i. induction l as [|b l IH]; intros [|i] H; simpl in *; try done.
  - injection H as ->. lia.
  - specialize (IH i H). destruct b; lia.
Qed.

Lemma lookup_total_Some_bool (l : list bool) (i : nat) (b : bool) :
  (i < length l)%nat -> l !!! i = b -> l !! i = Some b.
Proof.
  intros Hlt <-. by apply list_lookup_lookup_total_lt.
Qed.

Lemma allocateFrame_result (dist : Draws) (m : Memory) (fr : Z) (m' : Memory) :
  draws_in_range dist -> mem_wf m ->
  allocateFrame dist m = (fr, m') ->
  (fr = -1 /\ m' = m) \/
  (0 <= fr < FRAME_COUNT /\ allocated m !!! Z.to_nat fr = false /\
   m' = set_allocated (<[Z.to_nat fr := true]> (allocated m)) m).
Proof.
  intros Hd Hm Heq.
  destruct (allocateFrame_cases dist m Hd Hm)
    as [(j & Hj & Hfree & Hbefore & Heq')|[Hall Heq']];
    rewrite Heq' in Heq; injection Heq as <- <-.
  - right. split; [apply Hd|]. done.
  - left. done.
Qed.

Lemma copy_instructions_length (instructions : list string) (fr start : Z)
    (todo : nat) (j : Z) (d : list Word) :
  length (copy_instructions instructions fr start j todo d) = length d.
Proof.
  revert j d. induction todo as [|todo IH]; intros j d; simpl; [done|].
  by rewrite IH, length_insert.
Qed.

Lemma copy_instructions_lookup (instructions : list string) (fr start : Z)
    (todo : nat) (j a : Z) (d : list Word) :
  0 <= fr -> 0 <= start <= j -> 0 <= a ->
  (Z.to_nat (fr * PAGE_SIZE + (j - start)) + todo <= length d)%nat ->
  copy_instructions instructions fr start j todo d !!! Z.to_nat a =
  if bool_decide (fr * PAGE_SIZE + (j - start) <= a
                  < fr * PAGE_SIZE + (j - start) + Z.of_nat todo)
  then word_of_string (instructions !!! Z.to_nat (start + (a - fr * PAGE_SIZE)))
  else d !!! Z.to_nat a.
Proof.
  unfold PAGE_SIZE. revert j d.
  induction todo as [|todo IH]; intros j d Hfr Hj Ha Hlen; simpl; unfold PAGE_SIZE.
  - rewrite bool_decide_eq_false_2 by lia. done.
  - rewrite IH; [|lia|lia|lia|rewrite length_insert; lia].
    destruct (decide (a = fr * 10 + (j - start))) as [->|Hne].
    + rewrite bool_decide_eq_false_2 by lia.
      rewrite bool_decide_eq_true_2 by lia.
      rewrite list_lookup_total_insert_eq by lia.
      do 3 f_equal. lia.
    + rewrite list_lookup_total_insert_ne by lia.
      destruct (decide (fr * 10 + (j + 1 - start) <= a
                        < fr * 10 + (j + 1 - start) + Z.of_nat todo)).
      * rewrite !bool_decide_eq_true_2 by lia. done.
      * rewrite !bool_decide_eq_false_2 by lia. done.
Qed.


Lemma instructionsPerPage_eq : instructionsPerPage = 2.
Proof. reflexivity. Qed.

Lemma load_pages_step (e : Entropy) (instructions : list string) (i : Z) (k : nat)
    (p : PCB) (m : Memory) :
  entropy_in_range e -> 0 <= i < FRAME_COUNT ->
  pages_inv instructions p m i ->
  let '(fr, m1) := allocateFrame (e k) m in
  let p1 := set_pageTable (<[Z.to_nat i := mkPTE fr true]> (pageTable p)) p in
  let m2 := clearFrame fr m1 in
  let startInstr := i * instructionsPerPage in
  let endInstr :=
    Z.min (startInstr + instructionsPerPage) (Z.of_nat (length instructions)) in
  let m3 :=
    set_data (copy_instructions instructions fr startInstr startInstr
                (Z.to_nat (endInstr - startInstr)) (data m2)) m2 in
  fr <> -1 ->
  pages_inv instructions p1 m3 (i + 1) /\
  count_true (allocated m3) = S (count_true (allocated m)) /\
  (forall f, allocated m !!! f = true -> allocated m3 !!! f = true) /\
  locked_frames m3 = locked_frames m.
Proof.
  intros He Hi (Hm & Hlen & Hloaded & Hrest & Hdistinct).
  destruct (allocateFrame (e k) m) as [fr m1] eqn:Halloc.
  intros p1 m2 startInstr endInstr m3 Hfr.
  destruct (allocateFrame_result _ _ _ _ (He k) Hm Halloc)
    as [[? _]|(Hrange & Hfree & ->)]; [done|].
  pose proof Hm as (Hdata & Hallocated & Hlocked).
  unfold FRAME_COUNT, MEM_SIZE, PAGE_SIZE in *.
  subst startInstr endInstr. change instructionsPerPage with 2 in *.
  set (n := Z.of_nat (length instructions)) in *.
  assert (Hread : forall a, 0 <= a ->
            read_word m3 a =
            if bool_decide (fr * 10 <= a < fr * 10 + 10)
            then (if bool_decide (a - fr * 10 < Z.min 2 (n - 2 * i))
                  then word_of_string (instructions !!! Z.to_nat (2 * i + (a - fr * 10)))
                  else word0)
            else read_word m a).
  { intros a Ha. unfold read_word at 1. subst m3. cbn [data set_data].
    rewrite copy_instructions_lookup;
      [|lia|lia|lia|
       unfold m2, clearFrame; cbn [data set_data];
       rewrite clear_words_length; cbn [data set_allocated]; unfold PAGE_SIZE; lia].
    unfold PAGE_SIZE. change (data m2 !!! Z.to_nat a) with (read_word m2 a).
    unfold m2. rewrite read_clearFrame by lia.
    destruct (decide (fr * 10 <= a < fr * 10 + 10)) as [Hin|Hout].
    - rewrite (bool_decide_eq_true_2 (fr * 10 <= a < fr * 10 + 10)) by done.
      destruct (decide (a - fr * 10 < Z.min 2 (n - 2 * i))).
      + rewrite !bool_decide_eq_true_2 by lia.
        do 3 f_equal. lia.
      + rewrite !bool_decide_eq_false_2 by lia. done.
    - rewrite (bool_decide_eq_false_2 (fr * 10 <= a < fr * 10 + 10)) by done.
      rewrite bool_decide_eq_false_2 by lia. done. }
  assert (Halloc3 : allocated m3 = <[Z.to_nat fr := true]> (allocated m)) by done.
  assert (Hold : forall i', 0 <= i' < i ->
            pageTable p1 !!! Z.to_nat i' = pageTable p !!! Z.to_nat i').
  { intros i' Hi'. unfold p1. cbn [pageTable set_pageTable].
    apply list_lookup_total_insert_ne. lia. }
  assert (Hnew : pageTable p1 !!! Z.to_nat i = mkPTE fr true).
  { unfold p1. cbn [pageTable set_pageTable].
    apply list_lookup_total_insert_eq. lia. }
  split; [|split; [|split]].
  - split; [|split; [|split; [|split]]].
    + split; [|split].
      * subst m3. cbn [data set_data]. rewrite copy_instructions_length.
        unfold m2, clearFrame. cbn [data set_data]. by rewrite clear_words_length.
      * rewrite Halloc3, length_insert. done.
      * done.
    + unfold p1. cbn [pageTable set_pageTable]. by rewrite length_insert.
    + intros i' Hi'. unfold page_loaded, FRAME_COUNT, PAGE_SIZE. fold n.
      destruct (decide (i' = i)) as [->|Hne].
      * rewrite Hnew. cbn [valid frame]. split_and!; [done|lia|lia| |].
        { rewrite Halloc3. apply list_lookup_total_insert_eq. lia. }
        intros o Ho. rewrite Hread by lia.
        rewrite bool_decide_eq_true_2 by lia.
        replace (fr * 10 + o - fr * 10) with o by lia.
        destruct (decide (o < Z.min 2 (n - 2 * i))).
        -- rewrite bool_decide_eq_true_2 by done.
           replace ((o <? 2) && (2 * i + o <? n)) with true by lia. done.
        -- rewrite bool_decide_eq_false_2 by done.
           replace ((o <? 2) && (2 * i + o <? n)) with false by lia. done.
      * rewrite Hold by lia.
        destruct (Hloaded i') as (Hv & Hf & Ha & Hw); [lia|].
        unfold FRAME_COUNT, PAGE_SIZE in *. fold n in Hw.
        assert (frame (pageTable p !!! Z.to_nat i') <> fr) by congruence.
        split_and!; [done|lia|lia| |].
        { rewrite Halloc3. rewrite list_lookup_total_insert_ne by lia. done. }
        intros o Ho. rewrite Hread by lia.
        rewrite bool_decide_eq_false_2 by lia. by apply Hw.
    + intros i' Hi'. unfold p1, FRAME_COUNT in *. cbn [pageTable set_pageTable].
      rewrite list_lookup_total_insert_ne by lia. apply Hrest. lia.
    + intros i1 i2 H1 H2.
      destruct (decide (i1 = i)) as [->|Hn1]; destruct (decide (i2 = i)) as [->|Hn2];
        [done| | |].
      * rewrite Hnew, Hold by lia. cbn [frame]. intros ->.
        destruct (Hloaded i2) as (_ & _ & Ha & _); [lia|]. congruence.
      * rewrite Hnew, Hold by lia. cbn [frame]. intros <-.
        destruct (Hloaded i1) as (_ & _ & Ha & _); [lia|]. congruence.
      * rewrite !Hold by lia. apply Hdistinct; lia.
  - rewrite Halloc3. apply count_true_insert.
    apply lookup_total_Some_bool; [lia|done].
  - intros f Hf. rewrite Halloc3.
    destruct (decide (f = Z.to_nat fr)) as [->|Hne]; [congruence|].
    by rewrite list_lookup_total_insert_ne.
  - done.
Qed.


Lemma load_pages_spec (e : Entropy) (instructions : list string) :
  entropy_in_range e ->
  forall (todo : nat) (i : Z) (k : nat) (p : PCB) (m : Memory) p' m' k',
  0 <= i -> i + Z.of_nat todo <= FRAME_COUNT ->
  pages_inv instructions p m i ->
  load_pages e instructions i todo k p m = Some (p', m', k') ->
  pages_inv instructions p' m' (i + Z.of_nat todo) /\
  count_true (allocated m') = (count_true (allocated m) + todo)%nat /\
  (forall f, allocated m !!! f = true -> allocated m' !!! f = true) /\
  locked_frames m' = locked_frames m /\
  p' = set_pageTable (pageTable p') p /\
  k' = (k + todo)%nat.
Proof.
  intros He. induction todo as [|todo IH]; intros i k p m p' m' k' Hi Htodo Hinv Hload.
  - simpl in Hload. injection Hload as <- <- <-.
    replace (i + Z.of_nat 0) with i by lia.
    split_and!; [done|lia|done|done|by destruct p|lia].
  - cbn [load_pages] in Hload.
    pose proof (load_pages_step e instructions i k p m He) as Hstep.
    destruct (allocateFrame (e k) m) as [fr m1].
    destruct (Z.eqb_spec fr (-1)) as [|Hfr]; [done|].
    destruct Hstep as (Hinv1 & Hcount1 & Hmono1 & Hlock1); [lia|done|done|].
    apply IH in Hload; [|lia|lia|done].
    destruct Hload as (Hinv' & Hcount' & Hmono' & Hlock' & Hp' & Hk').
    replace (i + Z.of_nat (S todo)) with (i + 1 + Z.of_nat todo) by lia.
    split_and!; [done|lia|auto|congruence| |lia].
    rewrite Hp'. by destruct p.
Qed.

Lemma empty_pageTable_lookup (i : nat) :
  (i < 10)%nat -> empty_pageTable !!! i = mkPTE (-1) false.
Proof.
  intros Hi. unfold empty_pageTable.
  apply lookup_total_replicate_2. unfold FRAME_COUNT. lia.
Qed.

Lemma pages_inv_start (instructions : list string) (p : PCB) (m : Memory) :
  mem_wf m -> pages_inv instructions (set_pageTable empty_pageTable p) m 0.
Proof.
  intros Hm. split_and!; [done|reflexivity| | |].
  - intros; lia.
  - intros i' Hi'. cbn [pageTable set_pageTable]. apply empty_pageTable_lookup.
    unfold FRAME_COUNT in *. lia.
  - intros; lia.
Qed.

Lemma pagesNeeded_eq (n : Z) : 0 <= n -> pagesNeeded n = (n + 1) / 2.
Proof.
  intros Hn. unfold pagesNeeded. change instructionsPerPage with 2.
  rewrite Z.quot_div_nonneg by lia. f_equal. lia.
Qed.

(** What a successful [loadProgramIntoMemory] leaves: the first
    [min (pagesNeeded n) FRAME_COUNT] pages loaded, the rest invalid. *)
Lemma loadProgramIntoMemory_spec (e : Entropy) (k : nat) (p : PCB) (code : string)
    (m : Memory) p' m' k' :
  entropy_in_range e -> mem_wf m ->
  loadProgramIntoMemory e k p code m = Some (p', m', k') ->
  let n := Z.of_nat (length (instructions_of code)) in
  let pages := Z.min ((n + 1) / 2) FRAME_COUNT in
  pages_inv (instructions_of code) p' m' pages /\
  count_true (allocated m') = (count_true (allocated m) + Z.to_nat pages)%nat /\
  (forall f, allocated m !!! f = true -> allocated m' !!! f = true) /\
  locked_frames m' = locked_frames m /\
  p' = set_pageTable (pageTable p') p.
Proof.
  intros He Hm Hload n pages. unfold loadProgramIntoMemory in Hload.
  rewrite pagesNeeded_eq in Hload by lia. fold n in Hload. fold pages in Hload.
  assert (Hpages : 0 <= pages <= FRAME_COUNT).
  { unfold pages, FRAME_COUNT. assert (0 <= (n + 1) / 2) by (apply Z.div_pos; lia). lia. }
  apply (load_pages_spec e _ He) in Hload;
    [|lia|lia|by apply pages_inv_start].
  rewrite Z2Nat.id in Hload by lia.
  destruct Hload as (Hinv & Hcount & Hmono & Hlock & Hp & _).
  replace (0 + pages) with pages in Hinv by lia.
  split_and!; [done|done|done|done|].
  rewrite Hp. by destruct p.
Qed.


(** C9: a successful [loadProgramIntoMemory] of [n] instructions, in the
    state the loader calls it in (the frame of the job's page table is
    allocated), marks exactly the pages [0 .. ceil(n/2)-1] valid and
    stores instruction [j] in word [j mod 2] of the frame of page
    [j / 2]; the address mapper sends a virtual address [v] to word
    [v mod 10] of the frame of page [v / 10].  So a fetch at [IC = j]
    reads instruction [j] for [j = 0] and [j = 1] only: for
    [2 <= j <= 9] it reads a word of frame 0 that the loader cleared and
    never filled, and for no [j >= 2] does it read the word instruction
    [j] was stored in. *)
Theorem loader_layout_and_fetch (e : Entropy) (k : nat) (p : PCB) (code : string)
    (m : Memory) (p' : PCB) (m' : Memory) (k' : nat) :
  entropy_in_range e -> mem_wf m ->
  (exists f, 0 <= f < FRAME_COUNT /\ PTR p = f * PAGE_SIZE /\
             allocated m !!! Z.to_nat f = true) ->
  loadProgramIntoMemory e k p code m = Some (p', m', k') ->
  let instructions := instructions_of code in
  let n := Z.of_nat (length instructions) in
  let entry (pg : Z) := pageTable p' !!! Z.to_nat pg in
  let stored (j : Z) := frame (entry (j / 2)) * PAGE_SIZE + j mod 2 in
  (n + 1) / 2 <= FRAME_COUNT /\
  (forall i, 0 <= i < FRAME_COUNT -> valid (entry i) = true <-> i < (n + 1) / 2) /\
  (forall j, 0 <= j < n ->
     valid (entry (j / 2)) = true /\ 0 <= frame (entry (j / 2)) < FRAME_COUNT /\
     read_word m' (stored j) = word_of_string (instructions !!! Z.to_nat j)) /\
  (forall s v RA0, currentPCB s = Some p' -> 0 <= v < MEM_SIZE ->
     valid (entry (v / 10)) = true ->
     addressMap v RA0 s =
     Ret (true, frame (entry (v / 10)) * PAGE_SIZE + v mod 10) s) /\
  (forall s j RA0, currentPCB s = Some p' -> mem s = m' -> 0 <= j < 2 -> j < n ->
     addressMap j RA0 s = Ret (true, stored j) s /\
     read_word (mem s) (stored j) = word_of_string (instructions !!! Z.to_nat j)) /\
  (forall s j RA0, currentPCB s = Some p' -> mem s = m' -> 2 <= j <= 9 -> 1 <= n ->
     exists ra, addressMap j RA0 s = Ret (true, ra) s /\
                read_word (mem s) ra = word0 /\
                forall j', 0 <= j' < n -> ra <> stored j') /\
  (forall s j RA0 ra, currentPCB s = Some p' -> 2 <= j < n ->
     addressMap j RA0 s = Ret (true, ra) s -> ra <> stored j).
Proof.
  intros He Hm (f0 & Hf0 & _ & Hf0a) Hload instructions n entry stored.
  destruct (loadProgramIntoMemory_spec e k p code m p' m' k' He Hm Hload)
    as (Hinv & Hcount & _ & _ & _).
  fold instructions in Hinv, Hcount. fold n in Hinv, Hcount.
  destruct Hinv as (Hm' & Hlen & Hloaded & Hrest & Hdistinct).
  pose proof Hm as (_ & Hlena & _). pose proof Hm' as (_ & Hlena' & _).
  unfold page_loaded in Hloaded. cbv zeta in Hloaded. fold instructions n in Hloaded.
  unfold FRAME_COUNT, PAGE_SIZE, MEM_SIZE in *.
  change (forall i', 0 <= i' < Z.min ((n + 1) / 2) 10 ->
            valid (entry i') = true /\ 0 <= frame (entry i') < 10 /\
            allocated m' !!! Z.to_nat (frame (entry i')) = true /\
            forall o, 0 <= o < 10 ->
              read_word m' (frame (entry i') * 10 + o) =
              if (o <? 2) && (2 * i' + o <? n)
              then word_of_string (instructions !!! Z.to_nat (2 * i' + o))
              else word0) in Hloaded.
  change (forall i', Z.min ((n + 1) / 2) 10 <= i' < 10 ->
            entry i' = mkPTE (-1) false) in Hrest.
  change (forall i1 i2, 0 <= i1 < Z.min ((n + 1) / 2) 10 ->
            0 <= i2 < Z.min ((n + 1) / 2) 10 ->
            frame (entry i1) = frame (entry i2) -> i1 = i2) in Hdistinct.
  assert (Hn : 0 <= n) by lia.
  assert (Hhalf : 0 <= (n + 1) / 2) by (apply Z.div_pos; lia).
  assert (Hpages : (n + 1) / 2 <= 9).
  { pose proof (count_true_le_length (allocated m')).
    assert (1 <= count_true (allocated m))%nat.
    { apply (count_true_pos _ (Z.to_nat f0)). apply lookup_total_Some_bool; [lia|done]. }
    lia. }
  replace (Z.min ((n + 1) / 2) 10) with ((n + 1) / 2) in * by lia.
  assert (Hvalid : forall i, 0 <= i < 10 -> valid (entry i) = true <-> i < (n + 1) / 2).
  { intros i Hi. split.
    - intros Hv. destruct (Z.lt_ge_cases i ((n + 1) / 2)) as [|Hge]; [done|].
      rewrite Hrest in Hv by lia. done.
    - intros Hlt. by destruct (Hloaded i) as (Hv & _); [lia|]. }
  assert (Hhalfpage : forall j, 0 <= j < n -> 0 <= j / 2 < (n + 1) / 2).
  { intros j Hj. split; [apply Z.div_pos; lia|].
    apply Z.div_lt_upper_bound; [lia|].
    pose proof (Z.mod_pos_bound (n + 1) 2). pose proof (Z.div_mod (n + 1) 2). lia. }
  assert (Hstored : forall j, 0 <= j < n ->
            valid (entry (j / 2)) = true /\ 0 <= frame (entry (j / 2)) < 10 /\
            read_word m' (stored j) = word_of_string (instructions !!! Z.to_nat j)).
  { intros j Hj. pose proof (Hhalfpage j Hj) as Hpg.
    destruct (Hloaded (j / 2) Hpg) as (Hv & Hf & _ & Hw).
    split_and!; [done|lia|lia|].
    unfold stored.
    pose proof (Z.mod_pos_bound j 2). pose proof (Z.div_mod j 2).
    rewrite Hw by lia.
    replace ((j mod 2 <? 2) && (2 * (j / 2) + j mod 2 <? n)) with true by lia.
    do 3 f_equal. lia. }
  assert (Hmap : forall s v RA0, currentPCB s = Some p' -> 0 <= v < 100 ->
            valid (entry (v / 10)) = true ->
            addressMap v RA0 s = Ret (true, frame (entry (v / 10)) * 10 + v mod 10) s).
  { intros s v RA0 Hcur Hv Hval.
    rewrite (addressMap_in_range v RA0 s p' Hcur) by (unfold MEM_SIZE; lia).
    fold (entry (v / 10)). rewrite Hval.
    assert (0 <= v / 10 < 10) as Hpg
      by (split; [apply Z.div_pos|apply Z.div_lt_upper_bound]; lia).
    apply Hvalid in Hval; [|done].
    destruct (Hloaded (v / 10)) as (_ & Hf & _); [lia|].
    unfold frame_in_range, FRAME_COUNT.
    replace ((0 <=? frame (entry (v / 10))) && (frame (entry (v / 10)) <? 10))
      with true by lia.
    done. }
  assert (Hhalf1 : 1 <= n -> 0 < (n + 1) / 2).
  { intros H1.
    pose proof (Z.div_mod (n + 1) 2). pose proof (Z.mod_pos_bound (n + 1) 2). lia. }
  assert (Hpage0 : 1 <= n -> valid (entry 0) = true).
  { intros H1. apply Hvalid; [lia|]. by apply Hhalf1. }
  split_and!; [lia|exact Hvalid|exact Hstored|exact Hmap| | |].
  - intros s j RA0 Hcur Hmem Hj Hjn.
    assert (j = 0 \/ j = 1) as [->| ->] by lia.
    + rewrite (Hmap s 0 RA0 Hcur) by (try apply Hpage0; lia). split; [done|].
      rewrite Hmem. by apply Hstored.
    + rewrite (Hmap s 1 RA0 Hcur) by (try apply Hpage0; lia). split; [done|].
      rewrite Hmem. by apply Hstored.
  - intros s j RA0 Hcur Hmem Hj Hn1. eexists. split; [|split].
    + apply (Hmap s j RA0 Hcur); [lia|].
      replace (j / 10) with 0 by (symmetry; apply Z.div_small; lia). by apply Hpage0.
    + replace (j / 10) with 0 by (symmetry; apply Z.div_small; lia).
      replace (j mod 10) with j by (symmetry; apply Z.mod_small; lia).
      destruct (Hloaded 0) as (_ & Hf & _ & Hw);
        [specialize (Hhalf1 Hn1); lia|].
      rewrite Hmem. rewrite Hw by lia.
      replace (j <? 2) with false by lia. done.
    + intros j' Hj'. destruct (Hstored j' Hj') as (_ & Hf' & _).
      destruct (Hloaded 0) as (_ & Hf & _);
        [specialize (Hhalf1 Hn1); lia|].
      unfold stored.
      replace (j / 10) with 0 by (symmetry; apply Z.div_small; lia).
      replace (j mod 10) with j by (symmetry; apply Z.mod_small; lia).
      pose proof (Z.mod_pos_bound j' 2). lia.
  - intros s j RA0 ra Hcur Hj Hra.
    assert (j < 100 \/ 100 <= j) as [Hlt|Hge] by lia.
    2:{ unfold addressMap, MEM_SIZE in Hra.
        replace ((j <? 0) || (j >=? 100)) with true in Hra by lia. done. }
    rewrite (addressMap_in_range j RA0 s p' Hcur) in Hra by (unfold MEM_SIZE; lia).
    fold (entry (j / 10)) in Hra.
    destruct (valid (entry (j / 10))) eqn:Hval; [|done].
    destruct (frame_in_range (frame (entry (j / 10)))); [|done].
    simpl in Hra. injection Hra as <-.
    assert (0 <= j / 10 < 10) as Hpg
      by (split; [apply Z.div_pos|apply Z.div_lt_upper_bound]; lia).
    apply Hvalid in Hval; [|done].
    destruct (Hstored j) as (Hv2 & Hf2 & _); [lia|].
    assert (0 <= j / 2 < (n + 1) / 2) as Hpg2 by (apply Hhalfpage; lia).
    destruct (Hloaded (j / 10)) as (_ & Hf10 & _); [lia|].
    unfold stored. intros Heq.
    pose proof (Z.mod_pos_bound j 2). pose proof (Z.mod_pos_bound j 10).
    assert (frame (entry (j / 10)) = frame (entry (j / 2))) as Hfr by lia.
    apply Hdistinct in Hfr; [|lia|lia].
    pose proof (Z.div_mod j 2). pose proof (Z.div_mod j 10). lia.
Qed.


Lemma loader_layout_and_fetch_witness :
  exists p' m' k',
    loadProgramIntoMemory entropy_spread 2 (new_PCB 1 10 10 30) sample_code
      sample_memory = Some (p', m', k') /\
    (forall i, 0 <= i < FRAME_COUNT ->
       valid (pageTable p' !!! Z.to_nat i) = true <-> i < 2) /\
    forall s RA0, currentPCB s = Some p' -> mem s = m' ->
      exists ra, addressMap 2 RA0 s = Ret (true, ra) s /\ read_word (mem s) ra = word0.
Proof.
  destruct (loadProgramIntoMemory entropy_spread 2 (new_PCB 1 10 10 30) sample_code
              sample_memory) as [[[p' m'] k']|] eqn:Hload;
    [|vm_compute in Hload; discriminate].
  exists p', m', k'. split; [reflexivity|].
  assert (Hpre : exists f, 0 <= f < FRAME_COUNT /\
            PTR (new_PCB 1 10 10 30) = f * PAGE_SIZE /\
            allocated sample_memory !!! Z.to_nat f = true).
  { exists 3. unfold FRAME_COUNT. split; [lia|]. split; reflexivity. }
  assert (Hwf : mem_wf sample_memory) by (repeat split).
  destruct (loader_layout_and_fetch entropy_spread 2 (new_PCB 1 10 10 30) sample_code
              sample_memory p' m' k' entropy_spread_in_range Hwf Hpre Hload)
    as (_ & Hvalid & _ & _ & _ & Hnul & _).
  split; [exact Hvalid|].
  intros s RA0 Hcur Hmem.
  destruct (Hnul s 2 RA0 Hcur Hmem) as (ra & Hra & Hword & _);
    [lia | vm_compute; discriminate |].
  exists ra. split; assumption.
Defined.


(** ** Termination releases the frames of the job *)

Lemma releaseFrame_wf (f : Z) (m : Memory) : mem_wf m -> mem_wf (releaseFrame f m).
Proof.
  intros (Hd & Ha & Hl). unfold releaseFrame, unlockFrame, clearFrame.
  split_and!; cbn [data allocated locked_frames set_data set_allocated set_locked_frames].
  - by rewrite clear_words_length.
  - by rewrite length_insert.
  - by rewrite length_insert.
Qed.

Lemma releaseFrame_free (f : Z) (m : Memory) :
  mem_wf m -> 0 <= f < FRAME_COUNT -> frame_free (releaseFrame f m) f.
Proof.
  intros (Hd & Ha & Hl) Hf. unfold FRAME_COUNT in *. split_and!.
  - unfold releaseFrame, unlockFrame, clearFrame.
    cbn [data allocated locked_frames set_data set_allocated set_locked_frames].
    apply list_lookup_total_insert_eq. unfold FRAME_COUNT in *. lia.
  - unfold releaseFrame, unlockFrame, clearFrame.
    cbn [data allocated locked_frames set_data set_allocated set_locked_frames].
    apply list_lookup_total_insert_eq. unfold FRAME_COUNT in *. lia.
  - intros o Ho. unfold PAGE_SIZE in *.
    change (read_word (releaseFrame f m) (f * 10 + o))
      with (read_word (clearFrame f (set_allocated (<[Z.to_nat f := false]> (allocated m)) m))
              (f * 10 + o)).
    rewrite read_clearFrame by lia. rewrite bool_decide_eq_true_2 by lia. done.
Qed.

Lemma releaseFrame_keeps_free (f g : Z) (m : Memory) :
  0 <= f -> 0 <= g ->
  frame_free m g -> frame_free (releaseFrame f m) g.
Proof.
  intros Hf Hg (Ha & Hl & Hw). split_and!.
  - unfold releaseFrame, unlockFrame, clearFrame.
    cbn [data allocated locked_frames set_data set_allocated set_locked_frames].
    destruct (decide (Z.to_nat f = Z.to_nat g)) as [Heq|Hne].
    + rewrite Heq. destruct (decide (Z.to_nat g < length (allocated m))%nat).
      * by apply list_lookup_total_insert_eq.
      * rewrite list_insert_ge by lia. done.
    + by rewrite list_lookup_total_insert_ne.
  - unfold releaseFrame, unlockFrame, clearFrame.
    cbn [data allocated locked_frames set_data set_allocated set_locked_frames].
    destruct (decide (Z.to_nat f = Z.to_nat g)) as [Heq|Hne].
    + rewrite Heq. destruct (decide (Z.to_nat g < length (locked_frames m))%nat).
      * by apply list_lookup_total_insert_eq.
      * rewrite list_insert_ge by lia. done.
    + by rewrite list_lookup_total_insert_ne.
  - intros o Ho. unfold PAGE_SIZE in *.
    change (read_word (releaseFrame f m) (g * 10 + o))
      with (read_word (clearFrame f (set_allocated (<[Z.to_nat f := false]> (allocated m)) m))
              (g * 10 + o)).
    rewrite read_clearFrame by lia.
    destruct (bool_decide (f * 10 <= g * 10 + o < f * 10 + 10)); [done|].
    by apply Hw.
Qed.

Lemma release_pages_spec (pt : list PageTableEntry) :
  forall (m : Memory) pt' m',
  release_pages pt m = (pt', m') -> mem_wf m ->
  mem_wf m' /\
  length pt' = length pt /\
  (forall i e', pt' !! i = Some e' ->
     valid e' = false /\ exists e, pt !! i = Some e /\ frame e' = frame e) /\
  (forall i e, pt !! i = Some e -> valid e = true -> 0 <= frame e < FRAME_COUNT ->
     frame_free m' (frame e)) /\
  (forall g, 0 <= g -> frame_free m g -> frame_free m' g).
Proof.
  induction pt as [|e pt IH]; intros m pt' m' Hrel Hm; simpl in Hrel.
  - injection Hrel as <- <-. split_and!; [done|done| | |done]; intros i ?; by destruct i.
  - destruct (valid e) eqn:Hv.
    + set (m1 := if frame_in_range (frame e) then releaseFrame (frame e) m else m) in *.
      destruct (release_pages pt m1) as [rest' m2] eqn:Hrest.
      injection Hrel as <- <-.
      assert (Hm1 : mem_wf m1) by (unfold m1; destruct (frame_in_range _);
                                   [by apply releaseFrame_wf|done]).
      destruct (IH m1 rest' m2 Hrest Hm1) as (Hm2 & Hlen & Hinv & Hfree & Hkeep).
      split_and!; [done|simpl; lia| | |].
      * intros [|i] e' He'; simpl in *.
        -- injection He' as <-. split; [done|]. by exists e.
        -- by apply Hinv.
      * intros [|i] e0 He0 Hv0 Hf0; simpl in *.
        -- injection He0 as ->. apply Hkeep; [lia|].
           unfold m1, frame_in_range.
           replace ((0 <=? frame e0) && (frame e0 <? FRAME_COUNT)) with true by lia.
           by apply releaseFrame_free.
        -- by apply (Hfree i).
      * intros g Hg Hfg. apply Hkeep; [done|]. unfold m1.
        destruct (frame_in_range (frame e)) eqn:Hr; [|done].
        apply releaseFrame_keeps_free; [|done|done].
        unfold frame_in_range in Hr. lia.
    + destruct (release_pages pt m) as [rest' m2] eqn:Hrest.
      injection Hrel as <- <-.
      destruct (IH m rest' m2 Hrest Hm) as (Hm2 & Hlen & Hinv & Hfree & Hkeep).
      split_and!; [done|simpl; lia| | |done].
      * intros [|i] e' He'; simpl in *.
        -- injection He' as <-. split; [done|]. by exists e.
        -- by apply Hinv.
      * intros [|i] e0 He0 Hv0 Hf0; simpl in *.
        -- injection He0 as ->. congruence.
        -- by apply (Hfree i).
Qed.

(** [retire] on a well-formed PCB: it succeeds, and every frame of the
    job is released in the memory it returns. *)
Lemma retire_spec (p : PCB) (m : Memory) :
  mem_wf m -> pcb_wf p ->
  exists p' m', retire p m = Some (p', m') /\
    mem_wf m' /\
    state (context p') = TERMINATED /\ terminated p' = true /\ dataCards p' = [] /\
    frame_free m' (Z.quot (PTR p) PAGE_SIZE) /\
    (forall i e, pageTable p !! i = Some e -> valid e = true -> frame_free m' (frame e)) /\
    (forall i e, pageTable p' !! i = Some e -> valid e = false) /\
    (forall g, 0 <= g -> frame_free m g -> frame_free m' g).
Proof.
  intros Hm (Hlen & (f & Hf & HPTR) & Hframes). unfold retire, release_table_frame.
  assert (Hq : Z.quot (PTR p) PAGE_SIZE = f).
  { rewrite HPTR. unfold PAGE_SIZE. apply Z.quot_mul. lia. }
  rewrite Hq.
  destruct (Z.eqb_spec (PTR p) (-1)) as [Hbad|_];
    [unfold PAGE_SIZE, FRAME_COUNT in *; lia|].
  unfold frame_in_range.
  replace ((0 <=? f) && (f <? FRAME_COUNT)) with true by lia.
  destruct (release_pages (pageTable p) (releaseFrame f m)) as [pt m2] eqn:Hrel.
  destruct (release_pages_spec _ _ _ _ Hrel (releaseFrame_wf f m Hm))
    as (Hm2 & Hlen2 & Hinv & Hfree & Hkeep).
  eexists _, _. split; [reflexivity|].
  split_and!; try done.
  - apply Hkeep; [lia|]. by apply releaseFrame_free.
  - intros i e He Hv. apply (Hfree i); [done|done|]. by apply (Hframes i).
  - intros i e He. cbn in He. by destruct (Hinv i e He).
  - intros g Hg Hfg. apply Hkeep; [done|]. apply releaseFrame_keeps_free; [lia|done|done].
Qed.


Lemma pcb_wf_set_pcb_state (v : ProcessState) (p : PCB) :
  pcb_wf p -> pcb_wf (set_pcb_state v p).
Proof. done. Qed.

(** The state [terminate] ends in, field by field. *)
Lemma terminate_spec (code : EM_Code) (s : MOS) (p : PCB) :
  state_wf s -> currentPCB s = Some p ->
  exists p' s', terminate code s = Ret tt s' /\
    retire p (mem s) = Some (p', mem s') /\
    state_wf s' /\
    outFile s' = outFile s ++ [OutTerminated (pid p) code (TTC p) (LLC p)] /\
    readyQueue s' = tail (readyQueue s) /\
    currentPCB s' = option_map (set_pcb_state RUNNING) (head (readyQueue s)) /\
    systemRunning s' = (systemRunning s && negb (bool_decide (readyQueue s = []))) /\
    globalTimer s' = globalTimer s /\
    console s' = console s /\
    SI (cpu s') = 0 /\ PI (cpu s') = 0 /\ TI (cpu s') = 0.
Proof.
  intros (Hm & Hcur & Hq) Hp.
  destruct (retire_spec p (mem s) Hm (Hcur p Hp))
    as (p' & m' & Hret & Hm' & _).
  unfold terminate. rewrite Hp. cbn [mem set_outFile]. rewrite Hret.
  exists p'.
  destruct (ProcessState_eqb _ _), (readyQueue s) as [|next rest] eqn:Hqueue;
    cbn; rewrite ?Hqueue; cbn;
    (eexists; split; [reflexivity|]); cbn;
    (split_and!; try done; try (by destruct (systemRunning s)));
    unfold state_wf; cbn; (split_and!; [done| |]);
    first [ done
          | intros ? [= <-]; apply pcb_wf_set_pcb_state; by inversion Hq
          | by inversion Hq
          | by rewrite Hqueue ].
Qed.


Lemma sample_MOS_wf : state_wf sample_MOS.
Proof.
  split_and!.
  - repeat split.
  - intros p [= <-]. split_and!; [reflexivity|exists 3; by unfold FRAME_COUNT|].
    intros i e He Hv. unfold FRAME_COUNT.
    do 10 (destruct i as [|i]; [injection He as <-; simpl in *; try done; lia|]).
    done.
  - constructor.
Qed.



(** ** What the handlers leave alone

    The handlers, the mapper and the dispatcher change the state only
    through the CPU, memory words, fields of the current PCB other than
    its page table, [PTR] and [terminated], the output, and [terminate].
    A preorder on states that admits these changes relates the state
    before each of them to the state it ends in. *)

Section Frame.

Context (Rel : MOS -> MOS -> Prop) `{!Reflexive Rel} `{!Transitive Rel}.

Hypothesis Rel_cpu : forall s c, Rel s (set_cpu c s).
Hypothesis Rel_write : forall s a w, Rel s (set_mem (write_word a w (mem s)) s).
Hypothesis Rel_current : forall s p p',
  currentPCB s = Some p ->
  pageTable p' = pageTable p -> PTR p' = PTR p -> terminated p' = terminated p ->
  Rel s (set_currentPCB (Some p') s).
Hypothesis Rel_emit : forall s o, Rel s (set_outFile o s).
Hypothesis Rel_terminate : forall code, stays Rel (terminate code).

Lemma modify_cpu_stays (f : CPUState -> CPUState) : stays Rel (modify_cpu f).
Proof. intros s. apply Rel_cpu. Qed.

Lemma modify_current_stays (f : PCB -> PCB) :
  (forall p, pageTable (f p) = pageTable p /\ PTR (f p) = PTR p /\
             terminated (f p) = terminated p) ->
  stays Rel (modify_current f).
Proof.
  intros Hf s. unfold modify_current.
  destruct (currentPCB s) as [p|] eqn:Hp; simpl; [|reflexivity].
  destruct (Hf p) as (? & ? & ?). by apply (Rel_current s p).
Qed.

Ltac stays_with tac :=
  repeat first
    [ progress intros
    | tac
    | apply stays_ret; assumption
    | apply stays_get; assumption
    | apply stays_deref; assumption
    | apply modify_cpu_stays
    | apply Rel_terminate
    | apply modify_current_stays; done
    | apply stays_modify; intros ?; first [apply Rel_cpu | apply Rel_write | apply Rel_emit]
    | apply stays_bind; [assumption| |]
    | match goal with
      | |- stays _ (if ?b then _ else _) => destruct b
      | |- stays _ (match ?x with _ => _ end) => destruct x
      end ].

Lemma addressMap_stays (VA RA0 : Z) : stays Rel (addressMap VA RA0).
Proof. unfold addressMap. stays_with fail. Qed.

Lemma handleRead_chunks_stays (cs : list string) (k : Z) :
  stays Rel (handleRead_chunks k cs).
Proof.
  revert k. induction cs as [|c cs IH]; intros k; cbn [handleRead_chunks].
  - by apply stays_ret.
  - unfold modify_mem. stays_with ltac:(first [apply addressMap_stays | apply IH]).
Qed.

Lemma handleRead_stays : stays Rel handleRead.
Proof. unfold handleRead. stays_with ltac:(apply handleRead_chunks_stays). Qed.

Lemma handleWrite_stays : stays Rel handleWrite.
Proof. unfold handleWrite, emit. stays_with ltac:(apply addressMap_stays). Qed.

Lemma call_stays (h : Handler) : stays Rel (call h).
Proof.
  destruct h; cbn [call]; try apply Rel_terminate.
  - apply handleRead_stays.
  - apply handleWrite_stays.
Qed.

Lemma saveContext_stays : stays Rel saveContext.
Proof.
  intros s. unfold saveContext.
  destruct (currentPCB s) as [p|] eqn:Hp; simpl; [|reflexivity].
  by apply (Rel_current s p).
Qed.

Lemma restoreContext_stays : stays Rel restoreContext.
Proof.
  intros s. unfold restoreContext.
  destruct (currentPCB s) as [p|] eqn:Hp; simpl; [|reflexivity].
  destruct (_ =? _); simpl;
    (etrans; [apply (Rel_current s p (set_pcb_state RUNNING p)); done | apply Rel_cpu]).
Qed.

Lemma handleInterrupt_stays : stays Rel handleInterrupt.
Proof.
  unfold handleInterrupt.
  stays_with ltac:(first [apply saveContext_stays | apply call_stays
                         | apply restoreContext_stays]).
Qed.

Lemma executeArithmeticLogic_stays (op : string) (target : Z) :
  stays Rel (executeArithmeticLogic op target).
Proof. unfold executeArithmeticLogic. stays_with ltac:(apply addressMap_stays). Qed.

(** [executeInstruction] after its trace message. *)
Lemma executeInstruction_stays (s : MOS) :
  Rel (set_console (EvExecuting :: console s) s) (final (executeInstruction s)).
Proof.
  unfold executeInstruction. unfold bind at 1. unfold get at 1.
  unfold bind at 1. unfold debugPrint at 1. unfold modify at 1.
  match goal with |- Rel ?s1 (final (?k ?s1)) => enough (Hk : stays Rel k) by apply Hk end.
  unfold handleTerminate.
  stays_with ltac:(first [apply handleRead_stays | apply handleWrite_stays
                         | apply addressMap_stays | apply handleInterrupt_stays
                         | apply executeArithmeticLogic_stays]).
Qed.

End Frame.


(** *** The two instances: well-formedness, and the scheduling frame *)

Global Instance quiet_refl : Reflexive quiet.
Proof. intros s. by split_and!. Qed.

Global Instance quiet_trans : Transitive quiet.
Proof.
  intros s1 s2 s3 (Hc1 & Ht1 & Hq1) (Hc2 & Ht2 & Hq2).
  split_and!; [congruence|congruence|auto].
Qed.

Global Instance calm_refl : Reflexive calm.
Proof. intros s. split; [reflexivity|auto]. Qed.

Global Instance calm_trans : Transitive calm.
Proof. intros s1 s2 s3 [Hq1 Hj1] [Hq2 Hj2]. split; [by etrans|auto]. Qed.

Lemma calm_cpu (s : MOS) (c : CPUState) : calm s (set_cpu c s).
Proof. split; [by split_and!|intros H; exact H]. Qed.

Lemma calm_write (s : MOS) (a : Z) (w : Word) :
  calm s (set_mem (write_word a w (mem s)) s).
Proof. split; [by split_and!|intros H; exact H]. Qed.

Lemma calm_emit (s : MOS) (o : list OutItem) : calm s (set_outFile o s).
Proof. split; [by split_and!|intros H; exact H]. Qed.

Lemma calm_current (s : MOS) (p p' : PCB) :
  currentPCB s = Some p ->
  pageTable p' = pageTable p -> PTR p' = PTR p -> terminated p' = terminated p ->
  calm s (set_currentPCB (Some p') s).
Proof.
  intros Hp _ _ Ht. split; [by split_and!|].
  intros ((Hcur & Hlive) & _). split; [split|]; cbn; try done.
  intros ? [= <-]. rewrite Ht. by apply Hcur.
Qed.

Lemma calm_terminate (code : EM_Code) : stays calm (terminate code).
Proof.
  intros s. unfold terminate.
  destruct (currentPCB s) as [p|] eqn:Hp; [|reflexivity].
  cbn [mem set_outFile].
  destruct (retire p (mem s)) as [[p' m']|]; [|apply calm_emit].
  destruct (ProcessState_eqb _ _), (readyQueue s) as [|next rest] eqn:Hq;
    cbn; rewrite ?Hq; cbn;
    (split; [split_and!; [done|done|intros Hempty; first [done|discriminate|congruence]]|]);
    intros ((Hcur & Hlive) & Hnone); rewrite ?Hq in Hlive;
    (split; [split|]); cbn; try done;
    first [ by rewrite Hq
          | intros ? [= <-]; by inversion Hlive
          | by inversion Hlive ].
Qed.

Lemma wf_terminate (code : EM_Code) : stays (keeps state_wf) (terminate code).
Proof.
  intros s Hwf. destruct (currentPCB s) as [p|] eqn:Hp.
  - destruct (terminate_spec code s p Hwf Hp) as (p' & s' & -> & _ & Hwf' & _). done.
  - unfold terminate. by rewrite Hp.
Qed.

Lemma wf_cpu (s : MOS) (c : CPUState) : keeps state_wf s (set_cpu c s).
Proof. by intros ?. Qed.

Lemma wf_write (s : MOS) (a : Z) (w : Word) :
  keeps state_wf s (set_mem (write_word a w (mem s)) s).
Proof.
  intros ((Hd & Ha & Hl) & Hcur & Hq). split; [|done].
  split_and!; [|done|done].
  unfold write_word. cbn [mem set_mem data set_data]. by rewrite length_insert.
Qed.

Lemma wf_emit (s : MOS) (o : list OutItem) : keeps state_wf s (set_outFile o s).
Proof. by intros ?. Qed.

Lemma wf_current (s : MOS) (p p' : PCB) :
  currentPCB s = Some p ->
  pageTable p' = pageTable p -> PTR p' = PTR p -> terminated p' = terminated p ->
  keeps state_wf s (set_currentPCB (Some p') s).
Proof.
  intros Hp Hpt HPTR _ (Hm & Hcur & Hq). split_and!; try done.
  intros ? [= <-]. specialize (Hcur p Hp). unfold pcb_wf in *.
  rewrite Hpt, HPTR. done.
Qed.


Create HintDb frame.

#[export] Hint Resolve wf_cpu wf_write wf_current wf_emit wf_terminate
  calm_cpu calm_write calm_current calm_emit calm_terminate : frame.

Ltac stays_go tac :=
  repeat first
    [ progress intros
    | tac
    | apply stays_ret; apply _
    | apply stays_get; apply _
    | apply stays_deref; apply _
    | apply stays_out_of_fuel; apply _
    | apply stays_bind; [apply _| |]
    | match goal with
      | |- stays _ (if ?b then _ else _) => destruct b
      | |- stays _ (match ?x with _ => _ end) => destruct x
      end ].

(** ** The context switch *)

Lemma contextSwitch_spec (s : MOS) (p next : PCB) (rest : list PCB) :
  currentPCB s = Some p ->
  readyQueue s ++ [saved_context s p] = next :: rest ->
  contextSwitch s =
  Ret tt (set_cpu (set_IC (restored_IC next) (cpu s))
            (set_currentPCB (Some (set_pcb_state RUNNING next))
               (set_readyQueue rest
                  (set_console (EvSwitch :: console s) s)))).
Proof.
  intros Hp Hq. unfold contextSwitch, bind, debugPrint, modify, saveContext, deref.
  cbn. rewrite Hp. cbn.
  change (set_context _ p) with (saved_context s p). rewrite Hq.
  unfold restoreContext, restored_IC. cbn.
  by destruct (programCounter (context next) =? -1).
Qed.

Lemma contextSwitch_null (s : MOS) :
  currentPCB s = None ->
  contextSwitch s = Fault (set_console (EvSwitch :: console s) s).
Proof.
  intros Hp. unfold contextSwitch, bind, debugPrint, modify, saveContext, deref.
  cbn. rewrite Hp. cbn. rewrite Hp. reflexivity.
Qed.

Lemma contextSwitch_cases (s : MOS) :
  (currentPCB s = None /\
   contextSwitch s = Fault (set_console (EvSwitch :: console s) s)) \/
  (exists p next rest, currentPCB s = Some p /\
     readyQueue s ++ [saved_context s p] = next :: rest /\
     contextSwitch s =
     Ret tt (set_cpu (set_IC (restored_IC next) (cpu s))
               (set_currentPCB (Some (set_pcb_state RUNNING next))
                  (set_readyQueue rest
                     (set_console (EvSwitch :: console s) s))))).
Proof.
  destruct (currentPCB s) as [p|] eqn:Hp.
  - right. destruct (readyQueue s ++ [saved_context s p]) as [|next rest] eqn:Hq.
    { by destruct (readyQueue s). }
    exists p, next, rest. split_and!; [done|done|]. by apply (contextSwitch_spec s p).
  - left. split; [done|]. by apply contextSwitch_null.
Qed.

(** ** Well-formedness is kept by the executor *)

Lemma wf_addressMap (VA RA0 : Z) : stays (keeps state_wf) (addressMap VA RA0).
Proof. apply addressMap_stays; eauto with frame; apply _. Qed.

Lemma wf_handleInterrupt : stays (keeps state_wf) handleInterrupt.
Proof. apply handleInterrupt_stays; eauto with frame; apply _. Qed.

Lemma wf_executeInstruction : stays (keeps state_wf) executeInstruction.
Proof.
  intros s Hwf.
  exact (executeInstruction_stays (keeps state_wf)
           wf_cpu wf_write wf_current wf_emit wf_terminate s Hwf).
Qed.

Lemma wf_contextSwitch : stays (keeps state_wf) contextSwitch.
Proof.
  intros s Hwf.
  destruct (contextSwitch_cases s) as [[_ ->]|(p & next & rest & Hp & Hq & ->)];
    [done|].
  destruct Hwf as (Hm & Hcur & Hqueue). cbn.
  assert (Hall : Forall pcb_wf (next :: rest)).
  { rewrite <- Hq. apply Forall_app. split; [done|].
    constructor; [|constructor]. by apply (Hcur p). }
  inversion Hall; subst. split_and!; cbn; [done| |done].
  intros ? [= <-]. by apply pcb_wf_set_pcb_state.
Qed.

Lemma wf_checkTimeSlice : stays (keeps state_wf) checkTimeSlice.
Proof. unfold checkTimeSlice. stays_go ltac:(apply wf_contextSwitch). Qed.

Lemma wf_modify_current (f : PCB -> PCB) :
  (forall p, pageTable (f p) = pageTable p /\ PTR (f p) = PTR p /\
             terminated (f p) = terminated p) ->
  stays (keeps state_wf) (modify_current f).
Proof. intros Hf. apply modify_current_stays; eauto with frame. apply _. Qed.

Lemma wf_executeJob_body : stays (keeps state_wf) executeJob_body.
Proof.
  unfold executeJob_body, modify_cpu.
  stays_go ltac:(first [ apply wf_terminate | apply wf_addressMap
                       | apply wf_executeInstruction | apply wf_handleInterrupt
                       | apply wf_checkTimeSlice
                       | apply wf_modify_current; done
                       | apply stays_modify; by intros ? ? ]).
Qed.

Lemma wf_executeJob_loop (fuel : nat) : stays (keeps state_wf) (executeJob_loop fuel).
Proof.
  induction fuel as [|fuel IH]; cbn [executeJob_loop];
    stays_go ltac:(first [apply wf_executeJob_body | apply IH]).
Qed.

Lemma wf_executeJob (fuel : nat) : stays (keeps state_wf) (executeJob fuel).
Proof.
  unfold executeJob.
  stays_go ltac:(first [apply wf_executeJob_loop | apply wf_modify_current; done]).
Qed.

Lemma wf_restoreContext : stays (keeps state_wf) restoreContext.
Proof. apply restoreContext_stays; eauto with frame; apply _. Qed.


Lemma wf_selectJob : stays (keeps state_wf) selectJob.
Proof.
  intros s Hwf. unfold selectJob.
  destruct (currentPCB s) eqn:Hp; [done|].
  destruct (readyQueue s) as [|next rest] eqn:Hq; [done|].
  assert (Hwf' : state_wf (set_readyQueue rest (set_currentPCB (Some next) s))).
  { destruct Hwf as (Hm & _ & Hall). rewrite Hq in Hall. inversion Hall; subst.
    split_and!; cbn; [done| |done]. by intros ? [= <-]. }
  revert Hwf'. generalize (set_readyQueue rest (set_currentPCB (Some next) s)).
  change (stays (keeps state_wf) (restoreContext ;; ret true)).
  stays_go ltac:(apply wf_restoreContext).
Qed.

Lemma wf_run_loop (fuel : nat) : stays (keeps state_wf) (run_loop fuel).
Proof.
  induction fuel as [|fuel IH]; cbn [run_loop];
    stays_go ltac:(first [apply wf_selectJob | apply wf_executeJob | apply IH]).
Qed.


(** ** The loader builds well-formed states *)

Lemma empty_pageTable_invalid (i : nat) (e : PageTableEntry) :
  empty_pageTable !! i = Some e -> valid e = false.
Proof.
  unfold empty_pageTable. intros H. apply lookup_replicate in H as [-> _]. done.
Qed.

Lemma new_PCB_wf (pid_ ttl tll fr : Z) :
  0 <= fr < FRAME_COUNT -> pcb_wf (new_PCB pid_ ttl tll (fr * PAGE_SIZE)).
Proof.
  intros Hfr. split_and!; [reflexivity|by exists fr|].
  intros i e He Hv. cbn in He. apply empty_pageTable_invalid in He. congruence.
Qed.

Lemma loaded_pcb_wf (instructions : list string) (p p' : PCB) (m' : Memory) (pages : Z) :
  pcb_wf p -> 0 <= pages ->
  pages_inv instructions p' m' pages ->
  p' = set_pageTable (pageTable p') p ->
  pcb_wf p'.
Proof.
  intros (_ & HPTR & _) Hpages (_ & Hlen & Hloaded & Hrest & _) Hp'.
  split_and!; [done|by rewrite Hp'|].
  intros i e He Hv.
  assert (Hi : (i < length (pageTable p'))%nat) by (by eapply lookup_lt_Some).
  rewrite Hlen in Hi. unfold FRAME_COUNT in *.
  assert (Hlook : pageTable p' !!! Z.to_nat (Z.of_nat i) = e).
  { rewrite Nat2Z.id. by apply list_lookup_total_correct. }
  destruct (Z.lt_ge_cases (Z.of_nat i) pages) as [Hlt|Hge].
  - destruct (Hloaded (Z.of_nat i)) as (_ & Hf & _); [lia|].
    rewrite Hlook in Hf. done.
  - rewrite Hrest in Hlook by lia. subst e. done.
Qed.

Lemma load_line_inv (e : Entropy) (line : string) (l l' : Loader) (s s' : MOS) :
  entropy_in_range e ->
  loader_inv l s ->
  load_line e line (l, s) = inr (l', s') ->
  loader_inv l' s'.
Proof.
  intros He (Hwf & Hlive & Hcur & Hcon & Hgt & Hrun & Hout & Hpcb) Hload.
  unfold load_line in Hload.
  destruct (starts_with "$AMJ" line).
  { destruct (card_field line 4) as [pid_|]; [|done].
    destruct (card_field line 8) as [ttl|]; [|done].
    destruct (card_field line 12) as [tll|]; [|done].
    destruct (allocateFrame (e (rdCalls l)) (mem s)) as [fr m] eqn:Halloc.
    destruct (Z.eqb_spec fr (-1)) as [|Hfr]; [done|].
    injection Hload as <- <-.
    destruct Hwf as (Hm & Hc & Hq).
    destruct (allocateFrame_result _ _ _ _ (He _) Hm Halloc)
      as [[? _]|(Hrange & _ & ->)]; [done|].
    pose proof Hm as (Hd & Ha & Hl).
    split_and!; try done.
    - split_and!; try done. split_and!; [done| |done]. cbn. by rewrite length_insert.
    - intros p [= <-]. split_and!; [by apply new_PCB_wf|done|].
      cbn. unfold PAGE_SIZE. rewrite Z.div_mul by lia.
      apply list_lookup_total_insert_eq. unfold FRAME_COUNT in *. lia. }
  destruct (starts_with "$DTA" line).
  { destruct (pcb l) as [p|] eqn:Hp.
    2:{ injection Hload as <- <-. split_and!; try done; cbn; by rewrite Hp. }
    destruct (String.eqb (programCode l) EmptyString).
    { injection Hload as <- <-. split_and!; try done. }
    destruct (loadProgramIntoMemory e (rdCalls l) p (programCode l) (mem s))
      as [[[p' m'] k']|] eqn:Hprog; [|done].
    injection Hload as <- <-.
    destruct Hwf as (Hm & Hc & Hq).
    destruct (loadProgramIntoMemory_spec _ _ _ _ _ _ _ _ He Hm Hprog)
      as (Hinv & _ & Hmono & _ & Hp').
    destruct (Hpcb p eq_refl) as (Hpwf & Hterm & Halloc).
    split_and!; try done.
    - split_and!; try done. by destruct Hinv.
    - intros ? [= <-]. split_and!.
      + eapply loaded_pcb_wf; [exact Hpwf| |exact Hinv|exact Hp'].
        assert (0 <= (Z.of_nat (length (instructions_of (programCode l))) + 1) / 2)
          by (apply Z.div_pos; lia).
        unfold FRAME_COUNT. lia.
      + by rewrite Hp'.
      + rewrite Hp'. cbn. by apply Hmono. }
  destruct (starts_with "$END" line).
  { destruct (pcb l) as [p|] eqn:Hp.
    2:{ injection Hload as <- <-. split_and!; try done. }
    injection Hload as <- <-.
    destruct (Hpcb p eq_refl) as (Hpwf & Hterm & _).
    destruct Hwf as (Hm & Hc & Hq). destruct Hlive as (Hlc & Hlq).
    split_and!; try done.
    - split_and!; try done. cbn. apply Forall_app. split; [done|]. by constructor.
    - split; [done|]. cbn. apply Forall_app. split; [done|]. by constructor. }
  destruct (pcb l) as [p|] eqn:Hp.
  2:{ injection Hload as <- <-. split_and!; try done; by rewrite Hp. }
  destruct (Hpcb p eq_refl) as (Hpwf & Hterm & Halloc).
  destruct (readingData l); injection Hload as <- <-; split_and!; try done;
    first [by intros ? [= <-] | cbn; by rewrite Hp].
Qed.

Lemma load_lines_inv (e : Entropy) (lines : list string) :
  entropy_in_range e ->
  forall (l l' : Loader) (s s' : MOS),
  loader_inv l s ->
  load_lines e lines (l, s) = inr (l', s') ->
  loader_inv l' s'.
Proof.
  intros He. induction lines as [|line lines IH]; intros l l' s s' Hinv Hload;
    cbn [load_lines] in Hload.
  - by injection Hload as <- <-.
  - destruct (load_line e line (l, s)) as [err|[l1 s1]] eqn:Hline; [done|].
    eapply IH; [|exact Hload]. by eapply load_line_inv.
Qed.

Lemma initial_MOS_inv (junk : list Word) (junkIR : Word) :
  length junk = Z.to_nat MEM_SIZE ->
  loader_inv (mkLoader None false EmptyString O) (initial_MOS junk junkIR).
Proof.
  intros Hlen. split_and!; try done.
Qed.

(** The states [run] goes through are well formed: [loadJobs] builds a
    well-formed state, and the run loop keeps it. *)
Lemma loadJobs_inv (e : Entropy) (lines : list string) (junk : list Word)
    (junkIR : Word) (s : MOS) :
  entropy_in_range e -> length junk = Z.to_nat MEM_SIZE ->
  loadJobs e lines (initial_MOS junk junkIR) = inr s ->
  state_wf s /\ live s /\ currentPCB s = None /\ console s = [] /\
  globalTimer s = 0 /\ systemRunning s = true /\ outFile s = [].
Proof.
  intros He Hlen Hload. unfold loadJobs in Hload.
  destruct (load_lines e lines _) as [err|[l' s']] eqn:Hlines; [done|].
  injection Hload as ->.
  destruct (load_lines_inv e lines He _ _ _ _ (initial_MOS_inv junk junkIR Hlen) Hlines)
    as (? & ? & ? & ? & ? & ? & ? & _).
  done.
Qed.

Lemma run_well_formed (e : Entropy) (lines : list string) (junk : list Word)
    (junkIR : Word) (s : MOS) (fuel : nat) :
  entropy_in_range e -> length junk = Z.to_nat MEM_SIZE ->
  loadJobs e lines (initial_MOS junk junkIR) = inr s ->
  state_wf (final (run_loop fuel s)).
Proof.
  intros He Hlen Hload. apply wf_run_loop.
  by destruct (loadJobs_inv e lines junk junkIR s He Hlen Hload).
Qed.


(** ** Quantum regularity *)

Lemma quantum_regular_nil : quantum_regular [].
Proof. intros pre mid post H. by destruct pre. Qed.

Lemma quantum_regular_cons_executing (l : list Event) :
  quantum_regular l -> quantum_regular (EvExecuting :: l).
Proof.
  intros H pre mid post Heq Hmid.
  destruct pre as [|ev pre]; [done|].
  injection Heq as _ Heq. by apply (H pre mid post).
Qed.

Lemma since_switch_app (mid post : list Event) :
  Forall (fun ev => ev = EvExecuting) mid ->
  since_switch (mid ++ EvSwitch :: post) = length mid /\
  switched (mid ++ EvSwitch :: post) = true.
Proof.
  induction 1 as [|ev mid -> _ [IH1 IH2]]; simpl; [done|].
  by rewrite IH1, IH2.
Qed.

Lemma quantum_regular_cons_switch (l : list Event) :
  quantum_regular l ->
  (switched l = true -> since_switch l = 10%nat) ->
  quantum_regular (EvSwitch :: l).
Proof.
  intros H Hten pre mid post Heq Hmid.
  destruct pre as [|ev pre]; injection Heq as Heq.
  - subst l. destruct (since_switch_app mid post Hmid) as [Hs Hw].
    rewrite <- Hs. by apply Hten.
  - by apply (H pre mid post).
Qed.

Lemma quantum_regular_rev (l : list Event) :
  quantum_regular l -> quantum_regular (rev l).
Proof.
  intros H pre mid post Heq Hmid.
  apply (f_equal (@rev Event)) in Heq. rewrite rev_involutive in Heq.
  rewrite rev_app_distr in Heq. cbn [rev] in Heq.
  rewrite rev_app_distr in Heq. cbn [rev] in Heq.
  rewrite <- !app_assoc in Heq. cbn [app] in Heq.
  rewrite <- (length_rev mid).
  apply (H (rev post) (rev mid) (rev pre)); [done|].
  by apply Forall_rev.
Qed.

Lemma outcome_bind {A B} (m : M A) (k : A -> M B) (s : MOS)
    (Q : A -> MOS -> Prop) (R : B -> MOS -> Prop) :
  outcome Q (m s) ->
  (forall a s1, m s = Ret a s1 -> Q a s1 -> outcome R (k a s1)) ->
  outcome R (bind m k s).
Proof.
  intros Hm Hk. unfold bind. destruct (m s) as [a s1|s1|s1]; cbn in *; auto.
Qed.

Lemma outcome_ret {A} (a : A) (s : MOS) (Q : A -> MOS -> Prop) :
  Q a s -> outcome Q (ret a s).
Proof. done. Qed.

Lemma outcome_get (s : MOS) (Q : MOS -> Prop) :
  Q s -> outcome (fun a s' => a = s' /\ Q s') (get s).
Proof. done. Qed.

(** An invariant that a calm step keeps and that implies a regular
    trace holds after a calm computation. *)
Lemma outcome_calm {A} (Inv : MOS -> Prop) (m : M A) (s : MOS) :
  (forall s s', Inv s -> calm s s' -> Inv s') ->
  (forall s, Inv s -> quantum_regular (console s)) ->
  stays calm m -> Inv s ->
  outcome (fun _ s' => Inv s') (m s).
Proof.
  intros Hstable Hreg Hm HI. specialize (Hm s).
  destruct (m s) as [a s1|s1|s1]; cbn in *; eauto.
Qed.

Lemma sched_inv_calm (s s' : MOS) : sched_inv s -> calm s s' -> sched_inv s'.
Proof.
  intros (Hreg & Hjob & Hph) ((Hc & Ht & Hq) & Hj).
  split_and!; [by rewrite Hc|auto|].
  intros Hne Hsw. rewrite Hc, Ht in *. apply Hph; [|done].
  intros Hempty. by apply Hne, Hq.
Qed.

Lemma mid_inv_calm (d : Z) (s s' : MOS) : mid_inv d s -> calm s s' -> mid_inv d s'.
Proof.
  intros (Hreg & Hjob & c & Hcon & Hph) ((Hc & Ht & Hq) & Hj).
  split_and!; [by rewrite Hc|auto|].
  exists c. split; [congruence|].
  intros Hne Hsw. rewrite Ht. apply Hph; [|done].
  intros Hempty. by apply Hne, Hq.
Qed.

Lemma sched_inv_regular (s : MOS) : sched_inv s -> quantum_regular (console s).
Proof. by intros (? & _). Qed.

Lemma mid_inv_regular (d : Z) (s : MOS) : mid_inv d s -> quantum_regular (console s).
Proof. by intros (? & _). Qed.


Lemma calm_addressMap (VA RA0 : Z) : stays calm (addressMap VA RA0).
Proof. apply addressMap_stays; eauto with frame; apply _. Qed.

Lemma calm_handleInterrupt : stays calm handleInterrupt.
Proof. apply handleInterrupt_stays; eauto with frame; apply _. Qed.

Lemma calm_restoreContext : stays calm restoreContext.
Proof. apply restoreContext_stays; eauto with frame; apply _. Qed.

Lemma calm_modify_current (f : PCB -> PCB) :
  (forall p, pageTable (f p) = pageTable p /\ PTR (f p) = PTR p /\
             terminated (f p) = terminated p) ->
  stays calm (modify_current f).
Proof. intros Hf. apply modify_current_stays; eauto with frame. apply _. Qed.

Lemma calm_modify_cpu (f : CPUState -> CPUState) : stays calm (modify_cpu f).
Proof. apply modify_cpu_stays. apply calm_cpu. Qed.

Lemma calm_executeInstruction (s : MOS) :
  calm (set_console (EvExecuting :: console s) s) (final (executeInstruction s)).
Proof.
  exact (executeInstruction_stays calm
           calm_cpu calm_write calm_current calm_emit calm_terminate s).
Qed.

Lemma rem_zero_mod (a : Z) : Z.rem a 10 = 0 <-> a mod 10 = 0.
Proof.
  rewrite Z.rem_divide by lia. rewrite Z.mod_divide by lia. done.
Qed.

Lemma timeSliceExpired_iff (s : MOS) :
  timeSliceExpired s = true <-> globalTimer s mod 10 = 0 /\ readyQueue s <> [].
Proof.
  unfold timeSliceExpired. rewrite andb_true_iff, Z.eqb_eq, rem_zero_mod.
  rewrite negb_true_iff, bool_decide_eq_false. done.
Qed.

(** The check at the end of an iteration re-establishes the invariant
    of the loop. *)
Lemma checkTimeSlice_sched (s : MOS) :
  mid_inv 1 s -> outcome (fun _ s' => sched_inv s') (checkTimeSlice s).
Proof.
  intros (Hreg & ((Hlc & Hlq) & Hnone) & c & Hcon & Hph).
  unfold checkTimeSlice, bind, get.
  destruct (timeSliceExpired s) eqn:Hexp.
  - apply timeSliceExpired_iff in Hexp as [Hmod Hne].
    assert (Hreg' : quantum_regular (EvSwitch :: console s)).
    { apply quantum_regular_cons_switch; [done|]. rewrite Hcon. cbn.
      intros Hsw. destruct (Hph Hne Hsw) as [Hlt Hm].
      apply Z.mod_divide in Hm; [|lia]. apply Z.mod_divide in Hmod; [|lia].
      destruct Hm as [k1 Hk1], Hmod as [k2 Hk2]. lia. }
    destruct (contextSwitch_cases s) as [[_ ->]|(p & next & rest & Hp & Hq & ->)];
      [done|].
    cbn. split_and!; cbn; [done| |].
    + assert (Hall : Forall (fun p => terminated p = false) (next :: rest)).
      { rewrite <- Hq. apply Forall_app. split; [done|].
        constructor; [|done]. cbn. by apply Hlc. }
      inversion Hall; subst. split; [split|]; cbn; [|done|done].
      by intros ? [= <-].
    + intros _ _. cbn. split; [lia|]. by rewrite Z.sub_0_r, Z.sub_0_r.
  - cbn. split_and!; [done|done|].
    intros Hne Hsw. rewrite Hcon in *. cbn in Hsw. cbn.
    destruct (Hph Hne Hsw) as [Hlt Hm].
    assert (Hnot : globalTimer s mod 10 <> 0).
    { intros Hmod. assert (timeSliceExpired s = true) by (by apply timeSliceExpired_iff).
      congruence. }
    split.
    + destruct (decide (since_switch c = 9%nat)) as [H9|]; [|lia].
      exfalso. apply Hnot. rewrite H9 in Hm.
      apply Z.mod_divide in Hm; [|lia]. apply Z.mod_divide; [lia|].
      destruct Hm as [k Hk]. exists (k + 1). lia.
    + replace (globalTimer s - 0 - Z.of_nat (S (since_switch c)))
        with (globalTimer s - 1 - Z.of_nat (since_switch c)) by lia.
      done.
Qed.

Lemma mid_inv_gone (s : MOS) : mid_inv 1 s -> gone s = true -> sched_inv s.
Proof.
  intros (Hreg & ((Hlc & Hlq) & Hnone) & c & Hcon & Hph) Hgone.
  split_and!; [done|done|].
  intros Hne. unfold gone in Hgone. destruct (currentPCB s) as [p|].
  - rewrite (Hlc p) in Hgone; done.
  - by destruct Hne, Hnone.
Qed.


Lemma post_bind {A B} (m : M A) (k : A -> M B) (s : MOS)
    (Q : A -> MOS -> Prop) (R : B -> MOS -> Prop) (E : MOS -> Prop) :
  post Q E (m s) ->
  (forall a s1, m s = Ret a s1 -> Q a s1 -> post R E (k a s1)) ->
  post R E (bind m k s).
Proof.
  intros Hm Hk. unfold bind. destruct (m s) as [a s1|s1|s1]; cbn in *; auto.
Qed.

Lemma post_get (s : MOS) (Q : MOS -> Prop) (E : MOS -> Prop) :
  Q s -> post (fun a s' => a = s' /\ Q s') E (get s).
Proof. done. Qed.

Lemma post_calm {A} (Inv E : MOS -> Prop) (m : M A) (s : MOS) :
  (forall s s', Inv s -> calm s s' -> Inv s') ->
  (forall s, Inv s -> E s) ->
  stays calm m -> Inv s ->
  post (fun _ s' => Inv s') E (m s).
Proof.
  intros Hstable HE Hm HI. specialize (Hm s).
  destruct (m s) as [a s1|s1|s1]; cbn in *; eauto.
Qed.

(** *** One iteration of the loop of [executeJob]

    The iteration runs through three stages, each with an invariant
    that calm steps keep: before the instruction ([I0]), after its trace
    message ([I1]), and after the clock has ticked ([I2]).  It ends in
    [F], by an early return from the first stage, by the return after the
    dispatch, or through the check of the time slice. *)

Section Iteration.

Variables I0 I1 I2 F E : MOS -> Prop.

Hypothesis I0_calm : forall s s', I0 s -> calm s s' -> I0 s'.
Hypothesis I1_calm : forall s s', I1 s -> calm s s' -> I1 s'.
Hypothesis I2_calm : forall s s', I2 s -> calm s s' -> I2 s'.
Hypothesis I0_stop : forall s, I0 s -> E s.
Hypothesis I1_stop : forall s, I1 s -> E s.
Hypothesis I2_stop : forall s, I2 s -> E s.
Hypothesis message : forall s, I0 s -> I1 (set_console (EvExecuting :: console s) s).
Hypothesis tick : forall s, I1 s -> I2 (set_globalTimer (globalTimer s + 1) s).
Hypothesis early : forall s, I0 s -> F s.
Hypothesis after_dispatch : forall s, I2 s -> gone s = true -> F s.
Hypothesis slice : forall s, I2 s -> post (fun _ s' => F s') E (checkTimeSlice s).

Lemma executeJob_body_stages (s : MOS) :
  I0 s -> post (fun _ s' => F s') E (executeJob_body s).
Proof.
  intros H0. unfold executeJob_body.
  eapply post_bind;
    [apply (post_calm I0); [done|done|apply stays_deref; apply _|done]|].
  intros p s1 _ H1. destruct (TTC p >=? TTL p).
  { eapply post_bind;
      [apply (post_calm I0); [done|done|apply calm_terminate|done]|].
    intros ? s2 _ H2. by apply early. }
  eapply post_bind; [by apply (post_get _ I0)|]. intros ? s2 _ [Heq H2]; subst.
  eapply post_bind;
    [apply (post_calm I0); [done|done|apply calm_addressMap|done]|].
  intros r s3 _ H3. destruct (negb (fst r)); [by apply early|].
  eapply post_bind; [by apply (post_get _ I0)|]. intros ? s4 _ [Heq H4]; subst.
  destruct (String.eqb _ _); [by apply early|].
  eapply post_bind;
    [apply (post_calm I0); [done|done|apply calm_modify_cpu|done]|].
  intros ? s5 _ H5.
  eapply post_bind;
    [apply (post_calm I0); [done|done|apply calm_modify_cpu|done]|].
  intros ? s6 _ H6.
  (* the instruction: its trace message, then a calm computation *)
  eapply (post_bind _ _ _ (fun _ s' => I1 s')).
  { pose proof (calm_executeInstruction s6) as Hcalm.
    pose proof (message s6 H6) as Hmsg.
    destruct (executeInstruction s6) as [[] s7|s7|s7]; cbn in *; eauto. }
  intros ? s7 _ H7.
  eapply post_bind;
    [apply (post_calm I1); [done|done|apply stays_deref; apply _|done]|].
  intros p' s8 _ H8.
  eapply post_bind;
    [apply (post_calm I1); [done|done|by apply calm_modify_current|done]|].
  intros ? s9 _ H9.
  (* the clock ticks *)
  eapply (post_bind _ _ _ (fun _ s' => I2 s')); [by apply tick|].
  intros ? s10 _ H10.
  eapply post_bind; [by apply (post_get _ I2)|]. intros ? s11 _ [Heq H11]; subst.
  eapply (post_bind _ _ _ (fun fl s' => I2 s' /\ (fl = Return -> gone s' = true))).
  { destruct (pending (cpu s11)); [|by split].
    eapply post_bind;
      [apply (post_calm I2); [done|done|apply calm_handleInterrupt|done]|].
    intros ? s12 _ H12.
    eapply post_bind; [by apply (post_get _ I2)|]. intros ? s13 _ [Heq H13]; subst.
    destruct (gone s13) eqn:Hgone; by split. }
  intros fl s12 _ [H12 Hfl]. destruct fl.
  - eapply post_bind; [by apply slice|]. intros ? s13 _ H13. done.
  - cbn. apply after_dispatch; auto.
Qed.

End Iteration.

Lemma executeJob_body_sched (s : MOS) :
  sched_inv s -> outcome (fun _ s' => sched_inv s') (executeJob_body s).
Proof.
  apply (executeJob_body_stages sched_inv (mid_inv 0) (mid_inv 1)).
  - apply sched_inv_calm.
  - apply mid_inv_calm.
  - apply mid_inv_calm.
  - apply sched_inv_regular.
  - apply mid_inv_regular.
  - apply mid_inv_regular.
  - intros s0 (Hreg & Hjob & Hph). split_and!.
    + by apply quantum_regular_cons_executing.
    + done.
    + by exists (console s0).
  - intros s0 (Hreg & Hjob & c & Hcon & Hph). split_and!; [done|done|].
    exists c. split; [done|]. intros Hne Hsw. cbn.
    replace (globalTimer s0 + 1 - 1) with (globalTimer s0 - 0) by lia. by apply Hph.
  - done.
  - apply mid_inv_gone.
  - apply checkTimeSlice_sched.
Qed.

Lemma since_start_calm (s0 : MOS) (ev : list Event) (d : Z) (s s' : MOS) :
  since_start s0 ev d s -> calm s s' -> since_start s0 ev d s'.
Proof. intros [Hc Ht] ((Hc' & Ht' & _) & _). split; congruence. Qed.

(** The clock counts the instructions: an iteration that returns has
    either executed nothing, or one instruction and one tick, with the
    switch, if any, after it. *)
Lemma executeJob_body_ticks (s : MOS) :
  post (fun _ s' =>
          since_start s [] 0 s' \/ since_start s [EvExecuting] 1 s' \/
          since_start s [EvSwitch; EvExecuting] 1 s')
       (fun _ => True) (executeJob_body s).
Proof.
  apply (executeJob_body_stages (since_start s [] 0) (since_start s [EvExecuting] 0)
           (since_start s [EvExecuting] 1)); try done.
  - apply since_start_calm.
  - apply since_start_calm.
  - apply since_start_calm.
  - intros s1 [Hc Ht]. split; cbn; [by rewrite Hc|done].
  - intros s1 [Hc Ht]. split; cbn; [done|lia].
  - intros s1 H. by left.
  - intros s1 H _. right. by left.
  - intros s1 [Hc Ht]. unfold checkTimeSlice, bind, get.
    destruct (timeSliceExpired s1); [|cbn; right; by left].
    destruct (contextSwitch_cases s1) as [[_ ->]|(p & next & rest & _ & _ & ->)];
      [done|].
    cbn. right. right. split; cbn; [by rewrite Hc|done].
  - split; cbn; [done|lia].
Qed.

Lemma executeJob_loop_sched (fuel : nat) (s : MOS) :
  sched_inv s -> outcome (fun _ s' => sched_inv s') (executeJob_loop fuel s).
Proof.
  revert s. induction fuel as [|fuel IH]; intros s HJ; cbn [executeJob_loop].
  - by apply sched_inv_regular.
  - eapply outcome_bind;
      [apply (outcome_calm sched_inv);
         [apply sched_inv_calm|apply sched_inv_regular|apply stays_deref; apply _|done]|].
    intros p s1 _ HJ1. destruct (_ && _); [|done].
    eapply outcome_bind; [by apply executeJob_body_sched|].
    intros fl s2 _ HJ2. destruct fl; [by apply IH|done].
Qed.

Lemma executeJob_sched (fuel : nat) (s : MOS) :
  sched_inv s -> outcome (fun _ s' => sched_inv s') (executeJob fuel s).
Proof.
  intros HJ. unfold executeJob.
  eapply outcome_bind; [by apply (outcome_get _ sched_inv)|].
  intros ? s1 _ [Heq HJ1]; subst. destruct (gone s1); [done|].
  eapply outcome_bind;
    [apply (outcome_calm sched_inv);
       [apply sched_inv_calm|apply sched_inv_regular|by apply calm_modify_current|done]|].
  intros ? s2 _ HJ2. by apply executeJob_loop_sched.
Qed.

Lemma sched_inv_run (s : MOS) : sched_inv s -> run_inv s.
Proof. intros (Hreg & (Hlive & _) & Hph). by split_and!. Qed.

Lemma run_inv_sched (s : MOS) (p : PCB) :
  run_inv s -> currentPCB s = Some p -> sched_inv s.
Proof.
  intros (Hreg & Hlive & Hph) Hp. split_and!; [done| |done].
  split; [done|]. by rewrite Hp.
Qed.

Lemma selectJob_run (s : MOS) :
  run_inv s -> outcome (fun _ s' => run_inv s') (selectJob s).
Proof.
  intros HJ. unfold selectJob.
  destruct (currentPCB s) as [p|] eqn:Hp; [exact HJ|].
  destruct HJ as (Hreg & (Hlc & Hlq) & Hph).
  destruct (readyQueue s) as [|next rest] eqn:Hq.
  - cbn. split_and!; cbn; [done| |].
    + split; cbn; [by rewrite Hp|by rewrite Hq].
    + intros Hne. cbn in Hne. by rewrite Hq in Hne.
  - set (s1 := set_readyQueue rest (set_currentPCB (Some next) s)).
    assert (HJ1 : sched_inv s1).
    { inversion Hlq; subst. split_and!; cbn; [done| |].
      - split; [split|]; cbn; [by intros ? [= <-]|done|done].
      - intros _ Hsw. apply Hph; [by rewrite Hq|done]. }
    eapply outcome_bind;
      [apply (outcome_calm sched_inv);
         [apply sched_inv_calm|apply sched_inv_regular|apply calm_restoreContext|done]|].
    intros ? s2 _ HJ2. by apply sched_inv_run.
Qed.

Lemma run_loop_run (fuel : nat) (s : MOS) :
  run_inv s -> outcome (fun _ s' => run_inv s') (run_loop fuel s).
Proof.
  revert s. induction fuel as [|fuel IH]; intros s HJ; cbn [run_loop].
  - by destruct HJ.
  - eapply outcome_bind; [by apply (outcome_get _ run_inv)|].
    intros ? s1 _ [Heq HJ1]; subst. destruct (_ && _); [|done].
    eapply outcome_bind; [by apply selectJob_run|].
    intros go s2 _ HJ2. destruct go; [|done].
    eapply outcome_bind; [by apply (outcome_get _ run_inv)|].
    intros ? s3 _ [Heq HJ3]; subst.
    destruct (currentPCB s3) as [p|] eqn:Hp; [|by apply IH].
    eapply outcome_bind; [apply executeJob_sched; by apply (run_inv_sched _ p)|].
    intros ? s4 _ HJ4. apply IH. by apply sched_inv_run.
Qed.

Lemma outcome_regular {A} (Q : A -> MOS -> Prop) (r : Res A) :
  (forall a s, Q a s -> quantum_regular (console s)) ->
  outcome Q r -> quantum_regular (console (final r)).
Proof. intros HQ Hr. destruct r; cbn in *; eauto. Qed.


(** X25: the timing of preemption.  The check at the end of an
    iteration of [executeJob] switches exactly when the global tick
    counter is a multiple of 10 and the ready queue is not empty; the
    switch stores the instruction counter in the context of the current
    PCB, puts the PCB at the tail of the queue, makes the head of the
    queue current and sets the instruction counter from its context.
    The counter goes up by one with every executed instruction, so in
    every run of a loaded batch exactly 10 instructions are executed
    between two successive switches, whichever jobs terminate in
    between. *)
Theorem preemption_every_quantum :
  (forall s, timeSliceExpired s = true <->
             globalTimer s mod 10 = 0 /\ readyQueue s <> []) /\
  (forall s, timeSliceExpired s = false -> checkTimeSlice s = Ret tt s) /\
  (forall s p next rest,
     currentPCB s = Some p -> readyQueue s = next :: rest ->
     timeSliceExpired s = true ->
     checkTimeSlice s =
     Ret tt (set_cpu (set_IC (restored_IC next) (cpu s))
               (set_currentPCB (Some (set_pcb_state RUNNING next))
                  (set_readyQueue (rest ++ [saved_context s p])
                     (set_console (EvSwitch :: console s) s))))) /\
  (forall s fl s',
     executeJob_body s = Ret fl s' ->
     (console s' = console s /\ globalTimer s' = globalTimer s) \/
     (globalTimer s' = globalTimer s + 1 /\
      (console s' = EvExecuting :: console s \/
       console s' = EvSwitch :: EvExecuting :: console s))) /\
  (forall e lines junk junkIR s0 fuel,
     entropy_in_range e -> length junk = Z.to_nat MEM_SIZE ->
     loadJobs e lines (initial_MOS junk junkIR) = inr s0 ->
     quantum_regular (rev (console (final (run_loop fuel s0))))).
Proof.
  split_and!.
  - apply timeSliceExpired_iff.
  - intros s Hexp. unfold checkTimeSlice, bind, get. by rewrite Hexp.
  - intros s p next rest Hp Hq Hexp. unfold checkTimeSlice, bind, get. rewrite Hexp.
    apply (contextSwitch_spec s p); [done|]. by rewrite Hq.
  - intros s fl s' Hbody. pose proof (executeJob_body_ticks s) as Hticks.
    rewrite Hbody in Hticks. cbn in Hticks.
    destruct Hticks as [[Hc Ht]|[[Hc Ht]|[Hc Ht]]]; cbn in Hc.
    + left. split; [done|lia].
    + right. split; [done|by left].
    + right. split; [done|by right].
  - intros e lines junk junkIR s0 fuel He Hlen Hload.
    destruct (loadJobs_inv e lines junk junkIR s0 He Hlen Hload)
      as (_ & Hlive & _ & Hcon & _).
    apply quantum_regular_rev.
    apply (outcome_regular (fun _ s' => run_inv s')); [by intros _ s (? & _)|].
    apply run_loop_run. split_and!.
    + rewrite Hcon. apply quantum_regular_nil.
    + done.
    + rewrite Hcon. by intros _ Hsw.
Qed.

Lemma preemption_every_quantum_witness :
  exists s0, loadJobs entropy_spread two_looping_jobs fresh_MOS = inr s0 /\
    count_switches (console (final (run_loop 60 s0))) = 4%nat /\
    quantum_regular (rev (console (final (run_loop 60 s0)))).
Proof.
  destruct (loadJobs entropy_spread two_looping_jobs fresh_MOS) as [err|s0] eqn:Hload;
    [vm_compute in Hload; discriminate|].
  exists s0. split; [reflexivity|]. split.
  - vm_compute in Hload. injection Hload as <-. vm_compute. reflexivity.
  - destruct preemption_every_quantum as (_ & _ & _ & _ & Hreg).
    apply (Hreg entropy_spread two_looping_jobs junk_data word0 s0 60%nat).
    + apply entropy_spread_in_range.
    + reflexivity.
    + exact Hload.
Defined.


(** ** The dispatcher *)

(** A scan of the vector table keeps the entry it started with or
    selects an error entry: the service entries READ, WRITE and TERM
    carry the same type numbers as the program-interrupt entries before
    them and a lower priority, so they are never selected. *)
Lemma scan_table_selects (cause : Z) (b : Z * option InterruptVectorEntry) :
  snd (scan_table cause b) = snd b \/
  exists e, snd (scan_table cause b) = Some e /\ In e error_entries.
Proof.
  unfold scan_table, interruptVectorTable, error_entries.
  unfold PI_OP_ERR, PI_OPERAND_ERR, PI_PAGE_FAULT, READ, WRITE, TERM,
    PRIORITY_TIMER, PRIORITY_PROGRAM, PRIORITY_PAGE_FAULT, PRIORITY_SYSCALL.
  cbn [fold_left type priority].
  destruct (decide (cause = 0)) as [->|H0].
  { cbn. destruct (3 >? fst b); cbn; [right; eexists; split; [done|cbn; auto]|by left]. }
  destruct (decide (cause = 1)) as [->|H1].
  { cbn. destruct (Z.gtb_spec 1 (fst b)); cbn.
    - right. eexists; split; [done|cbn; auto].
    - replace (0 >? fst b) with false by lia. by left. }
  destruct (decide (cause = 2)) as [->|H2].
  { cbn. destruct (Z.gtb_spec 1 (fst b)); cbn.
    - right. eexists; split; [done|cbn; auto].
    - replace (0 >? fst b) with false by lia. by left. }
  destruct (decide (cause = 3)) as [->|H3].
  { cbn. destruct (Z.gtb_spec 2 (fst b)); cbn.
    - right. eexists; split; [done|cbn; auto].
    - replace (0 >? fst b) with false by lia. by left. }
  replace (0 =? cause) with false by lia.
  replace (1 =? cause) with false by lia.
  replace (2 =? cause) with false by lia.
  replace (3 =? cause) with false by lia.
  by left.
Qed.

Lemma select_entry_error (c : CPUState) (e : InterruptVectorEntry) :
  select_entry c = Some e -> In e error_entries.
Proof.
  unfold select_entry.
  set (b0 := (-1, @None InterruptVectorEntry)).
  set (b1 := if TI c =? 0 then b0 else _).
  set (b2 := if PI c =? 0 then b1 else _).
  set (b3 := if SI c =? 0 then b2 else _).
  assert (H1 : snd b1 = None \/ exists e, snd b1 = Some e /\ In e error_entries).
  { unfold b1. destruct (TI c =? 0); [by left|].
    right. eexists. split; [done|]. cbn. auto. }
  assert (H2 : snd b2 = None \/ exists e, snd b2 = Some e /\ In e error_entries).
  { unfold b2. destruct (PI c =? 0); [done|].
    destruct (scan_table_selects (PI c) b1) as [->|?]; [done|by right]. }
  assert (H3 : snd b3 = None \/ exists e, snd b3 = Some e /\ In e error_entries).
  { unfold b3. destruct (SI c =? 0); [done|].
    destruct (scan_table_selects (SI c) b2) as [->|?]; [done|by right]. }
  intros He. destruct H3 as [H3|(e' & H3 & Hin)]; congruence.
Qed.

Lemma error_entry_terminates (e : InterruptVectorEntry) :
  In e error_entries -> exists code, call (handler e) = terminate code.
Proof.
  intros [<-|[<-|[<-|[<-|[]]]]]; cbn; eexists; reflexivity.
Qed.


Lemma clear_serviced_flags (e : InterruptVectorEntry) (c : CPUState) :
  SI c = 0 -> PI c = 0 -> TI c = 0 ->
  SI (clear_serviced e c) = 0 /\ PI (clear_serviced e c) = 0 /\
  TI (clear_serviced e c) = 0.
Proof.
  intros HS HP HT. unfold clear_serviced.
  destruct (type e =? 0); [done|].
  destruct (type e =? PI c); [done|].
  destruct (type e =? SI c); done.
Qed.

Lemma restoreContext_frame (s : MOS) :
  exists s', restoreContext s = Ret tt s' /\
    SI (cpu s') = SI (cpu s) /\ PI (cpu s') = PI (cpu s) /\ TI (cpu s') = TI (cpu s) /\
    outFile s' = outFile s.
Proof.
  unfold restoreContext. destruct (currentPCB s) as [p|]; [|by eexists].
  destruct (_ =? _); by eexists.
Qed.

(** C5, amended: a dispatch whose handler ends the current job leaves
    all three cause fields 0.  [terminate] resets SI, PI and TI, so when
    the handler invoked is one that terminates the job, the cause that
    was serviced is 0 afterwards and so are the other two: no other
    pending cause of the job is kept for a later check. *)
Theorem dispatch_clears_every_cause (s : MOS) (p : PCB) (e : InterruptVectorEntry)
    (code : EM_Code) :
  state_wf s -> currentPCB s = Some p -> select_entry (cpu s) = Some e ->
  call (handler e) = terminate code ->
  exists s',
    handleInterrupt s = Ret tt s' /\
    outFile s' = outFile s ++ [OutTerminated (pid p) code (TTC p) (LLC p)] /\
    SI (cpu s') = 0 /\ PI (cpu s') = 0 /\ TI (cpu s') = 0.
Proof.
  intros Hwf Hp Hsel Hcall.
  unfold handleInterrupt. cbn [interruptsEnabled negb].
  unfold bind at 1. unfold get at 1. rewrite Hsel.
  unfold bind at 1. unfold saveContext at 1. rewrite Hp.
  change (set_context _ p) with (saved_context s p).
  set (s1 := set_currentPCB (Some (saved_context s p)) s).
  assert (Hwf1 : state_wf s1) by (by apply (wf_current s p)).
  destruct (terminate_spec code s1 (saved_context s p) Hwf1 eq_refl)
    as (p' & s2 & Hterm & _ & _ & Hout & _ & _ & _ & _ & _ & HS & HP & HT).
  unfold bind at 1. rewrite Hcall, Hterm.
  unfold bind at 1. unfold modify_cpu, modify.
  set (s3 := set_cpu (clear_serviced e (cpu s2)) s2).
  destruct (clear_serviced_flags e (cpu s2) HS HP HT) as (HS3 & HP3 & HT3).
  destruct (restoreContext_frame s3) as (s4 & -> & HS4 & HP4 & HT4 & Hout4).
  exists s4. subst s3 s1. cbn in *.
  split_and!; try done; congruence.
Qed.

Lemma job_PD_executed_wf : state_wf job_PD_executed.
Proof.
  unfold job_PD_executed. apply wf_executeInstruction.
  unfold first_fetched. apply wf_cpu.
  assert (Hl : state_wf (loaded job_PD)).
  { unfold loaded.
    destruct (loadJobs entropy_spread job_PD fresh_MOS) as [err|s0] eqn:Hload;
      [vm_compute in Hload; discriminate|].
    by destruct (loadJobs_inv entropy_spread job_PD junk_data word0 s0
                   entropy_spread_in_range eq_refl Hload). }
  revert Hl. generalize (loaded job_PD).
  change (stays (keeps state_wf) (selectJob ;; modify_current (set_pcb_state RUNNING))).
  stays_go ltac:(first [apply wf_selectJob | by apply wf_modify_current]).
Qed.

Lemma dispatch_clears_every_cause_witness :
  exists s', handleInterrupt job_PD_executed = Ret tt s' /\
    outFile s' = [OutTerminated 1 EM_INVALID_PAGE 0 1] /\
    SI (cpu s') = 0 /\ PI (cpu s') = 0 /\ TI (cpu s') = 0.
Proof.
  destruct (currentPCB job_PD_executed) as [p|] eqn:Hp;
    [|vm_compute in Hp; discriminate].
  assert (He : select_entry (cpu job_PD_executed)
               = Some (mkEntry PI_PAGE_FAULT PRIORITY_PAGE_FAULT H_PageFault))
    by (vm_compute; reflexivity).
  destruct (dispatch_clears_every_cause job_PD_executed p _ EM_INVALID_PAGE
              job_PD_executed_wf Hp He eq_refl)
    as (s' & Hint & Hout & Hflags).
  exists s'. split; [exact Hint|]. split; [|exact Hflags].
  vm_compute in Hint. injection Hint as <-. reflexivity.
Defined.

(** C5 as stated fails on the code: with PI = PAGE_FAULT and SI = WRITE
    pending, the page-fault handler is invoked, and SI is 0 afterwards
    instead of keeping its value. *)
Lemma dispatch_clears_other_causes_too :
  exists e, select_entry (cpu job_PD_executed) = Some e /\
    handler e = H_PageFault /\
    PI (cpu job_PD_executed) = PI_PAGE_FAULT /\
    SI (cpu job_PD_executed) = WRITE /\
    SI (cpu (final (handleInterrupt job_PD_executed))) = 0 /\
    ~ only_serviced_cleared e job_PD_executed (final (handleInterrupt job_PD_executed)).
Proof.
  eexists. split; [vm_compute; reflexivity|].
  split_and!; try (vm_compute; reflexivity).
  unfold only_serviced_cleared. cbn [handler].
  intros (_ & _ & HSI). vm_compute in HSI. discriminate.
Qed.


(** ** Jobs that return from [executeJob] without terminating *)

Lemma run_loop_current (fuel : nat) (s : MOS) (p : PCB) :
  currentPCB s = Some p -> systemRunning s = true -> globalTimer s < MAX_TIMER ->
  run_loop (S fuel) s = (executeJob fuel ;; run_loop fuel) s.
Proof.
  intros Hp Hrun Hgt. cbn [run_loop]. unfold bind at 1. unfold get at 1.
  rewrite Hrun. replace (globalTimer s <? MAX_TIMER) with true by lia. cbn [andb].
  unfold bind at 1. unfold selectJob at 1. rewrite Hp.
  unfold bind at 1. unfold get at 1. by rewrite Hp.
Qed.

Lemma executeJob_out_of_fuel (s : MOS) :
  exists s', (executeJob 0 s = OutOfFuel s' \/ executeJob 0 s = Ret tt s') /\
    outFile s' = outFile s /\ console s' = console s /\ globalTimer s' = globalTimer s.
Proof.
  unfold executeJob, bind, get. destruct (gone s) eqn:Hg; [by eexists; split; [right|]|].
  unfold gone in Hg. unfold modify_current. destruct (currentPCB s); [|done].
  cbn. eexists. split; [by left|done].
Qed.

(** A state that [executeJob] returns from unchanged keeps the run loop
    busy for ever: no amount of fuel brings [run] to its end. *)
Lemma run_loop_spins (s : MOS) (p : PCB) :
  currentPCB s = Some p -> systemRunning s = true -> globalTimer s < MAX_TIMER ->
  (forall fuel, executeJob (S fuel) s = Ret tt s) ->
  forall fuel, exists s', run_loop fuel s = OutOfFuel s' /\
    outFile s' = outFile s /\ console s' = console s /\ globalTimer s' = globalTimer s.
Proof.
  intros Hp Hrun Hgt Hjob. induction fuel as [|fuel IH]; [by eexists|].
  rewrite (run_loop_current fuel s p) by done. unfold bind.
  destruct fuel as [|fuel].
  - destruct (executeJob_out_of_fuel s) as (s' & [->| ->] & Hs'); [by eexists|].
    cbn. by eexists.
  - rewrite Hjob. exact IH.
Qed.

Lemma deref_Some (s : MOS) (p : PCB) : currentPCB s = Some p -> deref s = Ret p s.
Proof. intros Hp. unfold deref. by rewrite Hp. Qed.

Lemma modify_current_Some (f : PCB -> PCB) (s : MOS) (p : PCB) :
  currentPCB s = Some p -> modify_current f s = Ret tt (set_currentPCB (Some (f p)) s).
Proof. intros Hp. unfold modify_current. by rewrite Hp. Qed.

Lemma gone_false (s : MOS) (p : PCB) :
  currentPCB s = Some p -> terminated p = false -> gone s = false.
Proof. intros Hp Hterm. unfold gone. by rewrite Hp. Qed.

Lemma executeJob_enter (fuel : nat) (s : MOS) (p : PCB) :
  currentPCB s = Some p -> terminated p = false ->
  executeJob fuel s =
  executeJob_loop fuel (set_currentPCB (Some (set_pcb_state RUNNING p)) s).
Proof.
  intros Hp Hterm. unfold executeJob. unfold bind at 1. unfold get at 1.
  rewrite (gone_false s p Hp Hterm). unfold bind.
  by rewrite (modify_current_Some _ s p Hp).
Qed.

(** When the time limit is reached the loop of [executeJob] is not
    entered: the job is left as it is, with no termination. *)
Lemma executeJob_time_up (fuel : nat) (s : MOS) (p : PCB) :
  currentPCB s = Some p -> terminated p = false -> TTL p <= TTC p ->
  executeJob (S fuel) s = Ret tt (set_currentPCB (Some (set_pcb_state RUNNING p)) s).
Proof.
  intros Hp Hterm Htime. rewrite (executeJob_enter _ s p Hp Hterm).
  set (s1 := set_currentPCB (Some (set_pcb_state RUNNING p)) s).
  cbn [executeJob_loop]. unfold bind. rewrite (deref_Some s1 _ eq_refl).
  cbn [terminated TTC TTL set_pcb_state set_context].
  rewrite Hterm. replace (TTC p <? TTL p) with false by lia. done.
Qed.

(** The first fetch of a job with an empty page table. *)
Lemma executeJob_body_unmapped (s : MOS) (p : PCB) :
  currentPCB s = Some p -> pageTable p = empty_pageTable ->
  TTC p < TTL p -> 0 <= IC (cpu s) < MEM_SIZE ->
  executeJob_body s = Ret Return (set_cpu (set_PI PI_PAGE_FAULT (cpu s)) s).
Proof.
  intros Hp Hpt Htime HIC. unfold executeJob_body.
  unfold bind at 1. rewrite (deref_Some s p Hp).
  replace (TTC p >=? TTL p) with false by lia.
  unfold bind at 1. unfold get at 1. unfold bind at 1.
  rewrite (addressMap_in_range (IC (cpu s)) 0 s p) by done.
  rewrite Hpt, empty_pageTable_lookup.
  2:{ unfold MEM_SIZE in HIC.
      assert (0 <= IC (cpu s) / 10 < 10)
        by (split; [apply Z.div_pos|apply Z.div_lt_upper_bound]; lia). lia. }
  done.
Qed.

Lemma executeJob_unmapped (fuel : nat) (s : MOS) (p : PCB) :
  currentPCB s = Some p -> terminated p = false ->
  pageTable p = empty_pageTable ->
  TTC p < TTL p -> 0 <= IC (cpu s) < MEM_SIZE ->
  executeJob (S fuel) s =
  Ret tt (set_cpu (set_PI PI_PAGE_FAULT (cpu s))
            (set_currentPCB (Some (set_pcb_state RUNNING p)) s)).
Proof.
  intros Hp Hterm Hpt Htime HIC. rewrite (executeJob_enter _ s p Hp Hterm).
  set (s1 := set_currentPCB (Some (set_pcb_state RUNNING p)) s).
  assert (Hp1 : currentPCB s1 = Some (set_pcb_state RUNNING p)) by done.
  cbn [executeJob_loop]. unfold bind at 1. rewrite (deref_Some s1 _ Hp1).
  cbn [terminated TTC TTL set_pcb_state set_context].
  rewrite Hterm. replace (TTC p <? TTL p) with true by lia. cbn [negb andb].
  unfold bind.
  by rewrite (executeJob_body_unmapped s1 (set_pcb_state RUNNING p)).
Qed.


Lemma run_loop_select (fuel : nat) (s s1 : MOS) (p : PCB) :
  systemRunning s = true -> globalTimer s < MAX_TIMER ->
  selectJob s = Ret true s1 -> currentPCB s1 = Some p ->
  run_loop (S fuel) s = (executeJob fuel ;; run_loop fuel) s1.
Proof.
  intros Hrun Hgt Hsel Hp. cbn [run_loop]. unfold bind at 1. unfold get at 1.
  rewrite Hrun. replace (globalTimer s <? MAX_TIMER) with true by lia. cbn [andb].
  unfold bind at 1. rewrite Hsel.
  unfold bind at 1. unfold get at 1. by rewrite Hp.
Qed.

(** A job that cannot fetch keeps the run loop busy for ever. *)
Lemma unmapped_job_spins (s : MOS) (p : PCB) :
  currentPCB s = Some p -> terminated p = false ->
  pageTable p = empty_pageTable ->
  TTC p < TTL p -> 0 <= IC (cpu s) < MEM_SIZE ->
  systemRunning s = true -> globalTimer s < MAX_TIMER ->
  forall fuel, exists s', run_loop fuel s = OutOfFuel s' /\ outFile s' = outFile s.
Proof.
  intros Hp Hterm Hpt Htime HIC Hrun Hgt fuel.
  destruct fuel as [|fuel]; [by eexists|].
  rewrite (run_loop_current fuel s p) by done. unfold bind.
  destruct fuel as [|fuel].
  { destruct (executeJob_out_of_fuel s) as (s' & [->| ->] & Hs' & _); by eexists. }
  rewrite (executeJob_unmapped fuel s p) by done.
  set (s2 := set_cpu _ _).
  destruct (run_loop_spins s2 (set_pcb_state RUNNING p)) with (fuel := S fuel)
    as (s' & Hspin & Hout & _); try done.
  - intros fuel'.
    by rewrite (executeJob_unmapped fuel' s2 (set_pcb_state RUNNING p)).
  - by exists s'.
Qed.

(** C8 on the code: a job whose program contains zero instructions has
    no page mapped.  Its first fetch fails in the address mapper, which
    raises PI = PAGE_FAULT; no word is read, and [executeJob] returns
    at once, before the dispatch that would end the job: the job stays
    current and alive with the cause pending.  For the batch of one job
    without instructions [run] calls [executeJob] again and again: it
    never comes to an end, and nothing is written. *)
Theorem zero_instruction_job_never_halts :
  (forall fuel s p,
     currentPCB s = Some p -> terminated p = false ->
     pageTable p = empty_pageTable ->
     TTC p < TTL p -> 0 <= IC (cpu s) < MEM_SIZE ->
     executeJob (S fuel) s =
     Ret tt (set_cpu (set_PI PI_PAGE_FAULT (cpu s))
               (set_currentPCB (Some (set_pcb_state RUNNING p)) s))) /\
  ~ first_fetch_empty (final (selectJob (loaded job_no_instructions))) /\
  ~ halts_cleanly (loaded job_no_instructions) /\
  (forall fuel, exists s',
     run_loop fuel (loaded job_no_instructions) = OutOfFuel s' /\ outFile s' = []) /\
  (exists s' p,
     run_loop 5 (loaded job_no_instructions) = OutOfFuel s' /\
     currentPCB s' = Some p /\ terminated p = false /\ TTC p = 0 /\
     PI (cpu s') = PI_PAGE_FAULT /\ globalTimer s' = 0 /\ console s' = []).
Proof.
  assert (Hspin : forall fuel, exists s',
            run_loop fuel (loaded job_no_instructions) = OutOfFuel s' /\ outFile s' = []).
  { intros fuel.
    set (s0 := loaded job_no_instructions).
    set (s1 := final (selectJob s0)).
    assert (Hout0 : outFile s0 = []) by (vm_compute; reflexivity).
    assert (Hrun0 : systemRunning s0 = true) by (vm_compute; reflexivity).
    assert (Hgt0 : globalTimer s0 < MAX_TIMER) by (vm_compute; reflexivity).
    assert (Hsel : selectJob s0 = Ret true s1) by (vm_compute; reflexivity).
    assert (Hfacts : exists p, currentPCB s1 = Some p /\ terminated p = false /\
              pageTable p = empty_pageTable /\ TTC p < TTL p /\
              0 <= IC (cpu s1) < MEM_SIZE /\ systemRunning s1 = true /\
              globalTimer s1 < MAX_TIMER /\ outFile s1 = []).
    { vm_compute. eexists. split_and!; try reflexivity; discriminate. }
    destruct Hfacts as (p & Hp & Hterm & Hpt & Htime & HIC & Hrun1 & Hgt1 & Hout1).
    destruct fuel as [|fuel]; [exists s0; split; [reflexivity|exact Hout0]|].
    rewrite (run_loop_select fuel s0 s1 p Hrun0 Hgt0 Hsel Hp).
    clearbody s1. clear Hsel.
    destruct (unmapped_job_spins s1 p Hp Hterm Hpt Htime HIC Hrun1 Hgt1 (S fuel))
      as (s' & Hspin & Hout).
    rewrite (run_loop_current fuel s1 p Hp Hrun1 Hgt1) in Hspin.
    exists s'. split; [exact Hspin|]. by rewrite Hout. }
  split_and!.
  - intros fuel s p. apply executeJob_unmapped.
  - intros (ra & s1 & Hmap & _). vm_compute in Hmap. discriminate.
  - intros (fuel & s' & Hrun & _). destruct (Hspin fuel) as (s2 & Hs2 & _).
    rewrite Hs2 in Hrun. discriminate.
  - exact Hspin.
  - vm_compute. eexists _, _. split_and!; reflexivity.
Qed.


(** ** Where the code departs from the specification *)

Lemma executeJob_loop_step (fuel : nat) (s s' : MOS) (p : PCB) (fl : Flow) :
  currentPCB s = Some p -> terminated p = false -> TTC p < TTL p ->
  executeJob_body s = Ret fl s' ->
  executeJob_loop (S fuel) s =
  match fl with Next => executeJob_loop fuel s' | Return => Ret tt s' end.
Proof.
  intros Hp Hterm Htime Hbody. cbn [executeJob_loop]. unfold bind at 1.
  rewrite (deref_Some s p Hp), Hterm.
  replace (TTC p <? TTL p) with true by lia. cbn [negb andb].
  unfold bind. rewrite Hbody. by destruct fl.
Qed.

Lemma executeJob_loop_done (fuel : nat) (s : MOS) (p : PCB) :
  currentPCB s = Some p -> TTL p <= TTC p ->
  executeJob_loop (S fuel) s = Ret tt s.
Proof.
  intros Hp Htime. cbn [executeJob_loop]. unfold bind.
  rewrite (deref_Some s p Hp).
  replace (TTC p <? TTL p) with false by lia. by rewrite andb_false_r.
Qed.

(** A job whose time is up keeps the run loop busy for ever. *)
Lemma time_up_job_spins (s : MOS) (p : PCB) :
  currentPCB s = Some p -> terminated p = false -> TTL p <= TTC p ->
  systemRunning s = true -> globalTimer s < MAX_TIMER ->
  forall fuel, exists s', run_loop fuel s = OutOfFuel s' /\ outFile s' = outFile s.
Proof.
  intros Hp Hterm Htime Hrun Hgt fuel.
  destruct fuel as [|fuel]; [by eexists|].
  rewrite (run_loop_current fuel s p) by done. unfold bind.
  destruct fuel as [|fuel].
  { destruct (executeJob_out_of_fuel s) as (s' & [->| ->] & Hs' & _); by eexists. }
  rewrite (executeJob_time_up fuel s p) by done.
  set (s2 := set_currentPCB _ _).
  destruct (run_loop_spins s2 (set_pcb_state RUNNING p)) with (fuel := S fuel)
    as (s' & Hspin & Hout & _); try done.
  - intros fuel'.
    by rewrite (executeJob_time_up fuel' s2 (set_pcb_state RUNNING p)).
  - by exists s'.
Qed.

(** C2 on the code: when [TTC >= TTL] the guard of the [while] loop of
    [executeJob] is false, so the check inside the loop that would call
    [terminate(EM_TIME_LIMIT)] is never reached: [executeJob] returns and
    leaves the job current and alive.  For the batch of one job with
    TTL = 1 and the program [LR00; LR00], one instruction is executed,
    then [run] never ends and writes nothing: there is no "Time limit
    exceeded" block. *)
Theorem time_limit_never_enforced :
  (forall fuel s p,
     currentPCB s = Some p -> terminated p = false -> TTL p <= TTC p ->
     executeJob (S fuel) s =
     Ret tt (set_currentPCB (Some (set_pcb_state RUNNING p)) s)) /\
  (forall fuel, exists s',
     run_loop fuel (loaded job_TTL_one) = OutOfFuel s' /\ outFile s' = []) /\
  (exists s' p,
     run_loop 5 (loaded job_TTL_one) = OutOfFuel s' /\
     currentPCB s' = Some p /\ terminated p = false /\
     TTC p = 1 /\ TTL p = 1 /\ globalTimer s' = 1 /\ console s' = [EvExecuting]).
Proof.
  split_and!.
  - intros fuel s p. apply executeJob_time_up.
  - intros fuel.
    set (s0 := loaded job_TTL_one).
    set (s1 := final (selectJob s0)).
    assert (Hout0 : outFile s0 = []) by (vm_compute; reflexivity).
    assert (Hrun0 : systemRunning s0 = true) by (vm_compute; reflexivity).
    assert (Hgt0 : globalTimer s0 < MAX_TIMER) by (vm_compute; reflexivity).
    assert (Hsel : selectJob s0 = Ret true s1) by (vm_compute; reflexivity).
    assert (Hout1 : outFile s1 = []) by (vm_compute; reflexivity).
    destruct (currentPCB s1) as [p|] eqn:Hp; [|vm_compute in Hp; discriminate].
    assert (Hfacts : terminated p = false /\ TTC p < TTL p).
    { vm_compute in Hp. injection Hp as <-. split; vm_compute; reflexivity. }
    destruct Hfacts as (Hterm & Htime).
    destruct fuel as [|fuel]; [exists s0; split; [reflexivity|exact Hout0]|].
    rewrite (run_loop_select fuel s0 s1 p Hrun0 Hgt0 Hsel Hp).
    unfold bind.
    destruct fuel as [|fuel].
    { destruct (executeJob_out_of_fuel s1) as (s2 & [->| ->] & Hout & _);
        exists s2; (split; [reflexivity|]); rewrite Hout; exact Hout1. }
    rewrite (executeJob_enter _ s1 p Hp Hterm).
    set (s2 := set_currentPCB _ s1).
    set (s3 := final (executeJob_body s2)).
    assert (Hbody : executeJob_body s2 = Ret Next s3).
    { vm_compute in Hp. injection Hp as <-. vm_compute. reflexivity. }
    assert (Hp2 : currentPCB s2 = Some (set_pcb_state RUNNING p)) by reflexivity.
    rewrite (executeJob_loop_step fuel s2 s3 (set_pcb_state RUNNING p) Next
               Hp2 Hterm Htime Hbody).
    assert (Hfacts3 : exists p3, currentPCB s3 = Some p3 /\ terminated p3 = false /\
                      TTL p3 <= TTC p3 /\
                      systemRunning s3 = true /\ globalTimer s3 < MAX_TIMER /\
                      outFile s3 = []).
    { vm_compute in Hp. injection Hp as <-. eexists.
      split_and!; vm_compute; try reflexivity; discriminate. }
    destruct Hfacts3 as (p3 & Hp3 & Hterm3 & Htime3 & Hrun3 & Hgt3 & Hout3).
    destruct fuel as [|fuel]; [exists s3; split; [reflexivity|exact Hout3]|].
    rewrite (executeJob_loop_done fuel s3 p3 Hp3 Htime3).
    destruct (time_up_job_spins s3 p3 Hp3 Hterm3 Htime3 Hrun3 Hgt3 (S (S fuel)))
      as (s' & Hspin & Hout).
    exists s'. split; [exact Hspin|]. by rewrite Hout.
  - eexists _, _. split; [vm_compute; reflexivity|].
    split_and!; reflexivity.
Qed.


(** C1 on the code: the operand of [GD] is parsed and then not used (the
    translation of the operand into [cpu.RA] is commented out), so the
    card goes to the virtual addresses [cpu.RA], [cpu.RA + 1], ...; and
    the [GD] branch ends with a call of [handleTerminate].  For the batch
    [GD10; PD10; H] with the data card "HELLO": virtual address 10 is
    mapped to word 50, but the two chunks "HELL" and "O   " are written
    to the words 40 and 41 of virtual addresses 0 and 1, over the first
    two instructions; the instruction then terminates the job with
    "Normal termination" before [PD10] is reached, and the [TTC++] that
    follows in [executeJob] goes through the null [currentPCB]. *)
Theorem GD_ignores_operand_and_terminates :
  (exists p,
     currentPCB (first_fetched job_echo "GD10") = Some p /\
     dataCards p = ["HELLO"%string] /\
     RA (cpu (first_fetched job_echo "GD10")) = 0 /\
     addressMap 10 0 (first_fetched job_echo "GD10")
       = Ret (true, 50) (first_fetched job_echo "GD10") /\
     addressMap 0 0 (first_fetched job_echo "GD10")
       = Ret (true, 40) (first_fetched job_echo "GD10")) /\
  (exists r p,
     (modify_cpu (set_SI READ) ;; handleRead) (first_fetched job_echo "GD10")
       = Ret tt r /\
     SI (cpu r) = READ /\ currentPCB r = Some p /\ dataCards p = [] /\
     read_word (mem r) 40 = ("H", "E", "L", "L")%char /\
     read_word (mem r) 41 = ("O", " ", " ", " ")%char /\
     read_word (mem r) 50 = ("H", " ", " ", " ")%char /\
     read_word (mem r) 51 = word0) /\
  (exists s',
     executeInstruction (first_fetched job_echo "GD10") = Ret tt s' /\
     currentPCB s' = None /\
     outFile s' = [OutTerminated 1 EM_NO_ERR 0 0]) /\
  (exists s',
     run_loop 10 (loaded job_echo) = Fault s' /\
     outFile s' = [OutTerminated 1 EM_NO_ERR 0 0] /\
     globalTimer s' = 0 /\ console s' = [EvExecuting]).
Proof.
  split_and!.
  - eexists. split; [vm_compute; reflexivity|].
    split_and!; vm_compute; reflexivity.
  - eexists _, _. split; [vm_compute; reflexivity|].
    split_and!; vm_compute; reflexivity.
  - eexists. split; [vm_compute; reflexivity|].
    split; vm_compute; reflexivity.
  - eexists. split; [vm_compute; reflexivity|].
    split_and!; vm_compute; reflexivity.
Qed.

(** C4 on the code: [handleWrite] increments [LLC] first and, when the
    new [LLC] exceeds [TLL], emits nothing and sets [SI = TERM]; nothing
    passes [EM_LINE_LIMIT] to [terminate].  At the next check the
    dispatcher looks the value 3 of [SI] up among the entry types, where
    the page-fault entry has the same type and the higher priority: the
    job is terminated by [handlePageFault].  For the batch of one job
    with TLL = 0 and the program [PD00; H] the only block written is
    "Invalid page access", with no data line before it. *)
Theorem line_limit_reported_as_invalid_page :
  (forall s p,
     currentPCB s = Some p -> LLC p + 1 > TLL p ->
     handleWrite s =
     Ret tt (set_cpu (set_SI TERM (cpu s))
               (set_currentPCB (Some (set_LLC (LLC p + 1) p)) s))) /\
  (forall c,
     TI c = 0 -> PI c = 0 -> SI c = TERM ->
     option_map handler (select_entry c) = Some H_PageFault) /\
  call H_PageFault = terminate EM_INVALID_PAGE /\
  (exists s' p,
     executeInstruction (first_fetched job_TLL_zero "PD00") = Ret tt s' /\
     currentPCB s' = Some p /\ LLC p = 1 /\ TLL p = 0 /\
     SI (cpu s') = TERM /\ PI (cpu s') = 0 /\ outFile s' = []) /\
  (exists s',
     run_loop 10 (loaded job_TLL_zero) = Ret tt s' /\
     outFile s' = [OutTerminated 2 EM_INVALID_PAGE 1 1]).
Proof.
  split_and!.
  - intros s p Hp Hlimit. unfold handleWrite, bind.
    rewrite (deref_Some s p Hp), (modify_current_Some _ s p Hp).
    replace (LLC p + 1 >? TLL p) with true by lia. reflexivity.
  - intros c HTI HPI HSI. unfold select_entry. rewrite HTI, HPI, HSI. reflexivity.
  - reflexivity.
  - eexists _, _. split; [vm_compute; reflexivity|].
    split_and!; vm_compute; reflexivity.
  - eexists. split; vm_compute; reflexivity.
Qed.


(** ** The dispatcher, cause by cause *)

Lemma scan_table_eq (cause : Z) (b : Z * option InterruptVectorEntry) :
  scan_table cause b =
  if cause =? 0 then
    if 3 >? fst b then (3, Some (mkEntry 0 PRIORITY_TIMER H_TimerInterrupt)) else b
  else if cause =? 1 then
    if 1 >? fst b then (1, Some (mkEntry PI_OP_ERR PRIORITY_PROGRAM H_OpCodeError)) else b
  else if cause =? 2 then
    if 1 >? fst b then (1, Some (mkEntry PI_OPERAND_ERR PRIORITY_PROGRAM H_OperandError))
    else b
  else if cause =? 3 then
    if 2 >? fst b then (2, Some (mkEntry PI_PAGE_FAULT PRIORITY_PAGE_FAULT H_PageFault))
    else b
  else b.
Proof.
  unfold scan_table, interruptVectorTable.
  unfold PI_OP_ERR, PI_OPERAND_ERR, PI_PAGE_FAULT, READ, WRITE, TERM,
    PRIORITY_TIMER, PRIORITY_PROGRAM, PRIORITY_PAGE_FAULT, PRIORITY_SYSCALL.
  cbn [fold_left type priority].
  destruct (Z.eqb_spec cause 0) as [->|H0].
  { cbn. destruct (3 >? fst b); reflexivity. }
  destruct (Z.eqb_spec cause 1) as [->|H1].
  { cbn. destruct (Z.gtb_spec 1 (fst b)); cbn; [reflexivity|].
    by replace (0 >? fst b) with false by lia. }
  destruct (Z.eqb_spec cause 2) as [->|H2].
  { cbn. destruct (Z.gtb_spec 1 (fst b)); cbn; [reflexivity|].
    by replace (0 >? fst b) with false by lia. }
  destruct (Z.eqb_spec cause 3) as [->|H3].
  { cbn. destruct (Z.gtb_spec 2 (fst b)); cbn; [reflexivity|].
    by replace (0 >? fst b) with false by lia. }
  replace (0 =? cause) with false by lia.
  replace (1 =? cause) with false by lia.
  replace (2 =? cause) with false by lia.
  replace (3 =? cause) with false by lia.
  reflexivity.
Qed.

Lemma select_entry_table (c : CPUState) :
  option_map handler (select_entry c) = dispatch_table c.
Proof.
  unfold select_entry, dispatch_table. cbn [interruptVectorTable priority].
  rewrite !scan_table_eq. unfold PRIORITY_TIMER.
  destruct (Z.eqb_spec (TI c) 0) as [HT|HT]; cbn [negb fst snd].
  - destruct (Z.eqb_spec (PI c) 0) as [HP|HP].
    + rewrite HP. cbn [Z.eqb orb fst snd].
      destruct (Z.eqb_spec (SI c) 0) as [HS|HS]; [by rewrite HS|].
      destruct (Z.eqb_spec (SI c) 3), (Z.eqb_spec (SI c) 1), (Z.eqb_spec (SI c) 2);
        try lia; reflexivity.
    + destruct (Z.eqb_spec (PI c) 3), (Z.eqb_spec (PI c) 1), (Z.eqb_spec (PI c) 2);
        try lia; cbn [orb fst snd Z.gtb Z.compare];
        destruct (Z.eqb_spec (SI c) 0), (Z.eqb_spec (SI c) 3), (Z.eqb_spec (SI c) 1),
          (Z.eqb_spec (SI c) 2); try lia; reflexivity.
  - destruct (Z.eqb_spec (PI c) 0), (Z.eqb_spec (PI c) 3), (Z.eqb_spec (PI c) 1),
      (Z.eqb_spec (PI c) 2); try lia; cbn [fst snd Z.gtb Z.compare];
      destruct (Z.eqb_spec (SI c) 0), (Z.eqb_spec (SI c) 3), (Z.eqb_spec (SI c) 1),
        (Z.eqb_spec (SI c) 2); try lia; reflexivity.
Qed.

(** X1: the handler [handleInterrupt] selects depends on the three cause
    fields as [dispatch_table] says.  A timer cause always wins; a value
    3 in PI or in SI selects the page-fault handler, since PI_PAGE_FAULT
    and TERM are the same number and the scan compares numbers; SI = READ
    and SI = WRITE select the handlers of PI = 1 and PI = 2; the read,
    write and terminate handlers of the table are never selected. *)
Theorem dispatch_by_cause :
  (forall c, option_map handler (select_entry c) = dispatch_table c) /\
  (forall c e, select_entry c = Some e ->
     handler e <> H_Read /\ handler e <> H_Write /\ handler e <> H_Terminate).
Proof.
  split; [exact select_entry_table|].
  intros c e Hsel. pose proof (select_entry_table c) as Htable.
  rewrite Hsel in Htable. cbn in Htable.
  unfold dispatch_table in Htable.
  repeat match type of Htable with
         | context [if ?b then _ else _] => destruct b
         end; first [discriminate | injection Htable as ->; done].
Qed.


(** ** Instructions that cannot be decoded *)

Lemma short_text_decodes_to_none (t : string) :
  (String.length t < 3)%nat -> decoded_op (word_of_string t) = None.
Proof.
  intros Hlen. unfold decoded_op, word_of_string, string_at.
  destruct t as [|a [|b [|c r]]]; cbn in Hlen; try lia; cbn [String.get string_of_word].
  - reflexivity.
  - cbn [rtrim]. change (Ascii.eqb SPACE SPACE) with true. cbn [orb].
    by destruct (Ascii.eqb a SPACE || Ascii.eqb a NUL).
  - cbn [rtrim]. change (Ascii.eqb SPACE SPACE) with true. cbn [orb].
    destruct (Ascii.eqb b SPACE || Ascii.eqb b NUL); [|reflexivity].
    by destruct (Ascii.eqb a SPACE || Ascii.eqb a NUL).
Qed.

Lemma executeInstruction_unknown (s : MOS) :
  match decoded_op (IR (cpu s)) with
  | None => True
  | Some op => known_op op = false
  end ->
  executeInstruction s =
  terminate EM_OP_CODE_ERR (set_cpu (set_PI PI_OP_ERR (cpu s)) (traced s)).
Proof.
  unfold decoded_op, executeInstruction. intros Hbad.
  unfold bind at 1. unfold get at 1. unfold bind at 1.
  unfold debugPrint at 1. unfold modify at 1. fold (traced s).
  destruct (String.length (rtrim (string_of_word (IR (cpu s)))) <? 3)%nat; [reflexivity|].
  unfold known_op in Hbad.
  repeat (apply orb_false_elim in Hbad as [Hbad ?]).
  repeat match goal with H : String.eqb _ _ = false |- _ => rewrite H; clear H end.
  reflexivity.
Qed.

(** X2: an instruction word that holds fewer than three characters
    before its trailing blanks, or whose operation code is none of GD,
    PD, H, LR, SR, CR, BT, ends the current job inside
    [executeInstruction] with "Invalid operation code": the block carries
    the job's counters as they are before the tick of this instruction,
    the next job of the ready queue becomes current, and PI is 0 again
    on return.  Every instruction text of one or two characters is such
    a word, the halt instruction H included. *)
Theorem invalid_operation_code (s : MOS) (p : PCB) :
  state_wf s -> currentPCB s = Some p ->
  match decoded_op (IR (cpu s)) with
  | None => True
  | Some op => known_op op = false
  end ->
  (forall t, (String.length t < 3)%nat -> decoded_op (word_of_string t) = None) /\
  exists s', executeInstruction s = Ret tt s' /\
    outFile s' = outFile s ++ [OutTerminated (pid p) EM_OP_CODE_ERR (TTC p) (LLC p)] /\
    currentPCB s' = option_map (set_pcb_state RUNNING) (head (readyQueue s)) /\
    readyQueue s' = tail (readyQueue s) /\
    systemRunning s' = (systemRunning s && negb (bool_decide (readyQueue s = []))) /\
    SI (cpu s') = 0 /\ PI (cpu s') = 0 /\ TI (cpu s') = 0 /\
    globalTimer s' = globalTimer s /\
    console s' = EvExecuting :: console s.
Proof.
  intros Hwf Hp Hbad. split; [exact short_text_decodes_to_none|].
  rewrite (executeInstruction_unknown s Hbad).
  set (s1 := set_cpu _ _).
  destruct (terminate_spec EM_OP_CODE_ERR s1 p) as
    (p' & s' & Hterm & _ & _ & Hout & Hq & Hcur & Hrun & Hgt & Hcon & HSI & HPI & HTI);
    [done|done|].
  exists s'. split_and!; done.
Qed.

Lemma invalid_operation_code_witness :
  exists s', executeInstruction
               (set_cpu (set_IR (word_of_string "H") (cpu sample_MOS)) sample_MOS)
             = Ret tt s' /\
    outFile s' = [OutTerminated 7 EM_OP_CODE_ERR 0 0] /\ currentPCB s' = None.
Proof.
  destruct (invalid_operation_code
              (set_cpu (set_IR (word_of_string "H") (cpu sample_MOS)) sample_MOS)
              sample_PCB) as (_ & s' & Hexec & Hout & Hcur & _).
  - exact sample_MOS_wf.
  - reflexivity.
  - vm_compute. exact I.
  - exists s'. split_and!; [exact Hexec|exact Hout|exact Hcur].
Defined.


(** ** Registers and memory *)

(** A successful translation reads the current page table only: it
    gives the same address in every state with the same current PCB,
    whatever the reference argument held, and the address is a word of
    the memory. *)
Lemma addressMap_success (a RA0 ra : Z) (s : MOS) :
  addressMap a RA0 s = Ret (true, ra) s ->
  0 <= ra < MEM_SIZE /\
  forall s' RA1, currentPCB s' = currentPCB s ->
    addressMap a RA1 s' = Ret (true, ra) s'.
Proof.
  unfold addressMap, bind, deref, ret, modify_cpu, modify.
  destruct ((a <? 0) || (a >=? MEM_SIZE)) eqn:H1; [done|].
  destruct (Z.quot a PAGE_SIZE >=? FRAME_COUNT) eqn:H2; [done|].
  destruct (currentPCB s) as [p|] eqn:Hp; [|done].
  destruct (negb (valid (pageTable p !!! Z.to_nat (Z.quot a PAGE_SIZE)))) eqn:H3; [done|].
  destruct ((frame (pageTable p !!! Z.to_nat (Z.quot a PAGE_SIZE)) <? 0) ||
            (frame (pageTable p !!! Z.to_nat (Z.quot a PAGE_SIZE)) >=? FRAME_COUNT))
    eqn:H4; [done|].
  destruct ((frame (pageTable p !!! Z.to_nat (Z.quot a PAGE_SIZE)) * PAGE_SIZE +
             Z.rem a PAGE_SIZE <? 0) || (_ >=? MEM_SIZE)) eqn:Hra; [done|].
  intros Heq. injection Heq as Heq. subst ra. split; [lia|].
  intros s' RA1 ->. by rewrite ?H1, ?H2, ?H3, ?H4, ?Hra.
Qed.

Lemma word_eqb_refl (w : Word) : word_eqb w w = true.
Proof. destruct w as [[[a b] c] d]. cbn. by rewrite !Ascii.eqb_refl. Qed.

Lemma executeArithmeticLogic_mapped (op : string) (a ra : Z) (s : MOS) :
  addressMap a 0 s = Ret (true, ra) s ->
  executeArithmeticLogic op a s =
  if String.eqb op "LR" then Ret tt (set_cpu (set_R (read_word (mem s) ra) (cpu s)) s)
  else if String.eqb op "SR" then Ret tt (set_mem (write_word ra (R (cpu s)) (mem s)) s)
  else if String.eqb op "CR" then
    Ret tt (set_cpu (set_C (word_eqb (R (cpu s)) (read_word (mem s) ra)) (cpu s)) s)
  else if String.eqb op "BT" then
    if C (cpu s) then Ret tt (set_cpu (set_IC a (cpu s)) s) else Ret tt s
  else Ret tt s.
Proof.
  intros Hmap. unfold executeArithmeticLogic. unfold bind at 1. rewrite Hmap.
  cbn [fst snd negb].
  repeat match goal with |- context [String.eqb op ?x] => destruct (String.eqb op x) end;
    try reflexivity.
  unfold bind, get, modify_cpu, modify, ret. by destruct (C (cpu s)).
Qed.

(** X3: store, load and compare through a mapped address.  [SR a]
    writes R into the word [a] is mapped to and changes no other word and
    no register; a following [LR a] reads the same value back, and a
    following [CR a] sets C.  [LR a] followed by [SR b] copies the word
    of [a] into the word of [b]. *)
Theorem store_load_round_trip (s : MOS) (a b ra rb : Z) :
  mem_wf (mem s) ->
  addressMap a 0 s = Ret (true, ra) s ->
  addressMap b 0 s = Ret (true, rb) s ->
  (exists s1, executeArithmeticLogic "SR" a s = Ret tt s1 /\
     read_word (mem s1) ra = R (cpu s) /\
     (forall c, 0 <= c -> c <> ra -> read_word (mem s1) c = read_word (mem s) c) /\
     cpu s1 = cpu s /\ currentPCB s1 = currentPCB s /\ outFile s1 = outFile s /\
     (exists s2, executeArithmeticLogic "LR" a s1 = Ret tt s2 /\
        R (cpu s2) = R (cpu s) /\ mem s2 = mem s1) /\
     (exists s2, executeArithmeticLogic "CR" a s1 = Ret tt s2 /\
        C (cpu s2) = true /\ mem s2 = mem s1)) /\
  (exists s2, (executeArithmeticLogic "LR" a ;; executeArithmeticLogic "SR" b) s
              = Ret tt s2 /\
     read_word (mem s2) rb = read_word (mem s) ra /\
     (forall c, 0 <= c -> c <> rb -> read_word (mem s2) c = read_word (mem s) c) /\
     R (cpu s2) = read_word (mem s) ra).
Proof.
  intros (Hlen & _ & _) Ha Hb.
  destruct (addressMap_success a 0 ra s Ha) as (Hra & Ha').
  destruct (addressMap_success b 0 rb s Hb) as (Hrb & Hb').
  unfold MEM_SIZE in *.
  assert (Hread : forall r w c, 0 <= r < 100 -> 0 <= c ->
            read_word (write_word r w (mem s)) c =
            if bool_decide (r = c) then w else read_word (mem s) c).
  { intros r w c Hr Hc. apply read_write_word; lia. }
  split.
  - eexists. split; [by rewrite (executeArithmeticLogic_mapped "SR" a ra s Ha)|].
    cbn [mem set_mem cpu currentPCB outFile].
    split_and!; try done.
    + rewrite Hread by lia. by rewrite bool_decide_eq_true_2.
    + intros c Hc Hne. rewrite Hread by lia. by rewrite bool_decide_eq_false_2.
    + eexists. split.
      * rewrite (executeArithmeticLogic_mapped "LR" a ra); [reflexivity|by apply Ha'].
      * cbn. rewrite Hread by lia. by rewrite bool_decide_eq_true_2.
    + eexists. split.
      * rewrite (executeArithmeticLogic_mapped "CR" a ra); [reflexivity|by apply Ha'].
      * cbn. rewrite Hread by lia. rewrite bool_decide_eq_true_2 by done.
        by rewrite word_eqb_refl.
  - eexists. split.
    + unfold bind. rewrite (executeArithmeticLogic_mapped "LR" a ra s Ha). cbn [String.eqb Ascii.eqb].
      cbn.
      rewrite (executeArithmeticLogic_mapped "SR" b rb); [reflexivity|by apply Hb'].
    + cbn. split_and!; [| |done].
      * rewrite Hread by lia. by rewrite bool_decide_eq_true_2.
      * intros c Hc Hne. rewrite Hread by lia. by rewrite bool_decide_eq_false_2.
Qed.

Lemma store_load_round_trip_witness :
  exists s2, (executeArithmeticLogic "LR" 0 ;; executeArithmeticLogic "SR" 91) sample_MOS
             = Ret tt s2 /\
    read_word (mem s2) 21 = read_word (mem sample_MOS) 40.
Proof.
  destruct (store_load_round_trip sample_MOS 0 91 40 21) as (_ & s2 & Hrun & Hcopy & _).
  - exact (proj1 sample_MOS_wf).
  - reflexivity.
  - reflexivity.
  - exists s2. split; [exact Hrun|exact Hcopy].
Defined.


(** X4: the branch, and operands that are not mapped.  [BT a] maps its
    target like every other instruction of the group before it looks at
    C: with a mapped target it sets IC to [a] when C is set and changes
    nothing otherwise.  When the operand of LR, SR, CR or BT is not
    mapped, the instruction has no effect but the cause the mapper
    raises (OPERAND_ERR for an address outside the memory, PAGE_FAULT
    otherwise), also for a [BT] whose C is clear. *)
Theorem branch_and_unmapped_operands (s : MOS) (a : Z) :
  (forall ra, addressMap a 0 s = Ret (true, ra) s ->
     executeArithmeticLogic "BT" a s =
     Ret tt (if C (cpu s) then set_cpu (set_IC a (cpu s)) s else s)) /\
  (forall p, currentPCB s = Some p ->
     (forall ra, addressMap a 0 s <> Ret (true, ra) s) ->
     let pi := if (a <? 0) || (a >=? MEM_SIZE) then PI_OPERAND_ERR else PI_PAGE_FAULT in
     forall op, executeArithmeticLogic op a s = Ret tt (set_cpu (set_PI pi (cpu s)) s)).
Proof.
  split.
  - intros ra Hmap. rewrite (executeArithmeticLogic_mapped "BT" a ra s Hmap).
    cbn. by destruct (C (cpu s)).
  - intros p Hp Hfail pi op.
    assert (Hmap : addressMap a 0 s = Ret (false, 0) (set_cpu (set_PI pi (cpu s)) s)).
    { subst pi. destruct ((a <? 0) || (a >=? MEM_SIZE)) eqn:Hrange.
      - unfold addressMap. by rewrite Hrange.
      - pose proof (addressMap_in_range a 0 s p Hp) as Hin. cbv zeta in Hin.
        rewrite Hin by (unfold MEM_SIZE in *; lia).
        rewrite Hin in Hfail by (unfold MEM_SIZE in *; lia).
        destruct (valid _ && frame_in_range _); [|reflexivity].
        by destruct (Hfail _ eq_refl). }
    unfold executeArithmeticLogic, bind. rewrite Hmap. reflexivity.
Qed.


(** ** Data cards *)

Lemma chunks_ind (P : string -> Prop) :
  P EmptyString ->
  (forall a, P (String a EmptyString)) ->
  (forall a b, P (String a (String b EmptyString))) ->
  (forall a b c, P (String a (String b (String c EmptyString)))) ->
  (forall a b c d r, P r -> P (String a (String b (String c (String d r))))) ->
  forall s, P s.
Proof.
  intros H0 H1 H2 H3 H4.
  fix IH 1. intros s.
  destruct s as [|a [|b [|c [|d r]]]]; [exact H0|apply H1|apply H2|apply H3|].
  apply H4. apply IH.
Qed.

Lemma chunks_four (a b c d : ascii) (r : string) :
  chunks (String a (String b (String c (String d r)))) =
  String a (String b (String c (String d EmptyString))) :: chunks r.
Proof. reflexivity. Qed.

(** X5: the pieces [handleRead] cuts a data card into.  Put together
    again they are the card; every piece has between one and four
    characters and every piece but the last has four; a card of [n]
    characters has [ceil(n / 4)] pieces, so the empty card has none. *)
Theorem card_chunks (card : string) :
  fold_right append EmptyString (chunks card) = card /\
  Forall (fun c => (1 <= String.length c <= 4)%nat) (chunks card) /\
  (forall i, (S i < length (chunks card))%nat ->
     String.length (chunks card !!! i) = 4%nat) /\
  length (chunks card) = ((String.length card + 3) / 4)%nat.
Proof.
  induction card as [|a|a b|a b c|a b c d r IH] using chunks_ind.
  - split_and!; [reflexivity|constructor|cbn; lia|reflexivity].
  - split_and!; [reflexivity|repeat constructor|cbn; lia|reflexivity].
  - split_and!; [reflexivity|repeat constructor|cbn; lia|reflexivity].
  - split_and!; [reflexivity|repeat constructor|cbn; lia|reflexivity].
  - destruct IH as (Hcat & Hall & Hfull & Hlen).
    rewrite chunks_four. split_and!.
    + cbn [fold_right append]. by rewrite Hcat.
    + constructor; [cbn; lia|done].
    + intros [|i] Hi; [reflexivity|].
      cbn [length] in Hi. rewrite lookup_total_cons_ne_0 by lia. cbn [Nat.pred].
      apply Hfull. lia.
    + cbn [length String.length]. rewrite Hlen.
      replace (S (S (S (S (String.length r)))) + 3)%nat
        with (String.length r + 3 + 1 * 4)%nat by lia.
      rewrite Nat.div_add by lia. lia.
Qed.


Lemma addressMap_table (a RA0 ra : Z) (s : MOS) :
  addressMap a RA0 s = Ret (true, ra) s ->
  forall s' RA1 p p', currentPCB s = Some p -> currentPCB s' = Some p' ->
    pageTable p' = pageTable p ->
    addressMap a RA1 s' = Ret (true, ra) s'.
Proof.
  unfold addressMap, bind, deref, ret, modify_cpu, modify.
  destruct ((a <? 0) || (a >=? MEM_SIZE)) eqn:H1; [done|].
  destruct (Z.quot a PAGE_SIZE >=? FRAME_COUNT) eqn:H2; [done|].
  intros Hmap s' RA1 p p' Hp Hp' Hpt. rewrite Hp in Hmap. rewrite Hp', Hpt.
  destruct (negb (valid (pageTable p !!! Z.to_nat (Z.quot a PAGE_SIZE)))) eqn:H3; [done|].
  destruct ((frame (pageTable p !!! Z.to_nat (Z.quot a PAGE_SIZE)) <? 0) ||
            (frame (pageTable p !!! Z.to_nat (Z.quot a PAGE_SIZE)) >=? FRAME_COUNT))
    eqn:H4; [done|].
  destruct ((frame (pageTable p !!! Z.to_nat (Z.quot a PAGE_SIZE)) * PAGE_SIZE +
             Z.rem a PAGE_SIZE <? 0) || (_ >=? MEM_SIZE)) eqn:Hra; [done|].
  injection Hmap as Hmap. by subst ra.
Qed.

Lemma write_word_wf (a : Z) (w : Word) (m : Memory) :
  mem_wf m -> mem_wf (write_word a w m).
Proof.
  intros (Hd & Ha & Hl). split_and!; [|done|done].
  unfold write_word. cbn [data set_data]. by rewrite length_insert.
Qed.

(** The loop of [handleRead] over consecutive mapped words. *)
Lemma handleRead_chunks_writes (cs : list string) :
  forall (k : Z) (s : MOS) (r0 : Z),
  mem_wf (mem s) ->
  (forall j, k <= j < k + Z.of_nat (length cs) ->
     addressMap (RA (cpu s) + j) 0 s = Ret (true, r0 + j) s) ->
  exists s', handleRead_chunks k cs s = Ret tt s' /\
    currentPCB s' = currentPCB s /\ cpu s' = cpu s /\ outFile s' = outFile s /\
    readyQueue s' = readyQueue s /\
    mem_wf (mem s') /\
    (forall i, (i < length cs)%nat ->
       read_word (mem s') (r0 + k + Z.of_nat i) = word_of_string (cs !!! i)) /\
    (forall c, 0 <= c -> ~ (r0 + k <= c < r0 + k + Z.of_nat (length cs)) ->
       read_word (mem s') c = read_word (mem s) c).
Proof.
  induction cs as [|w rest IH]; intros k s r0 Hwf Hmap.
  - exists s. cbn [handleRead_chunks length]. split_and!; try done. intros i Hi. lia.
  - cbn [length] in Hmap.
    assert (Hk : addressMap (RA (cpu s) + k) 0 s = Ret (true, r0 + k) s)
      by (apply Hmap; lia).
    destruct (addressMap_success _ _ _ _ Hk) as (Hrange & _).
    set (s1 := set_mem (write_word (r0 + k) (word_of_string w) (mem s)) s).
    destruct (IH (k + 1) s1 r0) as
      (s' & Hrun & Hcur & Hcpu & Hout & Hq & Hwf' & Hread & Hkeep).
    { by apply write_word_wf. }
    { intros j Hj.
      destruct (addressMap_success _ _ _ _ (Hmap j ltac:(lia))) as (_ & Hcong).
      by apply (Hcong s1). }
    exists s'. split_and!; try done.
    + cbn [handleRead_chunks]. unfold bind at 1. unfold get at 1.
      unfold bind at 1. rewrite Hk. cbn [fst snd negb].
      unfold bind at 1. unfold modify_mem, modify. exact Hrun.
    + intros [|i] Hi.
      * rewrite Z.add_0_r, Hkeep by lia. subst s1. cbn [mem set_mem].
        destruct Hwf as (Hlen & _). unfold MEM_SIZE in *.
        rewrite read_write_word by lia. by rewrite bool_decide_eq_true_2.
      * cbn [length] in Hi. rewrite lookup_total_cons_ne_0 by lia. cbn [Nat.pred].
        rewrite <- (Hread i) by lia. f_equal. lia.
    + intros c Hc Hout'. cbn [length] in Hout'. rewrite Hkeep by lia.
      subst s1. cbn [mem set_mem].
      destruct Hwf as (Hlen & _). unfold MEM_SIZE in *.
      rewrite read_write_word by lia. rewrite bool_decide_eq_false_2 by lia. done.
Qed.

(** X6: a data card read into mapped words.  When the virtual
    addresses [cpu.RA], [cpu.RA + 1], ... of the pieces of the front card
    are mapped to the consecutive words [r0], [r0 + 1], ..., [handleRead]
    removes the card from the job's data cards and stores piece [i],
    padded with spaces to four characters, in word [r0 + i]; every other
    word of the memory, the CPU and the output are as before. *)
Theorem read_card_into_memory (s : MOS) (p : PCB) (card : string) (rest : list string)
    (r0 : Z) :
  mem_wf (mem s) -> currentPCB s = Some p -> dataCards p = card :: rest ->
  (forall j, 0 <= j < Z.of_nat (length (chunks card)) ->
     addressMap (RA (cpu s) + j) 0 s = Ret (true, r0 + j) s) ->
  exists s', handleRead s = Ret tt s' /\
    currentPCB s' = Some (set_dataCards rest p) /\
    cpu s' = cpu s /\ outFile s' = outFile s /\
    (forall i, (i < length (chunks card))%nat ->
       read_word (mem s') (r0 + Z.of_nat i) = word_of_string (chunks card !!! i)) /\
    (forall c, 0 <= c -> ~ (r0 <= c < r0 + Z.of_nat (length (chunks card))) ->
       read_word (mem s') c = read_word (mem s) c).
Proof.
  intros Hwf Hp Hcards Hmap.
  set (s1 := set_currentPCB (Some (set_dataCards rest p)) s).
  destruct (handleRead_chunks_writes (chunks card) 0 s1 r0) as
    (s' & Hrun & Hcur & Hcpu & Hout & _ & _ & Hread & Hkeep).
  { done. }
  { intros j Hj.
    apply (addressMap_table _ _ _ _ (Hmap j ltac:(lia)) s1 0 p (set_dataCards rest p));
      done. }
  exists s'. split_and!; try done.
  - unfold handleRead. unfold bind at 1. rewrite (deref_Some s p Hp), Hcards.
    unfold bind. rewrite (modify_current_Some _ s p Hp). exact Hrun.
  - intros i Hi. rewrite <- (Hread i Hi). f_equal. lia.
  - intros c Hc Hout'. apply Hkeep; [done|]. lia.
Qed.

Lemma read_card_into_memory_witness :
  exists s',
    handleRead (set_currentPCB (Some (set_dataCards ["HELLO"%string] sample_PCB))
                  sample_MOS) = Ret tt s' /\
    read_word (mem s') 40 = ("H", "E", "L", "L")%char /\
    read_word (mem s') 41 = ("O", " ", " ", " ")%char.
Proof.
  destruct (read_card_into_memory
              (set_currentPCB (Some (set_dataCards ["HELLO"%string] sample_PCB))
                 sample_MOS)
              (set_dataCards ["HELLO"%string] sample_PCB) "HELLO" [] 40)
    as (s' & Hrun & _ & _ & _ & Hread & _).
  - exact (proj1 sample_MOS_wf).
  - reflexivity.
  - reflexivity.
  - intros j Hj. cbn in Hj.
    assert (Hcases : j = 0 \/ j = 1) by lia. destruct Hcases as [-> | ->]; reflexivity.
  - exists s'. split; [exact Hrun|]. split.
    + exact (Hread 0%nat ltac:(cbn; lia)).
    + exact (Hread 1%nat ltac:(cbn; lia)).
Defined.


Lemma addressMap_total (a RA0 : Z) (s : MOS) (p : PCB) :
  currentPCB s = Some p ->
  (exists ra, addressMap a RA0 s = Ret (true, ra) s) \/
  (exists r pi, addressMap a RA0 s = Ret (false, r) (set_cpu (set_PI pi (cpu s)) s) /\
                (pi = PI_OPERAND_ERR \/ pi = PI_PAGE_FAULT)).
Proof.
  intros Hp. unfold addressMap, bind, deref, ret, modify_cpu, modify.
  destruct ((a <? 0) || (a >=? MEM_SIZE)); [eauto 10|].
  destruct (Z.quot a PAGE_SIZE >=? FRAME_COUNT); [eauto 10|].
  rewrite Hp.
  repeat match goal with
         | |- context [if ?b then _ else _] => destruct b
         end; eauto 10.
Qed.

Lemma handleRead_chunks_total (cs : list string) :
  forall (k : Z) (s : MOS) (p : PCB),
  currentPCB s = Some p ->
  exists s', handleRead_chunks k cs s = Ret tt s' /\
    currentPCB s' = currentPCB s /\ SI (cpu s') = SI (cpu s) /\
    outFile s' = outFile s /\ readyQueue s' = readyQueue s.
Proof.
  induction cs as [|w rest IH]; intros k s p Hp.
  - by exists s.
  - cbn [handleRead_chunks]. unfold bind at 1. unfold get at 1. unfold bind at 1.
    destruct (addressMap_total (RA (cpu s) + k) 0 s p Hp)
      as [(ra & ->)|(r & pi & -> & _)]; cbn [fst snd negb].
    + unfold bind at 1. unfold modify_mem, modify.
      destruct (IH (k + 1) (set_mem (write_word ra (word_of_string w) (mem s)) s) p Hp)
        as (s' & Hrun & ?). by exists s'.
    + by eexists.
Qed.

Lemma chunks_nonempty (card : string) :
  card <> EmptyString -> exists c cs, chunks card = c :: cs.
Proof.
  destruct card as [|a [|b [|c [|d r]]]]; [done|..]; intros _; by eexists _, _.
Qed.

(** X7: [handleRead] at its edges.  With no data card left it sets
    SI = TERM and does nothing else.  With a card it always removes
    exactly the front card: also when the card is empty, in which case
    nothing else changes, and also when the first address is not mapped,
    in which case the memory is untouched and the card is lost with PI
    raised.  It never changes SI or the output when a card is there. *)
Theorem read_consumes_front_card (s : MOS) (p : PCB) :
  currentPCB s = Some p ->
  (dataCards p = [] -> handleRead s = Ret tt (set_cpu (set_SI TERM (cpu s)) s)) /\
  (forall card rest, dataCards p = card :: rest ->
     exists s', handleRead s = Ret tt s' /\
       currentPCB s' = Some (set_dataCards rest p) /\
       SI (cpu s') = SI (cpu s) /\ outFile s' = outFile s /\
       (card = EmptyString -> s' = set_currentPCB (Some (set_dataCards rest p)) s) /\
       (card <> EmptyString ->
        (forall ra, addressMap (RA (cpu s)) 0 s <> Ret (true, ra) s) ->
        mem s' = mem s /\
        (PI (cpu s') = PI_OPERAND_ERR \/ PI (cpu s') = PI_PAGE_FAULT))).
Proof.
  intros Hp. split.
  - intros Hcards. unfold handleRead, bind. by rewrite (deref_Some s p Hp), Hcards.
  - intros card rest Hcards.
    set (s1 := set_currentPCB (Some (set_dataCards rest p)) s).
    assert (Hrun : handleRead s = handleRead_chunks 0 (chunks card) s1).
    { unfold handleRead. unfold bind at 1. rewrite (deref_Some s p Hp), Hcards.
      unfold bind. by rewrite (modify_current_Some _ s p Hp). }
    destruct (handleRead_chunks_total (chunks card) 0 s1 (set_dataCards rest p))
      as (s' & Hchunks & Hcur & HSI & Hout & _); [done|].
    exists s'. rewrite Hrun. split_and!; try done.
    + intros ->. cbn in Hchunks. by injection Hchunks as <-.
    + intros Hne Hfail. destruct (chunks_nonempty card Hne) as (c & cs & Hcs).
      rewrite Hcs in Hchunks. cbn [handleRead_chunks] in Hchunks.
      unfold bind at 1 in Hchunks. unfold get at 1 in Hchunks.
      unfold bind at 1 in Hchunks. rewrite Z.add_0_r in Hchunks.
      destruct (addressMap_total (RA (cpu s1)) 0 s1 (set_dataCards rest p))
        as [(ra & Hok)|(r & pi & Hbad & Hpi)]; [done| |].
      * destruct (Hfail ra).
        apply (addressMap_table _ _ _ _ Hok s 0 (set_dataCards rest p) p); done.
      * rewrite Hbad in Hchunks. cbn in Hchunks. injection Hchunks as <-.
        split; [done|]. cbn. destruct Hpi as [-> | ->]; auto.
Qed.

Lemma read_consumes_front_card_witness :
  handleRead sample_MOS = Ret tt (set_cpu (set_SI TERM (cpu sample_MOS)) sample_MOS).
Proof.
  apply (proj1 (read_consumes_front_card sample_MOS sample_PCB eq_refl)).
  reflexivity.
Defined.


(** ** Output lines *)

Lemma nonnul_string_length (w : Word) : (String.length (nonnul_string w) <= 4)%nat.
Proof.
  destruct w as [[[a b] c] d]. unfold nonnul_string. cbn [string_of_word string_filter].
  destruct (negb (Ascii.eqb a NUL)), (negb (Ascii.eqb b NUL)),
    (negb (Ascii.eqb c NUL)), (negb (Ascii.eqb d NUL)); cbn; lia.
Qed.

(** X8: [handleWrite] within the line limit.  The call counts a line
    whatever happens.  When the address in [cpu.RA] is mapped it appends
    exactly one line to the output: the characters of that one word that
    are not NUL, so at most four characters; nothing else is printed and
    the memory is not changed.  When the address is not mapped the line
    is counted, nothing is printed and PI is raised. *)
Theorem write_prints_one_word (s : MOS) (p : PCB) :
  currentPCB s = Some p -> LLC p + 1 <= TLL p ->
  (forall ra, addressMap (RA (cpu s)) 0 s = Ret (true, ra) s ->
     handleWrite s =
     Ret tt (set_outFile (outFile s ++ [OutLine (nonnul_string (read_word (mem s) ra))])
               (set_currentPCB (Some (set_LLC (LLC p + 1) p)) s)) /\
     (String.length (nonnul_string (read_word (mem s) ra)) <= 4)%nat) /\
  ((forall ra, addressMap (RA (cpu s)) 0 s <> Ret (true, ra) s) ->
     exists pi, (pi = PI_OPERAND_ERR \/ pi = PI_PAGE_FAULT) /\
       handleWrite s =
       Ret tt (set_cpu (set_PI pi (cpu s))
                 (set_currentPCB (Some (set_LLC (LLC p + 1) p)) s))).
Proof.
  intros Hp Hlimit.
  set (s1 := set_currentPCB (Some (set_LLC (LLC p + 1) p)) s).
  assert (Hrun : handleWrite s =
            (let* r := addressMap (RA (cpu s)) 0 in
             if negb (fst r) then ret tt
             else let* s2 := get in
                  emit (OutLine (nonnul_string (read_word (mem s2) (snd r))))) s1).
  { unfold handleWrite. unfold bind at 1. rewrite (deref_Some s p Hp).
    unfold bind at 1. rewrite (modify_current_Some _ s p Hp).
    replace (LLC p + 1 >? TLL p) with false by lia. reflexivity. }
  split.
  - intros ra Hmap. split; [|apply nonnul_string_length].
    rewrite Hrun. unfold bind at 1.
    rewrite (addressMap_table _ _ _ _ Hmap s1 0 p (set_LLC (LLC p + 1) p)) by done.
    reflexivity.
  - intros Hfail.
    destruct (addressMap_total (RA (cpu s)) 0 s1 (set_LLC (LLC p + 1) p))
      as [(ra & Hok)|(r & pi & Hbad & Hpi)]; [done| |].
    + destruct (Hfail ra).
      apply (addressMap_table _ _ _ _ Hok s 0 (set_LLC (LLC p + 1) p) p); done.
    + exists pi. split; [done|]. rewrite Hrun. unfold bind at 1. rewrite Hbad.
      reflexivity.
Qed.

Lemma write_prints_one_word_witness :
  handleWrite (set_cpu (set_RA 91 (cpu sample_MOS)) sample_MOS) =
  Ret tt (set_outFile [OutLine "xxxx"]
            (set_currentPCB (Some (set_LLC 1 sample_PCB))
               (set_cpu (set_RA 91 (cpu sample_MOS)) sample_MOS))).
Proof.
  apply (proj1 (write_prints_one_word
                  (set_cpu (set_RA 91 (cpu sample_MOS)) sample_MOS) sample_PCB
                  eq_refl ltac:(vm_compute; discriminate)) 21).
  reflexivity.
Defined.


(** ** Round robin *)

Lemma switches_add (a b : nat) (s : MOS) :
  switches (a + b) s = (switches a ;; switches b) s.
Proof.
  revert s. induction a as [|a IH]; intros s; [reflexivity|].
  cbn [Nat.add switches]. unfold bind in *.
  destruct (contextSwitch s) as [[] s1|s1|s1]; [|reflexivity|reflexivity].
  apply IH.
Qed.

Lemma contextSwitch_step (s : MOS) (c next : PCB) (rest : list PCB) :
  currentPCB s = Some c -> readyQueue s = next :: rest ->
  exists s1, contextSwitch s = Ret tt s1 /\
    currentPCB s1 = Some (set_pcb_state RUNNING next) /\
    cpu s1 = set_IC (restored_IC next) (cpu s) /\
    readyQueue s1 = rest ++ [parked (IC (cpu s)) c] /\
    mem s1 = mem s /\ outFile s1 = outFile s /\ globalTimer s1 = globalTimer s /\
    systemRunning s1 = systemRunning s.
Proof.
  intros Hc Hq. eexists. split.
  - apply (contextSwitch_spec s c next (rest ++ [saved_context s c])); [done|].
    by rewrite Hq.
  - by split_and!.
Qed.

(** The jobs in front of [x] in the ready queue pass, [x] becomes
    current. *)
Lemma switches_front (front : list PCB) :
  forall (x : PCB) (back : list PCB) (s : MOS) (c : PCB),
  currentPCB s = Some c -> readyQueue s = front ++ x :: back ->
  exists s', switches (S (length front)) s = Ret tt s' /\
    currentPCB s' = Some (set_pcb_state RUNNING x) /\
    cpu s' = set_IC (restored_IC x) (cpu s) /\
    readyQueue s' = back ++ parked (IC (cpu s)) c :: map passed front /\
    mem s' = mem s /\ outFile s' = outFile s /\ globalTimer s' = globalTimer s /\
    systemRunning s' = systemRunning s.
Proof.
  induction front as [|f front IH]; intros x back s c Hc Hq.
  - destruct (contextSwitch_step s c x back Hc Hq) as (s1 & Hrun & H).
    exists s1. cbn [length switches]. unfold bind. rewrite Hrun. done.
  - destruct (contextSwitch_step s c f (front ++ x :: back) Hc Hq)
      as (s1 & Hrun & Hc1 & Hcpu1 & Hq1 & Hm1 & Ho1 & Hg1 & Hr1).
    destruct (IH x (back ++ [parked (IC (cpu s)) c]) s1 (set_pcb_state RUNNING f))
      as (s' & Hrun' & Hc' & Hcpu' & Hq' & Hm' & Ho' & Hg' & Hr'); [done| |].
    { rewrite Hq1. by rewrite <- app_assoc. }
    exists s'. split_and!; try congruence.
    + change (switches (S (length (f :: front)))) with (contextSwitch ;; switches (S (length front))).
      unfold bind. rewrite Hrun. exact Hrun'.
    + rewrite Hcpu', Hcpu1. reflexivity.
    + rewrite Hq', Hcpu1. rewrite <- app_assoc. reflexivity.
Qed.

(** X9: round robin without loss.  From a state with a current job and
    [n] jobs in the ready queue, [n + 1] context switches in a row make
    every job current once, in queue order, and end with the first job
    current again: its instruction counter is the one it was parked with,
    the queue holds the same jobs in the same order, and memory, output
    and clock are untouched.  (The counter -1 is the mark of a job that
    has not run: a job parked with it would restart at 0.) *)
Theorem round_robin_full_turn (s : MOS) (p : PCB) :
  currentPCB s = Some p -> IC (cpu s) <> -1 ->
  exists s', switches (S (length (readyQueue s))) s = Ret tt s' /\
    currentPCB s' = Some (set_pcb_state RUNNING (parked (IC (cpu s)) p)) /\
    cpu s' = cpu s /\
    readyQueue s' = map passed (readyQueue s) /\
    map pid (readyQueue s') = map pid (readyQueue s) /\
    mem s' = mem s /\ outFile s' = outFile s /\ globalTimer s' = globalTimer s.
Proof.
  intros Hp HIC.
  assert (Hback : restored_IC (parked (IC (cpu s)) p) = IC (cpu s)).
  { unfold restored_IC, parked. cbn. by replace (IC (cpu s) =? -1) with false by lia. }
  assert (Hcpu : set_IC (IC (cpu s)) (cpu s) = cpu s) by by destruct (cpu s).
  assert (Hpid : forall q, map pid (map passed q) = map pid q).
  { intros q. rewrite map_map. by apply map_ext. }
  destruct (readyQueue s) as [|x0 q0] eqn:Hq using rev_ind.
  - destruct (contextSwitch_cases s) as [[Hnone _]|(p0 & next & rest & Hp0 & Hnext & Hrun)];
      [congruence|].
    rewrite Hp in Hp0. injection Hp0 as <-. rewrite Hq in Hnext. cbn in Hnext.
    injection Hnext as <- <-.
    eexists. cbn [length switches]. unfold bind. rewrite Hrun. split; [reflexivity|].
    cbn. change (saved_context s p) with (parked (IC (cpu s)) p).
    rewrite Hback, Hcpu. by split_and!.
  - destruct (switches_front q0 x0 [] s p Hp Hq)
      as (s1 & Hrun1 & Hc1 & Hcpu1 & Hq1 & Hm1 & Ho1 & Hg1 & _).
    cbn [app] in Hq1.
    destruct (contextSwitch_step s1 (set_pcb_state RUNNING x0) (parked (IC (cpu s)) p)
                (map passed q0) Hc1 Hq1)
      as (s2 & Hrun2 & Hc2 & Hcpu2 & Hq2 & Hm2 & Ho2 & Hg2 & _).
    exists s2. split_and!; try congruence.
    + rewrite length_app. cbn [length].
      replace (S (length q0 + 1)) with (S (length q0) + 1)%nat by lia.
      rewrite switches_add. unfold bind at 1. rewrite Hrun1.
      cbn [switches]. unfold bind. by rewrite Hrun2.
    + rewrite Hcpu2, Hback, Hcpu1. by destruct (cpu s).
    + rewrite Hq2, Hcpu1, map_app. reflexivity.
    + rewrite Hq2, Hcpu1, !map_app, Hpid. reflexivity.
Qed.

Lemma round_robin_full_turn_witness :
  exists s',
    switches 3 (set_readyQueue [new_PCB 8 5 5 10; new_PCB 9 5 5 20] sample_MOS)
      = Ret tt s' /\
    map pid (readyQueue s') = [8; 9] /\
    currentPCB s' = Some (set_pcb_state RUNNING (parked 0 sample_PCB)).
Proof.
  destruct (round_robin_full_turn
              (set_readyQueue [new_PCB 8 5 5 10; new_PCB 9 5 5 20] sample_MOS)
              sample_PCB eq_refl ltac:(vm_compute; discriminate))
    as (s' & Hrun & Hcur & _ & _ & Hpids & _).
  exists s'. split; [exact Hrun|]. split; [exact Hpids|exact Hcur].
Defined.


(** ** The loader, card by card *)

Lemma load_lines_app (e : Entropy) (a b : list string) (st : Loader * MOS) :
  load_lines e (a ++ b) st =
  match load_lines e a st with
  | inl err => inl err
  | inr st' => load_lines e b st'
  end.
Proof.
  revert st. induction a as [|line a IH]; intros st; [reflexivity|].
  cbn [app load_lines]. destruct (load_line e line st); [reflexivity|apply IH].
Qed.

Lemma substring_past_end (s : string) :
  forall n m, (String.length s <= n)%nat -> String.substring n m s = EmptyString.
Proof.
  induction s as [|c s IH]; intros n m Hlen.
  - by destruct n, m.
  - destruct n as [|n]; cbn in Hlen; [lia|]. cbn. apply IH. lia.
Qed.

Lemma card_field_short (line : string) (pos : nat) :
  (String.length line <= pos)%nat -> card_field line pos = None.
Proof.
  intros Hlen. unfold card_field, substr.
  destruct (Nat.ltb_spec (String.length line) pos); [reflexivity|].
  by rewrite substring_past_end.
Qed.

(** X10: a job card that is too short.  The three numbers of a [$AMJ]
    card are read from the columns 4-7, 8-11 and 12-15; a card of fewer
    than 13 characters has nothing in the last field, the conversion
    throws, and the exception ends [loadJobs] and with it the run: no job
    of the deck is executed, those loaded before the card included. *)
Theorem short_job_card_aborts (e : Entropy) (line : string) :
  starts_with "$AMJ" line = true -> (String.length line < 13)%nat ->
  (forall st, load_line e line st = inl BadJobCard) /\
  (forall before rest st0 st,
     load_lines e before st0 = inr st ->
     load_lines e (before ++ line :: rest) st0 = inl BadJobCard) /\
  (forall rest fuel s, run e (line :: rest) fuel s = inl BadJobCard).
Proof.
  intros Hamj Hlen.
  assert (Hline : forall st, load_line e line st = inl BadJobCard).
  { intros [l s]. unfold load_line. rewrite Hamj.
    rewrite (card_field_short line 12) by lia.
    by destruct (card_field line 4), (card_field line 8). }
  split_and!; [exact Hline| |].
  - intros before rest st0 st Hbefore. rewrite load_lines_app, Hbefore.
    cbn [load_lines]. by rewrite Hline.
  - intros rest fuel s. unfold run, loadJobs. cbn [load_lines]. by rewrite Hline.
Qed.

Lemma short_job_card_aborts_witness :
  run entropy_spread ["$AMJ00010010"; "H"; "$DTA"; "$END"]%string 5 fresh_MOS
  = inl BadJobCard.
Proof.
  apply (short_job_card_aborts entropy_spread "$AMJ00010010" eq_refl).
  cbn. lia.
Defined.


Lemma load_line_count (e : Entropy) (line : string) (l l' : Loader) (s s' : MOS) :
  entropy_in_range e ->
  loader_inv l s ->
  load_line e line (l, s) = inr (l', s') ->
  let n := if starts_with "$AMJ" line then 1%nat else 0%nat in
  (count_true (allocated (mem s)) + n <= count_true (allocated (mem s')))%nat /\
  (jobs_held l' s' <= jobs_held l s + n)%nat.
Proof.
  intros He (Hwf & _) Hload. unfold load_line in Hload. unfold jobs_held.
  destruct Hwf as (Hm & _ & _). pose proof Hm as (_ & Hlen & _).
  destruct (starts_with "$AMJ" line).
  { destruct (card_field line 4) as [pid_|]; [|done].
    destruct (card_field line 8) as [ttl|]; [|done].
    destruct (card_field line 12) as [tll|]; [|done].
    destruct (allocateFrame (e (rdCalls l)) (mem s)) as [fr m] eqn:Halloc.
    destruct (Z.eqb_spec fr (-1)) as [|Hfr]; [done|].
    injection Hload as <- <-.
    destruct (allocateFrame_result _ _ _ _ (He _) Hm Halloc)
      as [[? _]|(Hrange & Hfree & ->)]; [done|].
    cbn. rewrite count_true_insert.
    - destruct (pcb l); lia.
    - apply lookup_total_Some_bool; [|done]. unfold FRAME_COUNT in *. lia. }
  cbv zeta.
  destruct (starts_with "$DTA" line).
  { destruct (pcb l) as [p|] eqn:Hp.
    2:{ injection Hload as <- <-. cbn. rewrite ?Hp. lia. }
    destruct (String.eqb (programCode l) EmptyString).
    { injection Hload as <- <-. cbn. rewrite ?Hp. lia. }
    destruct (loadProgramIntoMemory e (rdCalls l) p (programCode l) (mem s))
      as [[[p' m'] k']|] eqn:Hprog; [|done].
    injection Hload as <- <-.
    destruct (loadProgramIntoMemory_spec _ _ _ _ _ _ _ _ He Hm Hprog)
      as (_ & Hcount & _).
    cbn. lia. }
  destruct (starts_with "$END" line).
  { destruct (pcb l) as [p|] eqn:Hp; injection Hload as <- <-; cbn;
      rewrite ?length_app; cbn; lia. }
  destruct (pcb l) as [p|] eqn:Hp.
  2:{ injection Hload as <- <-. rewrite ?Hp. lia. }
  destruct (readingData l); injection Hload as <- <-; cbn; rewrite ?Hp; lia.
Qed.

Lemma load_lines_count (e : Entropy) (lines : list string) :
  entropy_in_range e ->
  forall (l l' : Loader) (s s' : MOS),
  loader_inv l s ->
  load_lines e lines (l, s) = inr (l', s') ->
  (count_true (allocated (mem s)) + length (job_cards lines)
   <= count_true (allocated (mem s')))%nat /\
  (jobs_held l' s' <= jobs_held l s + length (job_cards lines))%nat.
Proof.
  intros He. induction lines as [|line lines IH]; intros l l' s s' Hinv Hload.
  - injection Hload as <- <-. cbn. lia.
  - cbn [load_lines] in Hload.
    destruct (load_line e line (l, s)) as [|[l1 s1]] eqn:Hline; [done|].
    destruct (load_line_count e line l l1 s s1 He Hinv Hline) as (Hc1 & Hj1).
    destruct (IH l1 l' s1 s' (load_line_inv e line l l1 s s1 He Hinv Hline) Hload)
      as (Hc2 & Hj2).
    unfold job_cards in *. cbn [List.filter].
    destruct (starts_with "$AMJ" line); cbn [length]; lia.
Qed.

(** X11: the capacity of the loader.  Every [$AMJ] card takes a frame
    for the page table of its job and no frame is given back while the
    deck is read, so a deck that [loadJobs] accepts has at most
    FRAME_COUNT = 10 job cards: the jobs queued are no more than the job
    cards, and the job cards no more than the frames allocated.  An
    eleventh job card always ends the load with an exception. *)
Theorem at_most_ten_job_cards (e : Entropy) (lines : list string) (junk : list Word)
    (junkIR : Word) (s : MOS) :
  entropy_in_range e -> length junk = Z.to_nat MEM_SIZE ->
  loadJobs e lines (initial_MOS junk junkIR) = inr s ->
  (length (readyQueue s) <= length (job_cards lines))%nat /\
  (length (job_cards lines) <= count_true (allocated (mem s)))%nat /\
  (count_true (allocated (mem s)) <= 10)%nat.
Proof.
  intros He Hjunk Hload. unfold loadJobs in Hload.
  destruct (load_lines e lines _) as [|[l' s']] eqn:Hlines; [done|].
  injection Hload as ->.
  pose proof (initial_MOS_inv junk junkIR Hjunk) as Hinv.
  destruct (load_lines_count e lines He _ _ _ _ Hinv Hlines) as (Hc & Hj).
  pose proof (load_lines_inv e lines He _ _ _ _ Hinv Hlines) as (((_ & Hlen & _) & _) & _).
  pose proof (count_true_le_length (allocated (mem s))) as Hle.
  rewrite Hlen in Hle. unfold jobs_held in Hj. cbn in Hc, Hj.
  change (Z.to_nat FRAME_COUNT) with 10%nat in Hle.
  destruct (pcb l'); lia.
Qed.

Lemma at_most_ten_job_cards_witness :
  (length (readyQueue (loaded job_one_instruction)) <= 1)%nat /\
  (1 <= count_true (allocated (mem (loaded job_one_instruction))))%nat.
Proof.
  destruct (at_most_ten_job_cards entropy_spread job_one_instruction junk_data word0
              (loaded job_one_instruction) entropy_spread_in_range eq_refl eq_refl)
    as (Hq & Hc & _).
  split; [exact Hq|exact Hc].
Defined.


Lemma string_append_assoc (a b c : string) :
  append (append a b) c = append a (append b c).
Proof. induction a as [|x a IH]; cbn; [reflexivity|by rewrite IH]. Qed.

Lemma string_append_empty (a : string) : append a EmptyString = a.
Proof. induction a as [|x a IH]; cbn; [reflexivity|by rewrite IH]. Qed.

Lemma load_line_plain (e : Entropy) (line : string) (l : Loader) (s : MOS) (p : PCB) :
  plain line = true -> pcb l = Some p ->
  load_line e line (l, s) =
  if readingData l
  then inr (mkLoader (Some (set_dataCards (dataCards p ++ [line]) p))
                     (readingData l) (programCode l) (rdCalls l), s)
  else inr (mkLoader (pcb l) (readingData l)
                     (append (programCode l) (append line (String NEWLINE EmptyString)))
                     (rdCalls l), s).
Proof.
  unfold plain. intros Hplain Hp. unfold load_line.
  destruct (starts_with "$AMJ" line); [done|].
  destruct (starts_with "$DTA" line); [done|].
  destruct (starts_with "$END" line); [done|].
  by rewrite Hp.
Qed.

(** The lines between the job card and [$DTA] make up the program text. *)
Lemma load_lines_program (e : Entropy) (prog : list string) :
  Forall (fun x => plain x = true) prog ->
  forall (p : PCB) (code : string) (k : nat) (s : MOS),
  load_lines e prog (mkLoader (Some p) false code k, s) =
  inr (mkLoader (Some p) false (append code (program_text prog)) k, s).
Proof.
  induction 1 as [|line prog Hline _ IH]; intros p code k s.
  - cbn. by rewrite string_append_empty.
  - cbn [load_lines].
    rewrite (load_line_plain e line (mkLoader (Some p) false code k) s p Hline eq_refl).
    cbn [readingData pcb programCode rdCalls]. rewrite IH.
    do 2 f_equal. unfold program_text. cbn [fold_right].
    rewrite !string_append_assoc. reflexivity.
Qed.

(** The lines between [$DTA] and [$END] are the data cards, in order. *)
Lemma load_lines_data (e : Entropy) (cards : list string) :
  Forall (fun x => plain x = true) cards ->
  forall (p : PCB) (code : string) (k : nat) (s : MOS),
  load_lines e cards (mkLoader (Some p) true code k, s) =
  inr (mkLoader (Some (set_dataCards (dataCards p ++ cards) p)) true code k, s).
Proof.
  induction 1 as [|line cards Hline _ IH]; intros p code k s.
  - cbn. rewrite app_nil_r. by destruct p.
  - cbn [load_lines].
    rewrite (load_line_plain e line (mkLoader (Some p) true code k) s p Hline eq_refl).
    cbn [readingData pcb programCode rdCalls]. rewrite IH.
    cbn. rewrite <- app_assoc. reflexivity.
Qed.

Lemma load_pages_fields (e : Entropy) (instructions : list string) (todo : nat) :
  forall (i : Z) (k : nat) (p : PCB) (m : Memory) p' m' k',
  load_pages e instructions i todo k p m = Some (p', m', k') ->
  p' = set_pageTable (pageTable p') p.
Proof.
  induction todo as [|todo IH]; intros i k p m p' m' k' Hload.
  - injection Hload as <- <- <-. by destruct p.
  - cbn [load_pages] in Hload.
    destruct (allocateFrame (e k) m) as [fr m1].
    destruct (fr =? -1); [done|].
    apply IH in Hload. rewrite Hload. reflexivity.
Qed.

(** X12: a regular job deck.  For the cards of one job (a job card with
    three numbers, one or more program lines, [$DTA], the data cards,
    [$END]; no program line or data card begins with a control word)
    [loadJobs] appends exactly one PCB to the ready queue: it carries the
    numbers of the job card, zero counters, the program as
    [loadProgramIntoMemory] placed it for the text of the program lines,
    and the data cards in the order of the deck.  The loader is then
    ready for the next job. *)
Theorem regular_deck_queues_one_job (e : Entropy) (amj : string)
    (prog cards : list string) (l : Loader) (s : MOS) (pid_ ttl tll fr : Z)
    (m1 : Memory) (p' : PCB) (m2 : Memory) (k' : nat) :
  starts_with "$AMJ" amj = true ->
  card_field amj 4 = Some pid_ -> card_field amj 8 = Some ttl ->
  card_field amj 12 = Some tll ->
  readingData l = false ->
  Forall (fun x => plain x = true) prog -> prog <> [] ->
  Forall (fun x => plain x = true) cards ->
  allocateFrame (e (rdCalls l)) (mem s) = (fr, m1) -> fr <> -1 ->
  loadProgramIntoMemory e (S (rdCalls l)) (new_PCB pid_ ttl tll (fr * PAGE_SIZE))
    (program_text prog) m1 = Some (p', m2, k') ->
  load_lines e (amj :: prog ++ "$DTA"%string :: cards ++ ["$END"%string]) (l, s) =
    inr (mkLoader None false (program_text prog) k',
         set_readyQueue (readyQueue s ++ [set_dataCards cards p']) (set_mem m2 s)) /\
  pid p' = pid_ /\ TTL p' = ttl /\ TLL p' = tll /\ TTC p' = 0 /\ LLC p' = 0 /\
  PTR p' = fr * PAGE_SIZE /\ terminated p' = false /\
  programCounter (context p') = -1 /\ state (context p') = READY.
Proof.
  intros Hamj Hpid Httl Htll Hrd Hprog Hne Hcards Halloc Hfr Hload.
  split.
  - cbn [load_lines]. unfold load_line at 1. rewrite Hamj, Hpid, Httl, Htll, Halloc.
    replace (fr =? -1) with false by lia. rewrite Hrd.
    rewrite load_lines_app, load_lines_program by done.
    cbn [append load_lines]. unfold load_line at 1.
    change (starts_with "$AMJ" "$DTA") with false.
    change (starts_with "$DTA" "$DTA") with true.
    cbn [pcb programCode rdCalls mem set_mem].
    replace (String.eqb (program_text prog) EmptyString) with false.
    2:{ destruct prog as [|x prog]; [done|]. unfold program_text. cbn [fold_right].
        destruct x; reflexivity. }
    rewrite Hload. rewrite load_lines_app, load_lines_data by done.
    cbn [load_lines]. unfold load_line.
    change (starts_with "$AMJ" "$END") with false.
    change (starts_with "$DTA" "$END") with false.
    change (starts_with "$END" "$END") with true.
    cbn [pcb programCode rdCalls readyQueue set_mem].
    unfold loadProgramIntoMemory in Hload. apply load_pages_fields in Hload.
    rewrite Hload. reflexivity.
  - unfold loadProgramIntoMemory in Hload. apply load_pages_fields in Hload.
    rewrite Hload. by split_and!.
Qed.


Lemma regular_deck_queues_one_job_witness :
  exists p' l' s',
    load_lines entropy_spread job_echo (mkLoader None false EmptyString 0, fresh_MOS)
      = inr (l', s') /\
    readyQueue s' = [set_dataCards ["HELLO"%string] p'] /\
    pid p' = 1 /\ TTL p' = 10 /\ TLL p' = 10.
Proof.
  destruct (loadProgramIntoMemory entropy_spread 1 (new_PCB 1 10 10 (3 * PAGE_SIZE))
              (program_text ["GD10"; "PD10"; "H"]%string)
              (snd (allocateFrame (entropy_spread 0%nat) (mem fresh_MOS))))
    as [[[p' m2] k']|] eqn:Hload; [|vm_compute in Hload; discriminate].
  destruct (regular_deck_queues_one_job entropy_spread "$AMJ000100100010"
              ["GD10"; "PD10"; "H"]%string ["HELLO"%string]
              (mkLoader None false EmptyString 0) fresh_MOS 1 10 10 3
              (snd (allocateFrame (entropy_spread 0%nat) (mem fresh_MOS))) p' m2 k')
    as (Hrun & Hpid & Httl & Htll & _).
  - reflexivity.
  - reflexivity.
  - reflexivity.
  - reflexivity.
  - reflexivity.
  - repeat constructor.
  - discriminate.
  - repeat constructor.
  - reflexivity.
  - discriminate.
  - exact Hload.
  - eexists p', _, _. split; [exact Hrun|]. split; [reflexivity|].
    split; [exact Hpid|]. split; [exact Httl|exact Htll].
Defined.


(** ** Invariants of a whole run

    The steps a run is made of: changes of the CPU that leave TI alone or
    clear it, a word written, a step of the current PCB, a trace message,
    a tick of the clock, the two calls of [terminate] in
    [executeInstruction], the handler of a dispatched entry,
    [handleWrite], a context switch, and the selection of a job.  A
    preorder on states that admits each of them relates the state before
    a run to the state the run ends in, whatever the outcome. *)

Section Run.

Context (Rel : MOS -> MOS -> Prop) `{!Reflexive Rel} `{!Transitive Rel}.

Hypothesis R_cpu : forall s c, TI c = TI (cpu s) \/ TI c = 0 -> Rel s (set_cpu c s).
Hypothesis R_write : forall s a w, Rel s (set_mem (write_word a w (mem s)) s).
Hypothesis R_pcb : forall s p p',
  currentPCB s = Some p -> pcb_step p p' -> Rel s (set_currentPCB (Some p') s).
Hypothesis R_console : forall s ev, Rel s (set_console (ev :: console s) s).
Hypothesis R_tick : forall s, Rel s (set_globalTimer (globalTimer s + 1) s).
Hypothesis R_terminate : forall code,
  code = EM_NO_ERR \/ code = EM_OP_CODE_ERR -> stays Rel (terminate code).
Hypothesis R_dispatch : forall s e,
  select_entry (cpu s) = Some e -> Rel s (final (call (handler e) s)).
Hypothesis R_handleWrite : stays Rel handleWrite.
Hypothesis R_switch : stays Rel contextSwitch.
Hypothesis R_select : stays Rel selectJob.

Lemma rel_bind {A B} (m : M A) (k : A -> M B) (s : MOS) :
  Rel s (final (m s)) ->
  (forall a s1, m s = Ret a s1 -> Rel s1 (final (k a s1))) ->
  Rel s (final (bind m k s)).
Proof.
  intros Hm Hk. unfold bind. destruct (m s) as [a s1|s1|s1]; [|done|done].
  etrans; [exact Hm|]. by apply Hk.
Qed.

Lemma run_modify_cpu (f : CPUState -> CPUState) :
  (forall c, TI (f c) = TI c \/ TI (f c) = 0) -> stays Rel (modify_cpu f).
Proof. intros Hf s. apply R_cpu. apply Hf. Qed.

Lemma run_modify_current (f : PCB -> PCB) :
  (forall p, pcb_step p (f p)) -> stays Rel (modify_current f).
Proof.
  intros Hf s. unfold modify_current.
  destruct (currentPCB s) as [p|] eqn:Hp; cbn; [|reflexivity].
  by apply (R_pcb s p).
Qed.

Ltac pcb_step_tac := intros; unfold pcb_step; cbn; split_and!; (reflexivity || lia).

Ltac run_with tac :=
  repeat first
    [ progress intros
    | tac
    | apply stays_ret; assumption
    | apply stays_get; assumption
    | apply stays_deref; assumption
    | apply stays_out_of_fuel; assumption
    | apply run_modify_cpu; intros; left; reflexivity
    | apply run_modify_current; pcb_step_tac
    | apply R_terminate; auto
    | apply R_handleWrite
    | apply stays_modify; intros ?;
      first [apply R_cpu; left; reflexivity | apply R_write | apply R_tick
            | apply R_console]
    | apply stays_bind; [assumption| |]
    | match goal with
      | |- stays _ (if ?b then _ else _) => destruct b
      | |- stays _ (match ?x with _ => _ end) => destruct x
      end ].

Lemma run_addressMap (VA RA0 : Z) : stays Rel (addressMap VA RA0).
Proof. unfold addressMap. run_with fail. Qed.

Lemma run_handleRead_chunks (cs : list string) (k : Z) :
  stays Rel (handleRead_chunks k cs).
Proof.
  revert k. induction cs as [|c cs IH]; intros k; cbn [handleRead_chunks].
  - by apply stays_ret.
  - unfold modify_mem. run_with ltac:(first [apply run_addressMap | apply IH]).
Qed.

Lemma run_handleRead : stays Rel handleRead.
Proof. unfold handleRead. run_with ltac:(apply run_handleRead_chunks). Qed.

Lemma run_saveContext : stays Rel saveContext.
Proof.
  intros s. unfold saveContext.
  destruct (currentPCB s) as [p|] eqn:Hp; cbn; [|reflexivity].
  apply (R_pcb s p); [done|]. pcb_step_tac.
Qed.

Lemma run_restoreContext : stays Rel restoreContext.
Proof.
  intros s. unfold restoreContext.
  destruct (currentPCB s) as [p|] eqn:Hp; cbn; [|reflexivity].
  destruct (_ =? _); cbn;
    (etrans; [apply (R_pcb s p (set_pcb_state RUNNING p)); [done|pcb_step_tac]
             |apply R_cpu; by left]).
Qed.

Lemma clear_serviced_TI (e : InterruptVectorEntry) (c : CPUState) :
  TI (clear_serviced e c) = TI c \/ TI (clear_serviced e c) = 0.
Proof.
  unfold clear_serviced.
  destruct (type e =? 0); [by right|].
  destruct (type e =? PI c); [by left|].
  destruct (type e =? SI c); by left.
Qed.

Lemma run_handleInterrupt : stays Rel handleInterrupt.
Proof.
  intros s. unfold handleInterrupt. cbn [interruptsEnabled negb].
  unfold bind at 1. unfold get at 1.
  destruct (select_entry (cpu s)) as [e|] eqn:Hsel; [|reflexivity].
  apply rel_bind; [apply run_saveContext|].
  intros [] s1 Hsave.
  assert (Hcpu : cpu s1 = cpu s).
  { unfold saveContext in Hsave. destruct (currentPCB s); by injection Hsave as <-. }
  apply rel_bind; [apply R_dispatch; by rewrite Hcpu|].
  intros [] s2 _.
  match goal with |- Rel _ (final (?k s2)) => enough (Hk : stays Rel k) by apply Hk end.
  run_with ltac:(first [ apply run_restoreContext
                       | apply run_modify_cpu; apply clear_serviced_TI ]).
Qed.

Lemma run_executeArithmeticLogic (op : string) (target : Z) :
  stays Rel (executeArithmeticLogic op target).
Proof. unfold executeArithmeticLogic. run_with ltac:(apply run_addressMap). Qed.

Lemma run_executeInstruction : stays Rel executeInstruction.
Proof.
  unfold executeInstruction, debugPrint, handleTerminate.
  run_with ltac:(first [ apply run_handleRead | apply run_addressMap
                       | apply run_handleInterrupt
                       | apply run_executeArithmeticLogic ]).
Qed.

Lemma run_deref_step {B} (f : PCB -> PCB -> PCB) (K : PCB -> M B) :
  (forall p, pcb_step p (f p p)) -> (forall p, stays Rel (K p)) ->
  stays Rel (let* p := deref in modify_current (f p) ;; K p).
Proof.
  intros Hf HK s. unfold bind, deref, modify_current.
  destruct (currentPCB s) as [p|] eqn:Hp; cbn; rewrite ?Hp; cbn; [|reflexivity].
  etrans; [by apply (R_pcb s p)|apply HK].
Qed.

Lemma run_checkTimeSlice : stays Rel checkTimeSlice.
Proof. unfold checkTimeSlice. run_with ltac:(apply R_switch). Qed.

(** An iteration of the loop of [executeJob], entered with time left:
    the check of the time limit inside the loop cannot fire. *)
Lemma run_executeJob_body (s : MOS) :
  (forall p, currentPCB s = Some p -> TTC p < TTL p) ->
  Rel s (final (executeJob_body s)).
Proof.
  intros Htime. unfold executeJob_body. unfold bind at 1. unfold deref at 1.
  destruct (currentPCB s) as [p|] eqn:Hp; [|reflexivity].
  replace (TTC p >=? TTL p) with false by (specialize (Htime p eq_refl); lia).
  match goal with |- Rel _ (final (?k s)) => enough (Hk : stays Rel k) by apply Hk end.
  run_with ltac:(first [ apply run_addressMap | apply run_executeInstruction
                       | apply run_handleInterrupt | apply run_checkTimeSlice
                       | apply (run_deref_step (fun p => set_TTC (TTC p + 1)));
                         [pcb_step_tac|] ]).
Qed.

Lemma run_executeJob_loop (fuel : nat) : stays Rel (executeJob_loop fuel).
Proof.
  induction fuel as [|fuel IH]; intros s; cbn [executeJob_loop]; [reflexivity|].
  unfold bind at 1. unfold deref at 1.
  destruct (currentPCB s) as [p|] eqn:Hp; [|reflexivity].
  destruct (negb (terminated p) && (TTC p <? TTL p)) eqn:Hguard; [|reflexivity].
  apply rel_bind.
  - apply run_executeJob_body. intros p0 Hp0. rewrite Hp in Hp0. injection Hp0 as <-.
    apply andb_prop in Hguard as [_ Hlt]. lia.
  - intros [] s1 _; [apply IH|reflexivity].
Qed.

Lemma run_executeJob (fuel : nat) : stays Rel (executeJob fuel).
Proof. unfold executeJob. run_with ltac:(apply run_executeJob_loop). Qed.

Lemma run_run_loop (fuel : nat) : stays Rel (run_loop fuel).
Proof.
  induction fuel as [|fuel IH]; cbn [run_loop];
    run_with ltac:(first [apply R_select | apply run_executeJob | apply IH]).
Qed.

End Run.


(** [handleWrite] from its three steps. *)
Section Write.

Context (Rel : MOS -> MOS -> Prop) `{!Reflexive Rel} `{!Transitive Rel}.

Hypothesis W_cpu : forall s c, TI c = TI (cpu s) \/ TI c = 0 -> Rel s (set_cpu c s).
Hypothesis W_count : forall s p,
  currentPCB s = Some p -> Rel s (set_currentPCB (Some (set_LLC (LLC p + 1) p)) s).
Hypothesis W_line : forall s l, Rel s (set_outFile (outFile s ++ [OutLine l]) s).

Lemma handleWrite_steps : stays Rel handleWrite.
Proof.
  intros s. unfold handleWrite. unfold bind at 1. unfold deref at 1.
  destruct (currentPCB s) as [p|] eqn:Hp; [|reflexivity].
  unfold bind at 1. rewrite (modify_current_Some _ s p Hp).
  etrans; [exact (W_count s p Hp)|].
  match goal with |- Rel ?s1 (final (?k ?s1)) => enough (Hk : stays Rel k) by apply Hk end.
  destruct (LLC p + 1 >? TLL p).
  - intros s1. apply W_cpu. by left.
  - unfold emit, modify_cpu, modify, addressMap, get, ret, bind, deref.
    intros s1.
    repeat match goal with
           | |- context [if ?b then _ else _] => destruct b; cbn
           | |- context [match currentPCB ?x with _ => _ end] =>
               destruct (currentPCB x); cbn
           end;
      first [reflexivity | apply W_line | apply W_cpu; by left].
Qed.

End Write.

(** ** The reasons a run can write *)

Lemma untimed_terminate (code : EM_Code) :
  reachable_reason code = true -> stays (keeps untimed) (terminate code).
Proof.
  intros Hcode s (HTI & Hout). unfold terminate.
  destruct (currentPCB s) as [p|]; [|by split].
  assert (Hout' : reasons_reachable
                    (outFile s ++ [OutTerminated (pid p) code (TTC p) (LLC p)])).
  { apply Forall_app. split; [done|]. by constructor. }
  cbn [mem set_outFile].
  destruct (retire p (mem s)) as [[p' m']|]; [|split; [exact HTI|exact Hout']].
  destruct (ProcessState_eqb _ _); cbn; destruct (readyQueue s); cbn;
    (split; [reflexivity|exact Hout']).
Qed.

Lemma untimed_dispatch (s : MOS) (e : InterruptVectorEntry) :
  select_entry (cpu s) = Some e -> keeps untimed s (final (call (handler e) s)).
Proof.
  intros Hsel Hun. pose proof Hun as (HTI & _).
  pose proof (select_entry_table (cpu s)) as Htable.
  rewrite Hsel in Htable. unfold dispatch_table in Htable. rewrite HTI in Htable.
  cbn [Z.eqb negb option_map] in Htable.
  repeat match type of Htable with
         | context [if ?b then _ else _] => destruct b
         end; try discriminate; injection Htable as ->; cbn [call];
    by apply untimed_terminate.
Qed.

Lemma untimed_contextSwitch : stays (keeps untimed) contextSwitch.
Proof.
  intros s Hun.
  by destruct (contextSwitch_cases s) as [[_ ->]|(p & next & rest & _ & _ & ->)].
Qed.

Lemma untimed_selectJob : stays (keeps untimed) selectJob.
Proof.
  intros s Hun. unfold selectJob.
  destruct (currentPCB s); [done|].
  destruct (readyQueue s) as [|next rest]; [done|].
  unfold bind, restoreContext. cbn. by destruct (_ =? _).
Qed.

Lemma untimed_run_loop (fuel : nat) : stays (keeps untimed) (run_loop fuel).
Proof.
  apply run_run_loop; try apply _.
  - intros s c HTI (Hs & Hout). split; [|done]. cbn. lia.
  - by intros s a w Hun.
  - by intros s p p' _ _ Hun.
  - by intros s ev Hun.
  - by intros s Hun.
  - intros code [-> | ->]; by apply untimed_terminate.
  - apply untimed_dispatch.
  - apply handleWrite_steps; try apply _.
    + intros s c HTI (Hs & Hout). split; [|done]. cbn. lia.
    + by intros s p _ Hun.
    + intros s l (HTI & Hout). split; [done|]. cbn.
      apply Forall_app. split; [done|]. by constructor.
  - apply untimed_contextSwitch.
  - apply untimed_selectJob.
Qed.

(** The loader changes the memory and the ready queue only. *)
Lemma load_line_frame (e : Entropy) (line : string) (l l' : Loader) (s s' : MOS) :
  load_line e line (l, s) = inr (l', s') ->
  cpu s' = cpu s /\ outFile s' = outFile s /\ currentPCB s' = currentPCB s /\
  console s' = console s /\ globalTimer s' = globalTimer s /\
  systemRunning s' = systemRunning s.
Proof.
  unfold load_line. intros Hload.
  repeat match type of Hload with
         | context [if ?b then _ else _] => destruct b
         | context [match ?x with _ => _ end] => destruct x
         end; try discriminate; injection Hload as <- <-; by split_and!.
Qed.

Lemma loadJobs_frame (e : Entropy) (lines : list string) (s s' : MOS) :
  loadJobs e lines s = inr s' ->
  cpu s' = cpu s /\ outFile s' = outFile s /\ currentPCB s' = currentPCB s /\
  console s' = console s /\ globalTimer s' = globalTimer s /\
  systemRunning s' = systemRunning s.
Proof.
  unfold loadJobs.
  generalize (mkLoader None false EmptyString 0). revert s.
  induction lines as [|line lines IH]; intros s l Hload.
  - cbn in Hload. by injection Hload as <-.
  - cbn [load_lines] in Hload.
    destruct (load_line e line (l, s)) as [|[l1 s1]] eqn:Hline; [done|].
    apply load_line_frame in Hline. apply IH in Hload.
    destruct Hline as (? & ? & ? & ? & ? & ?). destruct Hload as (? & ? & ? & ? & ? & ?).
    split_and!; congruence.
Qed.

(** X13: the reasons a run can write.  In every state a run of any
    deck reaches from the constructor state, TI is 0 and every
    termination block in the output carries one of the four reasons
    "Normal termination", "Invalid operation code", "Invalid operand" and
    "Invalid page access": nothing sets TI, the time check inside the
    loop of [executeJob] is behind the guard of the loop, and no handler
    that is ever called passes another code to [terminate].  "Out of
    data", "Line limit exceeded" and "Time limit exceeded" are never
    written. *)
Theorem unreachable_reasons (e : Entropy) (lines : list string) (junk : list Word)
    (junkIR : Word) (s : MOS) (fuel : nat) :
  loadJobs e lines (initial_MOS junk junkIR) = inr s ->
  TI (cpu (final (run_loop fuel s))) = 0 /\
  forall p code ttc llc,
    In (OutTerminated p code ttc llc) (outFile (final (run_loop fuel s))) ->
    code <> EM_OUT_OF_DATA /\ code <> EM_LINE_LIMIT /\ code <> EM_TIME_LIMIT.
Proof.
  intros Hload. apply loadJobs_frame in Hload as (Hcpu & Hout & _).
  destruct (untimed_run_loop fuel s) as (HTI & Hreasons).
  { split; [by rewrite Hcpu|]. rewrite Hout. constructor. }
  split; [exact HTI|].
  intros p code ttc llc Hin.
  unfold reasons_reachable in Hreasons. rewrite Forall_forall in Hreasons.
  apply list_elem_of_In in Hin.
  specialize (Hreasons _ Hin). cbn in Hreasons. by destruct code.
Qed.

Lemma unreachable_reasons_witness :
  TI (cpu (final (run_loop 10 (loaded job_TLL_zero)))) = 0.
Proof.
  exact (proj1 (unreachable_reasons entropy_spread job_TLL_zero junk_data word0
                  (loaded job_TLL_zero) 10 eq_refl)).
Defined.


(** ** Jobs are neither lost nor made *)

Lemma blocks_app (a b : list OutItem) : blocks (a ++ b) = (blocks a + blocks b)%nat.
Proof. unfold blocks. by rewrite List.filter_app, length_app. Qed.

Global Instance jobs_conserved_refl : Reflexive jobs_conserved.
Proof. by intros s Hwf. Qed.

Global Instance jobs_conserved_trans : Transitive jobs_conserved.
Proof.
  intros s1 s2 s3 H12 H23 Hwf. destruct (H12 Hwf) as (Hwf2 & Heq2).
  destruct (H23 Hwf2) as (Hwf3 & Heq3). split; [done|lia].
Qed.

Lemma jobs_conserved_terminate (code : EM_Code) : stays jobs_conserved (terminate code).
Proof.
  intros s Hwf. destruct (currentPCB s) as [p|] eqn:Hp.
  - destruct (terminate_spec code s p Hwf Hp)
      as (p' & s' & -> & _ & Hwf' & Hout & Hq & Hcur & _).
    split; [exact Hwf'|]. cbn [final]. unfold jobs_in_system.
    rewrite Hout, Hq, Hcur, Hp, blocks_app.
    destruct (readyQueue s); cbn; lia.
  - unfold terminate. rewrite Hp. by split.
Qed.

Lemma jobs_conserved_dispatch (s : MOS) (e : InterruptVectorEntry) :
  select_entry (cpu s) = Some e -> jobs_conserved s (final (call (handler e) s)).
Proof.
  intros Hsel.
  destruct (error_entry_terminates e (select_entry_error _ _ Hsel)) as [code ->].
  apply jobs_conserved_terminate.
Qed.

Lemma jobs_conserved_contextSwitch : stays jobs_conserved contextSwitch.
Proof.
  intros s Hwf. split; [by apply wf_contextSwitch|].
  destruct (contextSwitch_cases s) as [[_ ->]|(p & next & rest & Hp & Hq & ->)];
    [done|].
  cbn [final outFile set_cpu set_currentPCB set_readyQueue set_console].
  unfold jobs_in_system.
  cbn [currentPCB readyQueue set_cpu set_currentPCB set_readyQueue set_console].
  rewrite Hp.
  apply (f_equal length) in Hq. rewrite length_app in Hq. cbn in Hq.
  cbn [length app]. lia.
Qed.

Lemma jobs_conserved_selectJob : stays jobs_conserved selectJob.
Proof.
  intros s Hwf. split; [by apply wf_selectJob|].
  unfold selectJob, jobs_in_system.
  destruct (currentPCB s) eqn:Hp; [cbn; by rewrite Hp|].
  destruct (readyQueue s) as [|next rest] eqn:Hq; [cbn; by rewrite Hp, Hq|].
  unfold bind, restoreContext. cbn. by destruct (_ =? _).
Qed.

Lemma jobs_conserved_run_loop (fuel : nat) : stays jobs_conserved (run_loop fuel).
Proof.
  apply run_run_loop; try apply _.
  - by intros s c _ Hwf.
  - intros s a w Hwf. split; [by apply wf_write|done].
  - intros s p p' Hp (_ & _ & _ & _ & _ & Hpt & HPTR & Hterm) Hwf.
    split; [by apply (wf_current s p p')|].
    unfold jobs_in_system. cbn. by rewrite Hp.
  - by intros s ev Hwf.
  - by intros s Hwf.
  - intros code _. apply jobs_conserved_terminate.
  - apply jobs_conserved_dispatch.
  - apply handleWrite_steps; try apply _.
    + by intros s c _ Hwf.
    + intros s p Hp Hwf. split; [by apply (wf_current s p)|].
      unfold jobs_in_system. cbn. by rewrite Hp.
    + intros s l Hwf. split; [done|]. unfold jobs_in_system.
      cbn [outFile set_outFile currentPCB readyQueue]. rewrite blocks_app.
      change (blocks [OutLine l]) with 0%nat. lia.
  - apply jobs_conserved_contextSwitch.
  - apply jobs_conserved_selectJob.
Qed.

(** X14: jobs are neither lost nor made.  In every state a run reaches
    after [loadJobs] has queued [n] jobs, the termination blocks written
    and the jobs still in the system (the current one and those in the
    ready queue) add up to [n]: a context switch keeps every job,
    [terminate] removes exactly the job whose block it writes, and no job
    is terminated twice.  So a run writes at most [n] blocks. *)
Theorem jobs_neither_lost_nor_made (e : Entropy) (lines : list string)
    (junk : list Word) (junkIR : Word) (s : MOS) (fuel : nat) :
  entropy_in_range e -> length junk = Z.to_nat MEM_SIZE ->
  loadJobs e lines (initial_MOS junk junkIR) = inr s ->
  (blocks (outFile (final (run_loop fuel s))) +
   length (jobs_in_system (final (run_loop fuel s))) = length (readyQueue s))%nat /\
  (blocks (outFile (final (run_loop fuel s))) <= length (readyQueue s))%nat.
Proof.
  intros He Hjunk Hload.
  destruct (loadJobs_inv e lines junk junkIR s He Hjunk Hload)
    as (Hwf & _ & Hcur & _ & _ & _ & Hout).
  destruct (jobs_conserved_run_loop fuel s Hwf) as (_ & Heq).
  unfold jobs_in_system at 2 in Heq. rewrite Hcur, Hout in Heq. cbn in Heq.
  split; lia.
Qed.

Lemma jobs_neither_lost_nor_made_witness :
  (blocks (outFile (final (run_loop 10 (loaded job_TLL_zero)))) <= 1)%nat.
Proof.
  exact (proj2 (jobs_neither_lost_nor_made entropy_spread job_TLL_zero junk_data word0
                  (loaded job_TLL_zero) 10 entropy_spread_in_range eq_refl eq_refl)).
Defined.


(** ** The line limit *)




Global Instance within_budget_refl : Reflexive within_budget.
Proof. intros s. unfold within_budget. lia. Qed.

Global Instance within_budget_trans : Transitive within_budget.
Proof. intros s1 s2 s3. unfold within_budget. lia. Qed.














(** ** The print instruction *)

Lemma executeInstruction_PD (s : MOS) (a : Z) :
  decoded_op (IR (cpu s)) = Some "PD"%string ->
  stoi (decoded_operand (IR (cpu s))) = Some a ->
  executeInstruction s =
  (let* s1 := get in
   let* r := addressMap a (RA (cpu s1)) in
   modify_cpu (set_RA (snd r)) ;;
   if negb (fst r) then ret tt
   else modify_cpu (set_SI WRITE) ;; handleWrite) (traced s).
Proof.
  unfold decoded_op, decoded_operand, executeInstruction. intros Hop Harg.
  unfold bind at 1. unfold get at 1. unfold bind at 1.
  unfold debugPrint at 1. unfold modify at 1. fold (traced s).
  destruct (String.length (rtrim (string_of_word (IR (cpu s)))) <? 3)%nat; [done|].
  injection Hop as Hop. rewrite Hop, Harg. reflexivity.
Qed.

Lemma handleWrite_within (s : MOS) (p : PCB) :
  currentPCB s = Some p -> LLC p + 1 <= TLL p ->
  handleWrite s =
  (let* r := addressMap (RA (cpu s)) 0 in
   if negb (fst r) then ret tt
   else let* s2 := get in
        emit (OutLine (nonnul_string (read_word (mem s2) (snd r)))))
    (set_currentPCB (Some (set_LLC (LLC p + 1) p)) s).
Proof.
  intros Hp Hlimit. unfold handleWrite. unfold bind at 1. rewrite (deref_Some s p Hp).
  unfold bind at 1. rewrite (modify_current_Some _ s p Hp).
  replace (LLC p + 1 >? TLL p) with false by lia. reflexivity.
Qed.

(** X16: [PD a] translates twice.  [executeInstruction] maps the
    operand into [cpu.RA], which then holds a real address; [handleWrite]
    maps [cpu.RA] once more, as if it were a virtual address.  So [PD a]
    prints the word at the translation of the translation of [a], when
    the page whose number is the frame of [a] happens to be mapped as
    well; when it is not, the line is counted, nothing is printed and the
    job is left with PI raised and SI = WRITE. *)
Theorem PD_translates_twice (s : MOS) (p : PCB) (a ra1 : Z) :
  currentPCB s = Some p -> LLC p + 1 <= TLL p ->
  decoded_op (IR (cpu s)) = Some "PD"%string ->
  stoi (decoded_operand (IR (cpu s))) = Some a ->
  addressMap a 0 s = Ret (true, ra1) s ->
  ra1 / PAGE_SIZE = frame (pageTable p !!! Z.to_nat (a / PAGE_SIZE)) /\
  (forall ra2, addressMap ra1 0 s = Ret (true, ra2) s ->
     executeInstruction s =
     Ret tt (set_outFile (outFile s ++ [OutLine (nonnul_string (read_word (mem s) ra2))])
               (set_currentPCB (Some (set_LLC (LLC p + 1) p))
                  (set_cpu (set_SI WRITE (set_RA ra1 (cpu s))) (traced s))))) /\
  ((forall ra2, addressMap ra1 0 s <> Ret (true, ra2) s) ->
     exists pi, (pi = PI_OPERAND_ERR \/ pi = PI_PAGE_FAULT) /\
       executeInstruction s =
       Ret tt (set_cpu (set_PI pi (set_SI WRITE (set_RA ra1 (cpu s))))
                 (set_currentPCB (Some (set_LLC (LLC p + 1) p)) (traced s)))).
Proof.
  intros Hp Hlimit Hop Harg Hmap.
  destruct (addressMap_success a 0 ra1 s Hmap) as (Hrange & _).
  set (s2 := set_cpu (set_SI WRITE (set_RA ra1 (cpu s))) (traced s)).
  set (s3 := set_currentPCB (Some (set_LLC (LLC p + 1) p)) s2).
  assert (Hrun : executeInstruction s = handleWrite s2).
  { rewrite (executeInstruction_PD s a Hop Harg).
    unfold bind at 1. unfold get at 1. unfold bind at 1.
    rewrite (addressMap_table a 0 ra1 s Hmap (traced s) (RA (cpu (traced s))) p p)
      by done.
    reflexivity. }
  split_and!.
  - assert (Hin : 0 <= a < MEM_SIZE).
    { unfold addressMap in Hmap. destruct ((a <? 0) || (a >=? MEM_SIZE)) eqn:Ha; [done|].
      lia. }
    pose proof (addressMap_in_range a 0 s p Hp Hin) as Heq. cbv zeta in Heq.
    rewrite Hmap in Heq.
    destruct (valid _ && frame_in_range _); [|done].
    injection Heq as ->. unfold PAGE_SIZE.
    rewrite Z.div_add_l by lia. rewrite (Z.div_small (a mod 10)); [lia|].
    apply Z.mod_pos_bound. lia.
  - intros ra2 Hmap2. rewrite Hrun, (handleWrite_within s2 p) by done.
    fold s3. unfold bind at 1. change (RA (cpu s2)) with ra1.
    rewrite (addressMap_table ra1 0 ra2 s Hmap2 s3 0 p (set_LLC (LLC p + 1) p)) by done.
    reflexivity.
  - intros Hfail. rewrite Hrun, (handleWrite_within s2 p) by done. fold s3.
    destruct (addressMap_total ra1 0 s3 (set_LLC (LLC p + 1) p))
      as [(ra2 & Hok)|(r & pi & Hbad & Hpi)]; [done| |].
    + destruct (Hfail ra2).
      apply (addressMap_table _ _ _ _ Hok s 0 (set_LLC (LLC p + 1) p) p); done.
    + exists pi. split; [done|]. unfold bind at 1.
      change (RA (cpu s2)) with ra1. rewrite Hbad. reflexivity.
Qed.

Lemma PD_translates_twice_witness :
  exists pi, (pi = PI_OPERAND_ERR \/ pi = PI_PAGE_FAULT) /\
    RA (cpu (final (executeInstruction (first_fetched job_PD "PD00")))) = 40 /\
    PI (cpu (final (executeInstruction (first_fetched job_PD "PD00")))) = pi /\
    outFile (final (executeInstruction (first_fetched job_PD "PD00"))) = [].
Proof.
  destruct (currentPCB (first_fetched job_PD "PD00")) as [p|] eqn:Hp;
    [|vm_compute in Hp; discriminate].
  destruct (PD_translates_twice (first_fetched job_PD "PD00") p 0 40 Hp)
    as (_ & _ & Hfail).
  - vm_compute in Hp. injection Hp as <-. vm_compute. discriminate.
  - vm_compute. reflexivity.
  - vm_compute. reflexivity.
  - vm_compute. reflexivity.
  - destruct Hfail as (pi & Hpi & Hrun).
    + intros ra2 Hmap. vm_compute in Hmap. discriminate.
    + exists pi. rewrite Hrun. split; [exact Hpi|]. split_and!; reflexivity.
Defined.


(** ** The job after a terminated one *)

Lemma terminate_next (code : EM_Code) (s : MOS) (p next : PCB) (rest : list PCB) :
  state_wf s -> currentPCB s = Some p -> readyQueue s = next :: rest ->
  exists s', terminate code s = Ret tt s' /\
    currentPCB s' = Some (set_pcb_state RUNNING next) /\
    readyQueue s' = rest /\ IC (cpu s') = 0 /\
    SI (cpu s') = 0 /\ PI (cpu s') = 0 /\ TI (cpu s') = 0 /\
    systemRunning s' = systemRunning s /\ globalTimer s' = globalTimer s /\
    outFile s' = outFile s ++ [OutTerminated (pid p) code (TTC p) (LLC p)].
Proof.
  intros Hwf Hp Hq. pose proof Hwf as (Hm & Hcur & _).
  destruct (retire_spec p (mem s) Hm (Hcur p Hp)) as (p' & m' & Hretire & _).
  unfold terminate. rewrite Hp. cbn [mem set_outFile]. rewrite Hretire.
  destruct (ProcessState_eqb _ _); cbn; rewrite Hq; cbn; eexists; by split_and!.
Qed.

(** X17: who restores the instruction counter.  When [terminate] ends
    the current job and the ready queue is not empty, the job at the
    front becomes current with IC = 0: [terminate] does not look at the
    program counter saved in its context.  Called from [handleInterrupt]
    this is repaired by the [restoreContext] that follows, and the job
    resumes where it was preempted; called directly, as
    [executeInstruction] does for an instruction it cannot decode and
    for GD, it is not: a job that had been preempted starts over at its
    first instruction. *)
Theorem successor_restarts_at_zero (s : MOS) (p next : PCB) (rest : list PCB) :
  state_wf s -> currentPCB s = Some p -> readyQueue s = next :: rest ->
  (forall code, exists s', terminate code s = Ret tt s' /\
     currentPCB s' = Some (set_pcb_state RUNNING next) /\
     readyQueue s' = rest /\ IC (cpu s') = 0) /\
  (forall e, select_entry (cpu s) = Some e ->
     exists s', handleInterrupt s = Ret tt s' /\
       currentPCB s' = Some (set_pcb_state RUNNING next) /\
       readyQueue s' = rest /\ IC (cpu s') = restored_IC next).
Proof.
  intros Hwf Hp Hq. split.
  - intros code. destruct (terminate_next code s p next rest Hwf Hp Hq)
      as (s' & Hrun & Hcur & Hq' & HIC & _).
    by exists s'.
  - intros e Hsel.
    destruct (error_entry_terminates e (select_entry_error _ _ Hsel)) as [code Hcall].
    set (s1 := set_currentPCB (Some (saved_context s p)) s).
    assert (Hwf1 : state_wf s1) by (by apply (wf_current s p (saved_context s p))).
    destruct (terminate_next code s1 (saved_context s p) next rest Hwf1 eq_refl Hq)
      as (s2 & Hrun & Hcur & Hq' & _).
    eexists. split.
    + unfold handleInterrupt. cbn [interruptsEnabled negb].
      unfold bind at 1. unfold get at 1. rewrite Hsel.
      unfold bind at 1. unfold saveContext at 1. rewrite Hp.
      change (set_currentPCB (Some _) s) with s1.
      unfold bind at 1. rewrite Hcall, Hrun.
      unfold bind, modify_cpu, modify, restoreContext. cbn. rewrite Hcur.
      change (programCounter (context (set_pcb_state RUNNING next)))
        with (programCounter (context next)).
      fold (restored_IC next).
      instantiate (1 := set_cpu (set_IC (restored_IC next) (clear_serviced e (cpu s2)))
                          (set_currentPCB
                             (Some (set_pcb_state RUNNING (set_pcb_state RUNNING next)))
                             (set_cpu (clear_serviced e (cpu s2)) s2))).
      unfold restored_IC. by destruct (_ =? _).
    + cbn. split_and!; [|done|done]. by destruct next as [? ? ? ? ? ? ? ? ? []].
Qed.

Lemma successor_restarts_at_zero_witness :
  exists s',
    terminate EM_NO_ERR
      (set_readyQueue [parked 7 (new_PCB 8 5 5 10)] sample_MOS) = Ret tt s' /\
    currentPCB s' = Some (set_pcb_state RUNNING (parked 7 (new_PCB 8 5 5 10))) /\
    IC (cpu s') = 0.
Proof.
  destruct (successor_restarts_at_zero
              (set_readyQueue [parked 7 (new_PCB 8 5 5 10)] sample_MOS)
              sample_PCB (parked 7 (new_PCB 8 5 5 10)) []) as (Hterm & _).
  - destruct sample_MOS_wf as (Hm & Hc & _). split_and!; [exact Hm|exact Hc|].
    constructor; [|constructor].
    exact (new_PCB_wf 8 5 5 1 ltac:(unfold FRAME_COUNT; lia)).
  - reflexivity.
  - reflexivity.
  - destruct (Hterm EM_NO_ERR) as (s' & Hrun & Hcur & _ & HIC).
    exists s'. split; [exact Hrun|]. split; [exact Hcur|exact HIC].
Defined.


Lemma checkTimeSlice_idle (s : MOS) :
  globalTimer s mod 10 <> 0 -> checkTimeSlice s = Ret tt s.
Proof.
  intros Hmod. unfold checkTimeSlice, bind, get.
  destruct (timeSliceExpired s) eqn:Hexp; [|reflexivity].
  apply timeSliceExpired_iff in Hexp as [? _]. done.
Qed.

(** X18: the tick after an instruction that ended its job.  When the
    instruction fetched cannot be decoded and another job is queued,
    [executeInstruction] ends the current job and makes the next one
    current; back in the loop of [executeJob], [TTC++] then counts the
    instruction against that next job: the block of the job that ended
    shows its TTC without this instruction, and the next job starts with
    one unit of its time limit used and IC = 0.  (Stated for a clock
    that does not reach a multiple of the quantum with this tick.) *)
Theorem tick_goes_to_successor (s : MOS) (p next : PCB) (rest : list PCB) (ra : Z) :
  state_wf s -> currentPCB s = Some p -> TTC p < TTL p ->
  readyQueue s = next :: rest ->
  addressMap (IC (cpu s)) 0 s = Ret (true, ra) s ->
  nonnul_string (read_word (mem s) ra) <> EmptyString ->
  match decoded_op (word_of_string (nonnul_string (read_word (mem s) ra))) with
  | None => True
  | Some op => known_op op = false
  end ->
  (globalTimer s + 1) mod 10 <> 0 ->
  exists s', executeJob_body s = Ret Next s' /\
    outFile s' = outFile s ++ [OutTerminated (pid p) EM_OP_CODE_ERR (TTC p) (LLC p)] /\
    currentPCB s' = Some (set_TTC (TTC next + 1) (set_pcb_state RUNNING next)) /\
    IC (cpu s') = 0 /\ readyQueue s' = rest /\ globalTimer s' = globalTimer s + 1.
Proof.
  intros Hwf Hp Htime Hq Hmap Hne Hbad Hclock.
  set (instruction := nonnul_string (read_word (mem s) ra)) in *.
  set (s2 := set_cpu (set_IC (IC (cpu s) + 1) (set_IR (word_of_string instruction) (cpu s)))
               s).
  set (s3 := set_cpu (set_PI PI_OP_ERR (cpu s2)) (traced s2)).
  destruct (terminate_next EM_OP_CODE_ERR s3 p next rest)
    as (s4 & Hterm & Hcur4 & Hq4 & HIC4 & HSI4 & HPI4 & HTI4 & _ & Hgt4 & Hout4);
    [done|done|done|].
  set (s5 := set_globalTimer (globalTimer s4 + 1)
               (set_currentPCB
                  (Some (set_TTC (TTC (set_pcb_state RUNNING next) + 1)
                           (set_pcb_state RUNNING next))) s4)).
  exists s5. split.
  - unfold executeJob_body. unfold bind at 1. rewrite (deref_Some s p Hp).
    replace (TTC p >=? TTL p) with false by lia.
    unfold bind at 1. unfold get at 1. unfold bind at 1. rewrite Hmap.
    cbn [fst snd negb]. unfold bind at 1. unfold get at 1. fold instruction.
    replace (String.eqb instruction EmptyString) with false
      by (symmetry; by apply String.eqb_neq).
    unfold bind at 1. unfold modify_cpu at 1. unfold modify at 1.
    unfold bind at 1. unfold modify_cpu at 1. unfold modify at 1.
    change (set_cpu _ (set_cpu _ s)) with s2.
    unfold bind at 1. rewrite (executeInstruction_unknown s2) by exact Hbad.
    fold s3. rewrite Hterm.
    unfold bind at 1. rewrite (deref_Some s4 _ Hcur4).
    unfold bind at 1. rewrite (modify_current_Some _ s4 _ Hcur4).
    unfold bind at 1. unfold modify at 1.
    change (set_globalTimer _ _) with s5.
    unfold bind at 1. unfold get at 1.
    replace (pending (cpu s5)) with false
      by (unfold pending; cbn; by rewrite HSI4, HPI4, HTI4).
    unfold bind at 1. unfold ret at 1.
    unfold bind at 1. rewrite checkTimeSlice_idle; [reflexivity|].
    cbn. by rewrite Hgt4.
  - subst s5. cbn [outFile currentPCB cpu readyQueue globalTimer set_globalTimer
                     set_currentPCB].
    split_and!; [exact Hout4|reflexivity|exact HIC4|exact Hq4|by rewrite Hgt4].
Qed.


Lemma first_turn_wf (lines : list string) (s : MOS) :
  loadJobs entropy_spread lines fresh_MOS = inr s -> state_wf (first_turn lines).
Proof.
  intros Hload. unfold first_turn, loaded. rewrite Hload.
  apply wf_selectJob.
  by destruct (loadJobs_inv entropy_spread lines junk_data word0 s
                 entropy_spread_in_range eq_refl Hload) as (Hwf & _).
Qed.

Lemma tick_goes_to_successor_witness :
  exists s' q, executeJob_body (first_turn two_halting_jobs) = Ret Next s' /\
    outFile s' = [OutTerminated 1 EM_OP_CODE_ERR 0 0] /\
    currentPCB s' = Some q /\ pid q = 2 /\ TTC q = 1.
Proof.
  assert (Hstate : exists p next rest,
            currentPCB (first_turn two_halting_jobs) = Some p /\
            readyQueue (first_turn two_halting_jobs) = next :: rest /\
            TTC p < TTL p /\ pid p = 1 /\ TTC p = 0 /\ LLC p = 0 /\
            pid next = 2 /\ TTC next = 0).
  { vm_compute. eexists _, _, _. split_and!; reflexivity. }
  destruct Hstate as (p & next & rest & Hp & Hq & Htime & Hpid & HTTC & HLLC & Hpid2 & HTTC2).
  destruct (tick_goes_to_successor (first_turn two_halting_jobs) p next rest 40)
    as (s' & Hrun & Hout & Hcur & _).
  - apply (first_turn_wf two_halting_jobs (loaded two_halting_jobs)).
    vm_compute. reflexivity.
  - exact Hp.
  - exact Htime.
  - exact Hq.
  - vm_compute. reflexivity.
  - vm_compute. discriminate.
  - vm_compute. exact I.
  - vm_compute. discriminate.
  - exists s', (set_TTC (TTC next + 1) (set_pcb_state RUNNING next)).
    split; [exact Hrun|]. split; [by rewrite Hout, Hpid, HTTC, HLLC|].
    split; [exact Hcur|]. split; [exact Hpid2|]. cbn. by rewrite HTTC2.
Defined.


(** ** Array bounds *)

(** X19: a run stays inside its arrays.  In every state a run reaches
    after loading a deck from the constructor state, the three arrays of
    the memory have their declared sizes, and for the current job and
    every queued job [PTR] is the first word of one of the ten frames and
    every valid page-table entry names one of the ten frames; so the
    unchecked index [PTR / PAGE_SIZE] in [terminate] is never outside
    [allocated], for any job the run may terminate next. *)
Theorem run_stays_in_bounds (e : Entropy) (lines : list string) (junk : list Word)
    (junkIR : Word) (s : MOS) (fuel : nat) :
  entropy_in_range e -> length junk = Z.to_nat MEM_SIZE ->
  loadJobs e lines (initial_MOS junk junkIR) = inr s ->
  mem_wf (mem (final (run_loop fuel s))) /\
  (forall p, In p (jobs_in_system (final (run_loop fuel s))) ->
     pcb_wf p /\
     0 <= Z.quot (PTR p) PAGE_SIZE < FRAME_COUNT /\
     exists p' m', retire p (mem (final (run_loop fuel s))) = Some (p', m')).
Proof.
  intros He Hjunk Hload.
  pose proof (run_well_formed e lines junk junkIR s fuel He Hjunk Hload)
    as (Hm & Hcur & Hq).
  split; [exact Hm|].
  intros p Hin.
  assert (Hp : pcb_wf p).
  { unfold jobs_in_system in Hin. apply in_app_or in Hin as [Hin|Hin].
    - destruct (currentPCB (final (run_loop fuel s))) as [p0|]; [|done].
      destruct Hin as [<-|[]]. by apply Hcur.
    - rewrite Forall_forall in Hq. apply Hq. by apply list_elem_of_In. }
  split; [exact Hp|]. split.
  - destruct Hp as (_ & (f & Hf & ->) & _). unfold PAGE_SIZE, FRAME_COUNT in *.
    rewrite Z.quot_mul by lia. lia.
  - destruct (retire_spec p _ Hm Hp) as (p' & m' & Hretire & _). by exists p', m'.
Qed.

Lemma run_stays_in_bounds_witness :
  mem_wf (mem (final (run_loop 60 (loaded two_looping_jobs)))).
Proof.
  exact (proj1 (run_stays_in_bounds entropy_spread two_looping_jobs junk_data word0
                  (loaded two_looping_jobs) 60 entropy_spread_in_range eq_refl
                  ltac:(vm_compute; reflexivity))).
Defined.


(** ** Jobs share no frame *)
















(** ** The read instruction *)

Lemma executeInstruction_GD (s : MOS) (a : Z) :
  decoded_op (IR (cpu s)) = Some "GD"%string ->
  stoi (decoded_operand (IR (cpu s))) = Some a ->
  executeInstruction s =
  (modify_cpu (set_SI READ) ;; handleRead ;; handleTerminate) (traced s).
Proof.
  unfold decoded_op, decoded_operand, executeInstruction. intros Hop Harg.
  unfold bind at 1. unfold get at 1. unfold bind at 1.
  unfold debugPrint at 1. unfold modify at 1. fold (traced s).
  destruct (String.length (rtrim (string_of_word (IR (cpu s)))) <? 3)%nat; [done|].
  injection Hop as Hop. rewrite Hop, Harg. reflexivity.
Qed.

Lemma handleRead_total (s : MOS) (p : PCB) :
  currentPCB s = Some p ->
  exists s' p', handleRead s = Ret tt s' /\
    currentPCB s' = Some p' /\
    pid p' = pid p /\ TTC p' = TTC p /\ LLC p' = LLC p /\
    dataCards p' = tail (dataCards p) /\
    outFile s' = outFile s /\ readyQueue s' = readyQueue s.
Proof.
  intros Hp. unfold handleRead. unfold bind at 1. rewrite (deref_Some s p Hp).
  destruct (dataCards p) as [|card rest] eqn:Hcards.
  - eexists _, p. split; [reflexivity|]. cbn. by rewrite Hcards.
  - unfold bind. rewrite (modify_current_Some _ s p Hp).
    destruct (handleRead_chunks_total (chunks card) 0
                (set_currentPCB (Some (set_dataCards rest p)) s) (set_dataCards rest p))
      as (s' & Hrun & Hcur & _ & Hout & Hq); [done|].
    exists s', (set_dataCards rest p). by split_and!.
Qed.

Lemma wf_handleRead : stays (keeps state_wf) handleRead.
Proof. apply handleRead_stays; eauto with frame; apply _. Qed.

(** X21: every [GD] ends its job.  For any numeric operand, [GD]
    runs the read handler on the address already in [cpu.RA] and then
    the terminate handler: on a well-formed state the job is ended with
    "Normal termination", its block shows the counters before the tick,
    and the next job of the ready queue becomes current.  The operand
    does not enter the result. *)
Theorem GD_ends_job (s : MOS) (p : PCB) (a : Z) :
  state_wf s -> currentPCB s = Some p ->
  decoded_op (IR (cpu s)) = Some "GD"%string ->
  stoi (decoded_operand (IR (cpu s))) = Some a ->
  executeInstruction s =
    (modify_cpu (set_SI READ) ;; handleRead ;; handleTerminate) (traced s) /\
  exists s', executeInstruction s = Ret tt s' /\
    outFile s' = outFile s ++ [OutTerminated (pid p) EM_NO_ERR (TTC p) (LLC p)] /\
    currentPCB s' = option_map (set_pcb_state RUNNING) (head (readyQueue s)) /\
    readyQueue s' = tail (readyQueue s) /\
    SI (cpu s') = 0 /\ PI (cpu s') = 0 /\ TI (cpu s') = 0.
Proof.
  intros Hwf Hp Hop Harg.
  pose proof (executeInstruction_GD s a Hop Harg) as Hrun.
  split; [exact Hrun|]. rewrite Hrun.
  set (s1 := set_cpu (set_SI READ (cpu (traced s))) (traced s)).
  assert (Hwf1 : state_wf s1) by done.
  destruct (handleRead_total s1 p Hp)
    as (s2 & p2 & Hread & Hcur2 & Hpid & HTTC & HLLC & _ & Hout2 & Hq2).
  assert (Hwf2 : state_wf s2).
  { pose proof (wf_handleRead s1 Hwf1) as H. by rewrite Hread in H. }
  destruct (terminate_spec EM_NO_ERR s2 p2 Hwf2 Hcur2)
    as (p' & s' & Hterm & _ & _ & Hout & Hq & Hcur & _ & _ & _ & HSI & HPI & HTI).
  exists s'. split.
  - unfold bind at 1. unfold modify_cpu at 1. unfold modify at 1. fold s1.
    unfold bind. rewrite Hread. exact Hterm.
  - rewrite Hout, Hq, Hcur, Hout2, Hq2, Hpid, HTTC, HLLC. by split_and!.
Qed.

Lemma first_fetched_wf (lines : list string) (instr : string) (s : MOS) :
  loadJobs entropy_spread lines fresh_MOS = inr s -> state_wf (first_fetched lines instr).
Proof.
  intros Hload. unfold first_fetched, loaded. rewrite Hload.
  apply wf_cpu.
  assert (Hstep : stays (keeps state_wf)
                    (selectJob ;; modify_current (set_pcb_state RUNNING))).
  { apply stays_bind; [apply _|apply wf_selectJob|].
    intros _. by apply wf_modify_current. }
  apply Hstep.
  by destruct (loadJobs_inv entropy_spread lines junk_data word0 s
                 entropy_spread_in_range eq_refl Hload) as (Hwf & _).
Qed.

Lemma GD_ends_job_witness :
  exists s', executeInstruction (first_fetched job_echo "GD10") = Ret tt s' /\
    outFile s' = [OutTerminated 1 EM_NO_ERR 0 0].
Proof.
  assert (Hstate : exists p, currentPCB (first_fetched job_echo "GD10") = Some p /\
            pid p = 1 /\ TTC p = 0 /\ LLC p = 0).
  { vm_compute. eexists. split_and!; reflexivity. }
  destruct Hstate as (p & Hp & Hpid & HTTC & HLLC).
  destruct (GD_ends_job (first_fetched job_echo "GD10") p 10)
    as (_ & s' & Hrun & Hout & _).
  - apply (first_fetched_wf job_echo "GD10" (loaded job_echo)). vm_compute. reflexivity.
  - exact Hp.
  - vm_compute. reflexivity.
  - vm_compute. reflexivity.
  - exists s'. split; [exact Hrun|]. by rewrite Hout, Hpid, HTTC, HLLC.
Defined.


(** ** The size of a program *)

(** X22: how large a program can be.  [loadProgramIntoMemory] takes
    one free frame for every pair of instructions, ten at most, and
    fails when a draw finds none: when it succeeds, the frames allocated
    before and the pages of the program together are at most the ten
    frames of the memory.  In [loadJobs] the frame of the job's page
    table is allocated before, so a program of more than 18 instructions
    is never loaded: its load ends in the exception. *)
Theorem program_size_limit (e : Entropy) (k : nat) (p : PCB) (code : string)
    (m : Memory) (p' : PCB) (m' : Memory) (k' : nat) :
  entropy_in_range e -> mem_wf m ->
  loadProgramIntoMemory e k p code m = Some (p', m', k') ->
  let n := Z.of_nat (length (instructions_of code)) in
  let pages := Z.min ((n + 1) / 2) FRAME_COUNT in
  Z.of_nat (count_true (allocated m')) = Z.of_nat (count_true (allocated m)) + pages /\
  Z.of_nat (count_true (allocated m)) + pages <= FRAME_COUNT /\
  ((1 <= count_true (allocated m))%nat -> n <= 18).
Proof.
  intros He Hm Hload n pages.
  destruct (loadProgramIntoMemory_spec e k p code m p' m' k' He Hm Hload)
    as ((Hm' & _) & Hcount & _).
  fold n in Hcount. fold pages in Hcount.
  pose proof (count_true_le_length (allocated m')) as Hle.
  destruct Hm' as (_ & Hlen & _). rewrite Hlen in Hle.
  assert (Hpages : 0 <= pages).
  { unfold pages, FRAME_COUNT. assert (0 <= (n + 1) / 2) by (apply Z.div_pos; lia). lia. }
  unfold FRAME_COUNT in *. change (Z.to_nat 10) with 10%nat in Hle.
  split_and!; [lia|lia|].
  intros Hone. assert (Hnine : (n + 1) / 2 <= 9) by lia.
  pose proof (Z.div_mod (n + 1) 2). pose proof (Z.mod_pos_bound (n + 1) 2). lia.
Qed.

Lemma program_size_limit_witness :
  exists p' m' k',
    loadProgramIntoMemory entropy_spread 2 (new_PCB 1 10 10 30) sample_code
      sample_memory = Some (p', m', k') /\
    Z.of_nat (count_true (allocated m')) = 5.
Proof.
  destruct (loadProgramIntoMemory entropy_spread 2 (new_PCB 1 10 10 30) sample_code
              sample_memory) as [[[p' m'] k']|] eqn:Hload;
    [|vm_compute in Hload; discriminate].
  exists p', m', k'. split; [reflexivity|].
  destruct (program_size_limit entropy_spread 2 (new_PCB 1 10 10 30) sample_code
              sample_memory p' m' k' entropy_spread_in_range) as (Hcount & _).
  - by split_and!.
  - exact Hload.
  - exact Hcount.
Defined.


(** ** The instruction cycle *)

Lemma executeInstruction_AL (s : MOS) (op : string) (a : Z) :
  decoded_op (IR (cpu s)) = Some op ->
  In op ["LR"; "SR"; "CR"; "BT"]%string ->
  stoi (decoded_operand (IR (cpu s))) = Some a ->
  executeInstruction s = executeArithmeticLogic op a (traced s).
Proof.
  unfold decoded_op, decoded_operand, executeInstruction. intros Hop Hin Harg.
  unfold bind at 1. unfold get at 1. unfold bind at 1.
  unfold debugPrint at 1. unfold modify at 1. fold (traced s).
  destruct (String.length (rtrim (string_of_word (IR (cpu s)))) <? 3)%nat; [done|].
  injection Hop as Hop. rewrite Hop, Harg.
  destruct Hin as [<-|[<-|[<-|[<-|[]]]]]; reflexivity.
Qed.

(** X23: the cycle of a register instruction.  With time left, no
    cause pending, the instruction counter mapped to a word that holds
    LR, SR, CR or BT with a numeric operand that is mapped as well, one
    iteration of the loop of [executeJob] does this and nothing else:
    the word goes to IR, IC is incremented, the instruction is executed
    on that state, TTC of the job and the clock advance by one, and the
    loop goes on; nothing is written to the output.  (Stated for a clock
    that does not reach a multiple of the quantum with this tick.) *)
Theorem register_instruction_cycle (s : MOS) (p : PCB) (ra : Z) (op : string)
    (a rb : Z) :
  currentPCB s = Some p -> TTC p < TTL p ->
  SI (cpu s) = 0 -> PI (cpu s) = 0 -> TI (cpu s) = 0 ->
  addressMap (IC (cpu s)) 0 s = Ret (true, ra) s ->
  nonnul_string (read_word (mem s) ra) <> EmptyString ->
  decoded_op (word_of_string (nonnul_string (read_word (mem s) ra))) = Some op ->
  In op ["LR"; "SR"; "CR"; "BT"]%string ->
  stoi (decoded_operand (word_of_string (nonnul_string (read_word (mem s) ra))))
    = Some a ->
  addressMap a 0 s = Ret (true, rb) s ->
  (globalTimer s + 1) mod 10 <> 0 ->
  exists s3,
    executeArithmeticLogic op a
      (traced (set_cpu (set_IC (IC (cpu s) + 1)
                          (set_IR (word_of_string (nonnul_string (read_word (mem s) ra)))
                             (cpu s))) s)) = Ret tt s3 /\
    executeJob_body s =
      Ret Next (set_globalTimer (globalTimer s + 1)
                  (set_currentPCB (Some (set_TTC (TTC p + 1) p)) s3)) /\
    outFile s3 = outFile s /\ readyQueue s3 = readyQueue s.
Proof.
  intros Hp Htime HSI HPI HTI Hmap Hne Hop Hin Harg Hmapb Hclock.
  set (instruction := nonnul_string (read_word (mem s) ra)) in *.
  set (s2 := set_cpu (set_IC (IC (cpu s) + 1) (set_IR (word_of_string instruction) (cpu s)))
               s).
  destruct (addressMap_success a 0 rb s Hmapb) as (_ & Hcong).
  assert (Hmapb' : addressMap a 0 (traced s2) = Ret (true, rb) (traced s2))
    by (by apply Hcong).
  pose proof (executeArithmeticLogic_mapped op a rb (traced s2) Hmapb') as HAL.
  assert (Hs3 : exists s3, executeArithmeticLogic op a (traced s2) = Ret tt s3 /\
            currentPCB s3 = Some p /\ globalTimer s3 = globalTimer s /\
            pending (cpu s3) = false /\
            outFile s3 = outFile s /\ readyQueue s3 = readyQueue s).
  { rewrite HAL. unfold pending.
    destruct Hin as [<-|[<-|[<-|[<-|[]]]]]; cbn [String.eqb Ascii.eqb Bool.eqb];
      try destruct (C (cpu (traced s2))); eexists; (split; [reflexivity|]); cbn;
      rewrite HSI, HPI, HTI; by split_and!. }
  destruct Hs3 as (s3 & Hrun & Hcur3 & Hgt3 & Hpend3 & Hout3 & Hq3).
  exists s3. split_and!; [exact Hrun| |exact Hout3|exact Hq3].
  unfold executeJob_body. unfold bind at 1. rewrite (deref_Some s p Hp).
  replace (TTC p >=? TTL p) with false by lia.
  unfold bind at 1. unfold get at 1. unfold bind at 1. rewrite Hmap.
  cbn [fst snd negb]. unfold bind at 1. unfold get at 1. fold instruction.
  replace (String.eqb instruction EmptyString) with false
    by (symmetry; by apply String.eqb_neq).
  unfold bind at 1. unfold modify_cpu at 1. unfold modify at 1.
  unfold bind at 1. unfold modify_cpu at 1. unfold modify at 1.
  change (set_cpu _ (set_cpu _ s)) with s2.
  unfold bind at 1. rewrite (executeInstruction_AL s2 op a Hop Hin Harg), Hrun.
  unfold bind at 1. rewrite (deref_Some s3 p Hcur3).
  unfold bind at 1. rewrite (modify_current_Some _ s3 p Hcur3).
  unfold bind at 1. unfold modify at 1.
  cbn [globalTimer set_currentPCB]. rewrite Hgt3.
  set (s5 := set_globalTimer _ _).
  unfold bind at 1. unfold get at 1.
  change (pending (cpu s5)) with (pending (cpu s3)). rewrite Hpend3.
  unfold bind at 1. unfold ret at 1.
  unfold bind at 1. rewrite checkTimeSlice_idle; [reflexivity|].
  done.
Qed.


Lemma register_instruction_cycle_witness :
  exists s', executeJob_body (first_turn two_looping_jobs) = Ret Next s' /\
    C (cpu s') = true /\ IC (cpu s') = 1 /\ globalTimer s' = 1.
Proof.
  assert (Hstate : exists p, currentPCB (first_turn two_looping_jobs) = Some p /\
            TTC p < TTL p).
  { vm_compute. eexists. split; reflexivity. }
  destruct Hstate as (p & Hp & Htime).
  destruct (register_instruction_cycle (first_turn two_looping_jobs) p 40 "CR" 2 42)
    as (s3 & HAL & Hbody & _).
  - exact Hp.
  - exact Htime.
  - vm_compute. reflexivity.
  - vm_compute. reflexivity.
  - vm_compute. reflexivity.
  - vm_compute. reflexivity.
  - vm_compute. discriminate.
  - vm_compute. reflexivity.
  - cbn. auto.
  - vm_compute. reflexivity.
  - vm_compute. reflexivity.
  - vm_compute. discriminate.
  - eexists. split; [exact Hbody|].
    vm_compute in HAL. injection HAL as <-. split_and!; reflexivity.
Defined.


(** ** A cause raised by an instruction *)

Lemma dispatch_table_pending (c : CPUState) (h : Handler) :
  dispatch_table c = Some h -> pending c = true.
Proof.
  unfold dispatch_table, pending.
  destruct (TI c =? 0), (PI c =? 0) eqn:HPI, (SI c =? 0) eqn:HSI; try done.
  apply Z.eqb_eq in HPI, HSI. rewrite HPI, HSI. done.
Qed.

Lemma checkTimeSlice_output (s : MOS) : outFile (final (checkTimeSlice s)) = outFile s.
Proof.
  unfold checkTimeSlice, bind, get.
  destruct (timeSliceExpired s); [|reflexivity].
  by destruct (contextSwitch_cases s) as [[_ ->]|(p & next & rest & _ & _ & ->)].
Qed.

(** The dispatcher on a running job, by handler. *)
Lemma handleInterrupt_ends_job (s : MOS) (p : PCB) (h : Handler) (code : EM_Code) :
  state_wf s -> currentPCB s = Some p ->
  dispatch_table (cpu s) = Some h -> call h = terminate code ->
  exists s', handleInterrupt s = Ret tt s' /\
    outFile s' = outFile s ++ [OutTerminated (pid p) code (TTC p) (LLC p)].
Proof.
  intros Hwf Hp Htable Hcall.
  pose proof (select_entry_table (cpu s)) as Hsel. rewrite Htable in Hsel.
  destruct (select_entry (cpu s)) as [e|] eqn:He; [|done].
  injection Hsel as Hh.
  set (s1 := set_currentPCB (Some (saved_context s p)) s).
  assert (Hwf1 : state_wf s1) by (by apply (wf_current s p (saved_context s p))).
  destruct (terminate_spec code s1 (saved_context s p) Hwf1 eq_refl)
    as (p' & s2 & Hterm & _ & _ & Hout & _).
  destruct (restoreContext_frame (set_cpu (clear_serviced e (cpu s2)) s2))
    as (s3 & Hrestore & _ & _ & _ & Hout3).
  exists s3. split.
  - unfold handleInterrupt. cbn [interruptsEnabled negb].
    unfold bind at 1. unfold get at 1. rewrite He.
    unfold bind at 1. unfold saveContext at 1. rewrite Hp.
    change (set_currentPCB (Some _) s) with s1.
    unfold bind at 1. rewrite Hh, Hcall, Hterm.
    unfold bind at 1. unfold modify_cpu at 1. unfold modify at 1. exact Hrestore.
  - rewrite Hout3. cbn [outFile set_cpu]. exact Hout.
Qed.

(** X24: a cause raised by an instruction ends the job in the same
    iteration.  When [executeInstruction] returns with its job still
    current and a cause pending, the loop of [executeJob] first counts
    the instruction (TTC and the clock) and then dispatches: the job is
    ended with the reason of the handler the dispatch table gives for the
    three cause fields, and its block shows TTC with this instruction
    counted.  Nothing else is written in the iteration. *)
Theorem pending_cause_ends_job (s : MOS) (p : PCB) (ra : Z) (s3 : MOS) (p3 : PCB)
    (h : Handler) (code : EM_Code) :
  state_wf s -> currentPCB s = Some p -> TTC p < TTL p ->
  addressMap (IC (cpu s)) 0 s = Ret (true, ra) s ->
  nonnul_string (read_word (mem s) ra) <> EmptyString ->
  executeInstruction
    (set_cpu (set_IC (IC (cpu s) + 1)
                (set_IR (word_of_string (nonnul_string (read_word (mem s) ra))) (cpu s)))
       s) = Ret tt s3 ->
  currentPCB s3 = Some p3 ->
  dispatch_table (cpu s3) = Some h -> call h = terminate code ->
  outFile (final (executeJob_body s)) =
  outFile s3 ++ [OutTerminated (pid p3) code (TTC p3 + 1) (LLC p3)].
Proof.
  intros Hwf Hp Htime Hmap Hne Hexec Hp3 Htable Hcall.
  set (instruction := nonnul_string (read_word (mem s) ra)) in *.
  set (s2 := set_cpu _ s) in Hexec.
  assert (Hwf3 : state_wf s3).
  { pose proof (wf_executeInstruction s2 Hwf) as H. by rewrite Hexec in H. }
  set (p5 := set_TTC (TTC p3 + 1) p3).
  set (s5 := set_globalTimer (globalTimer s3 + 1) (set_currentPCB (Some p5) s3)).
  assert (Hwf5 : state_wf s5) by (by apply (wf_current s3 p3 p5)).
  destruct (handleInterrupt_ends_job s5 p5 h code Hwf5 eq_refl Htable Hcall)
    as (s6 & Hint & Hout6).
  unfold executeJob_body. unfold bind at 1. rewrite (deref_Some s p Hp).
  replace (TTC p >=? TTL p) with false by lia.
  unfold bind at 1. unfold get at 1. unfold bind at 1. rewrite Hmap.
  cbn [fst snd negb]. unfold bind at 1. unfold get at 1. fold instruction.
  replace (String.eqb instruction EmptyString) with false
    by (symmetry; by apply String.eqb_neq).
  unfold bind at 1. unfold modify_cpu at 1. unfold modify at 1.
  unfold bind at 1. unfold modify_cpu at 1. unfold modify at 1.
  change (set_cpu _ (set_cpu _ s)) with s2.
  unfold bind at 1. rewrite Hexec.
  unfold bind at 1. rewrite (deref_Some s3 p3 Hp3).
  unfold bind at 1. rewrite (modify_current_Some _ s3 p3 Hp3).
  unfold bind at 1. unfold modify at 1.
  change (set_globalTimer _ _) with s5.
  unfold bind at 1. unfold get at 1.
  replace (pending (cpu s5)) with true
    by (symmetry; exact (dispatch_table_pending _ _ Htable)).
  unfold bind at 1. unfold bind at 1. rewrite Hint.
  unfold bind at 1. unfold get at 1.
  destruct (gone s6); unfold ret at 1; [exact Hout6|].
  unfold bind. pose proof (checkTimeSlice_output s6) as Hcheck.
  destruct (checkTimeSlice s6) as [[] s7|s7|s7]; cbn in *; by rewrite Hcheck.
Qed.

Lemma pending_cause_ends_job_witness :
  outFile (final (executeJob_body (first_turn job_PD)))
  = [OutTerminated 1 EM_INVALID_PAGE 1 1].
Proof.
  assert (Hstate : exists p s3 p3,
            currentPCB (first_turn job_PD) = Some p /\ TTC p < TTL p /\
            executeInstruction
              (set_cpu (set_IC (IC (cpu (first_turn job_PD)) + 1)
                          (set_IR (word_of_string
                                     (nonnul_string
                                        (read_word (mem (first_turn job_PD)) 40)))
                             (cpu (first_turn job_PD))))
                 (first_turn job_PD)) = Ret tt s3 /\
            currentPCB s3 = Some p3 /\
            dispatch_table (cpu s3) = Some H_PageFault /\
            outFile s3 = [] /\ pid p3 = 1 /\ TTC p3 = 0 /\ LLC p3 = 1).
  { vm_compute. eexists _, _, _. split_and!; reflexivity. }
  destruct Hstate as (p & s3 & p3 & Hp & Htime & Hexec & Hp3 & Htable & Hout & Hpid
                      & HTTC & HLLC).
  rewrite (pending_cause_ends_job (first_turn job_PD) p 40 s3 p3 H_PageFault
             EM_INVALID_PAGE).
  - by rewrite Hout, Hpid, HTTC, HLLC.
  - apply (first_turn_wf job_PD (loaded job_PD)). vm_compute. reflexivity.
  - exact Hp.
  - exact Htime.
  - vm_compute. reflexivity.
  - vm_compute. discriminate.
  - exact Hexec.
  - exact Hp3.
  - exact Htable.
  - reflexivity.
Defined.


(** ** No frame is left to a terminated job *)






Global Instance frames_accounted_refl : Reflexive frames_accounted.
Proof. by intros s Hwf Hacc. Qed.

Global Instance frames_accounted_trans : Transitive frames_accounted.
Proof.
  intros s1 s2 s3 H12 H23 Hwf Hacc. destruct (H12 Hwf Hacc) as (Hwf2 & Hacc2).
  by apply H23.
Qed.

















(** ** The registers across a context switch *)

(** A fetch that reads an empty word ends the iteration and, with it,
    [executeJob]: nothing is executed, the job stays as it is. *)
Lemma executeJob_empty_fetch (fuel : nat) (s : MOS) (p : PCB) (ra : Z) :
  currentPCB s = Some p -> terminated p = false -> TTC p < TTL p ->
  addressMap (IC (cpu s)) 0 (set_currentPCB (Some (set_pcb_state RUNNING p)) s)
  = Ret (true, ra) (set_currentPCB (Some (set_pcb_state RUNNING p)) s) ->
  nonnul_string (read_word (mem s) ra) = EmptyString ->
  executeJob (S fuel) s = Ret tt (set_currentPCB (Some (set_pcb_state RUNNING p)) s).
Proof.
  intros Hp Hterm Htime Hmap Hempty. rewrite (executeJob_enter _ s p Hp Hterm).
  set (s1 := set_currentPCB (Some (set_pcb_state RUNNING p)) s) in *.
  assert (Hp1 : currentPCB s1 = Some (set_pcb_state RUNNING p)) by done.
  cbn [executeJob_loop]. unfold bind at 1. rewrite (deref_Some s1 _ Hp1).
  cbn [terminated TTC TTL set_pcb_state set_context].
  rewrite Hterm. replace (TTC p <? TTL p) with true by lia. cbn [negb andb].
  unfold bind at 1. unfold executeJob_body.
  unfold bind at 1. rewrite (deref_Some s1 _ Hp1).
  cbn [terminated TTC TTL set_pcb_state set_context].
  replace (TTC p >=? TTL p) with false by lia.
  unfold bind at 1. unfold get at 1. unfold bind at 1.
  change (IC (cpu s1)) with (IC (cpu s)). rewrite Hmap.
  cbn [fst snd negb]. unfold bind at 1. unfold get at 1.
  change (mem s1) with (mem s). rewrite Hempty. reflexivity.
Qed.

(** C7 on the code: the preemption stores the instruction counter of
    the outgoing job and zeros in the other slots of its context, and
    sets only the instruction counter for the incoming job: R and C are
    neither saved nor restored, the incoming job runs with the register
    and the condition flag of the job before it.  For the batch of
    [two_jobs_one_register]: job 1 is preempted at tick 10 with R empty
    and C set, in a loop that holds as long as R is empty; job 2 loads R
    with "CR02" and is preempted at tick 20; job 1 is made current again
    at its saved counter with R = "CR02", its comparison now fails, it
    leaves its loop and stalls on the empty word at address 2. *)
Theorem context_switch_saves_no_register :
  (forall s p next rest,
     currentPCB s = Some p -> readyQueue s = next :: rest ->
     timeSliceExpired s = true ->
     exists s' p',
       checkTimeSlice s = Ret tt s' /\
       readyQueue s' = rest ++ [p'] /\
       programCounter (context p') = IC (cpu s) /\
       registers (context p') = replicate 8 0 /\
       statusRegister (context p') = 0 /\
       currentPCB s' = Some (set_pcb_state RUNNING next) /\
       IC (cpu s') = restored_IC next /\
       R (cpu s') = R (cpu s) /\ C (cpu s') = C (cpu s)) /\
  (let s10 := final (run_loop 11 (loaded two_jobs_one_register)) in
   globalTimer s10 = 10 /\
   option_map pid (currentPCB s10) = Some 2 /\
   map (fun p => (pid p, programCounter (context p), registers (context p)))
       (readyQueue s10) = [(1, 0, replicate 8 0)] /\
   R (cpu s10) = word0 /\ C (cpu s10) = true) /\
  (let s20 := final (run_loop 21 (loaded two_jobs_one_register)) in
   globalTimer s20 = 20 /\
   option_map pid (currentPCB s20) = Some 1 /\ IC (cpu s20) = 0 /\
   R (cpu s20) = word_of_string "CR02" /\ C (cpu s20) = true) /\
  (let s22 := final (run_loop 23 (loaded two_jobs_one_register)) in
   globalTimer s22 = 22 /\
   option_map pid (currentPCB s22) = Some 1 /\ IC (cpu s22) = 2 /\
   R (cpu s22) = word_of_string "CR02" /\ C (cpu s22) = false /\
   forall fuel, exists s',
     run_loop fuel s22 = OutOfFuel s' /\ globalTimer s' = 22 /\ outFile s' = []).
Proof.
  split_and!.
  - intros s p next rest Hp Hq Hexp.
    exists (set_cpu (set_IC (restored_IC next) (cpu s))
              (set_currentPCB (Some (set_pcb_state RUNNING next))
                 (set_readyQueue (rest ++ [saved_context s p])
                    (set_console (EvSwitch :: console s) s)))),
           (saved_context s p).
    split; [|by split_and!].
    unfold checkTimeSlice, bind, get. rewrite Hexp.
    apply (contextSwitch_spec s p); [done|]. by rewrite Hq.
  - vm_compute. split_and!; reflexivity.
  - vm_compute. split_and!; reflexivity.
  - set (s22 := final (run_loop 23 (loaded two_jobs_one_register))).
    cbv zeta.
    assert (Hfacts : exists p,
              currentPCB s22 = Some p /\ terminated p = false /\ TTC p < TTL p /\
              addressMap (IC (cpu s22)) 0
                (set_currentPCB (Some (set_pcb_state RUNNING p)) s22)
              = Ret (true, 42) (set_currentPCB (Some (set_pcb_state RUNNING p)) s22) /\
              nonnul_string (read_word (mem s22) 42) = EmptyString /\
              set_currentPCB (Some (set_pcb_state RUNNING p)) s22 = s22 /\
              systemRunning s22 = true /\ globalTimer s22 = 22 /\ outFile s22 = [] /\
              option_map pid (currentPCB s22) = Some 1 /\ IC (cpu s22) = 2 /\
              R (cpu s22) = word_of_string "CR02" /\ C (cpu s22) = false).
    { vm_compute. eexists. split_and!; reflexivity. }
    destruct Hfacts as (p & Hp & Hterm & Htime & Hmap & Hempty & Hsame & Hrun & Hgt
                        & Hout & Hpid & HIC & HR & HC).
    clearbody s22.
    split_and!; [exact Hgt|exact Hpid|exact HIC|exact HR|exact HC|].
    intros fuel.
    destruct (run_loop_spins s22 p Hp Hrun ltac:(unfold MAX_TIMER; lia)) with (fuel := fuel)
      as (s' & Hspin & Hout' & _ & Hgt').
    + intros fuel'.
      rewrite (executeJob_empty_fetch fuel' s22 p 42 Hp Hterm Htime Hmap Hempty).
      by rewrite Hsame.
    + exists s'. split_and!; [exact Hspin|lia|congruence].
Qed.
